(** * The IBus engine adapter of Mozc and its quality harness

    A shallow embedding of [unix/ibus/mozc_engine.cc] (the engine adapter
    between the IBus host framework and the conversion session) and of
    [client/client_quality_test_main.cc] (the conversion quality harness),
    with the properties their design document states about them.

    The session, the key translator, the configuration schema and the
    property tables live in other translation units; they enter as
    interfaces (type classes and section variables).  Every call that leaves
    the adapter (session, key translator, host UI, diagnostics) is recorded,
    in order, in a log carried by the engine state. *)

From Stdlib Require Import ZArith NArith List String Ascii Bool Lia.
From Stdlib Require Import DecimalString Permutation Sorted.
Import ListNotations.

Local Open Scope string_scope.
Local Open Scope list_scope.
Local Open Scope Z_scope.

Set Implicit Arguments.

(** ** Machine integers *)

(** [int] / [int32]: two's complement on 32 bits. *)
Definition wrap_int32 (z : Z) : Z := (z + 2 ^ 31) mod 2 ^ 32 - 2 ^ 31.

(** [guint] / [uint32]. *)
Definition wrap_uint32 (z : Z) : Z := z mod 2 ^ 32.

(** [uint64]. *)
Definition wrap_uint64 (z : Z) : Z := z mod 2 ^ 64.


(** ** Strings

    [std::string] holds UTF-8 bytes.  IBus attribute indices and the
    [value_length] field of a preedit segment count characters: every byte
    that is not a UTF-8 continuation byte (10xxxxxx) starts one. *)

Definition is_continuation_byte (c : ascii) : bool :=
  match c with
  | Ascii _ _ _ _ _ _ b6 b7 => b7 && negb b6
  end.

Fixpoint chars_len (s : string) : Z :=
  match s with
  | EmptyString => 0
  | String c rest =>
      (if is_continuation_byte c then 0 else 1) + chars_len rest
  end.

(** [printf("%d", z)] for an [int]. *)
Definition print_int (z : Z) : string := NilZero.string_of_int (Z.to_int z).

(** ** The session protocol ([session/commands.proto]) *)

Module commands.

Inductive CompositionMode :=
| DIRECT | HIRAGANA | FULL_KATAKANA | HALF_ASCII | FULL_ASCII | HALF_KATAKANA.

Definition CompositionMode_eqb (a b : CompositionMode) : bool :=
  match a, b with
  | DIRECT, DIRECT | HIRAGANA, HIRAGANA | FULL_KATAKANA, FULL_KATAKANA
  | HALF_ASCII, HALF_ASCII | FULL_ASCII, FULL_ASCII
  | HALF_KATAKANA, HALF_KATAKANA => true
  | _, _ => false
  end.

Inductive SpecialKey :=
| SPACE | ON | OFF | ENTER | HENKAN | MUHENKAN | OtherSpecialKey (n : N).

Record KeyEvent := {
  key_code : option Z;
  special_key : option SpecialKey
}.

Inductive CommandType :=
| REVERT | SUBMIT | SELECT_CANDIDATE | SWITCH_INPUT_MODE.

Record SessionCommand := {
  type : CommandType;
  id : option Z;
  composition_mode : option CompositionMode
}.

Inductive Annotation := NONE | UNDERLINE | HIGHLIGHT.

Record Segment := {
  annotation : Annotation;
  value : string;
  value_length : Z
}.

Record Preedit := {
  cursor : Z;
  segment : list Segment;
  highlighted_position : option Z
}.

Record CandidateAnnotation := {
  shortcut : option string
}.

Record Candidate := {
  index : Z;
  candidate_value : string;
  candidate_id : option Z;
  candidate_annotation : option CandidateAnnotation
}.

Record Candidates := {
  focused_index : option Z;
  size : Z;
  candidate : list Candidate
}.

Record Output := {
  result : option string;
  preedit : option Preedit;
  candidates : option Candidates;
  mode : option CompositionMode;
  consumed : bool
}.

(** A default-constructed [Output]. *)
Definition no_output : Output :=
  {| result := None; preedit := None; candidates := None; mode := None;
     consumed := false |}.

End commands.

Import commands.

(** ** IBus values ([ibus.h]) *)

Inductive IBusAttrType :=
| IBUS_ATTR_TYPE_UNDERLINE | IBUS_ATTR_TYPE_FOREGROUND | IBUS_ATTR_TYPE_BACKGROUND.

Definition IBUS_ATTR_UNDERLINE_NONE : Z := 0.
Definition IBUS_ATTR_UNDERLINE_SINGLE : Z := 1.
Definition IBUS_ATTR_UNDERLINE_DOUBLE : Z := 2.
Definition IBUS_ATTR_UNDERLINE_ERROR : Z := 4.

Record IBusAttribute := {
  attr_type : IBusAttrType;
  attr_value : Z;
  start_index : Z;
  end_index : Z
}.

Record IBusText := {
  text : string;
  attrs : list IBusAttribute
}.

Definition ibus_text_new_from_string (s : string) : IBusText :=
  {| text := s; attrs := [] |}.

(** The [int] arguments [start] and [end] are converted to [guint]. *)
Definition ibus_text_append_attribute
    (t : IBusText) (ty : IBusAttrType) (v : Z) (start_ end_ : Z) : IBusText :=
  {| text := text t;
     attrs := attrs t ++ [ {| attr_type := ty; attr_value := v;
                              start_index := wrap_uint32 start_;
                              end_index := wrap_uint32 end_ |} ] |}.

(** ** Rendering composer *)

(** First loop of [ComposePreeditText]: [data.append(segment(i).value())]. *)
Fixpoint preedit_data (segs : list Segment) : string :=
  match segs with
  | [] => ""
  | s :: rest => (value s ++ preedit_data rest)%string
  end.

(** The [switch] on the annotation; [attr] starts as
    [IBUS_ATTR_UNDERLINE_ERROR] and every annotation of the protocol
    overwrites it. *)
Definition underline_of (a : Annotation) : Z :=
  match a with
  | NONE => IBUS_ATTR_UNDERLINE_NONE
  | UNDERLINE => IBUS_ATTR_UNDERLINE_SINGLE
  | HIGHLIGHT => IBUS_ATTR_UNDERLINE_DOUBLE
  end.

Definition kBackgroundColor : Z := 0xD1EAFF.
Definition kForegroundColor : Z := 0x000000.

(** One iteration of the second loop: returns the text with the attributes of
    the segment appended and the new [end] (which becomes [start]). *)
Definition compose_segment (t : IBusText) (start_ : Z) (s : Segment)
  : IBusText * Z :=
  let attr := underline_of (annotation s) in
  let end_ := wrap_int32 (start_ + value_length s) in
  let t := ibus_text_append_attribute t IBUS_ATTR_TYPE_UNDERLINE attr start_ end_ in
  let t :=
    match annotation s with
    | HIGHLIGHT =>
        let t := ibus_text_append_attribute
                   t IBUS_ATTR_TYPE_BACKGROUND kBackgroundColor start_ end_ in
        ibus_text_append_attribute
          t IBUS_ATTR_TYPE_FOREGROUND kForegroundColor start_ end_
    | _ => t
    end in
  (t, end_).

Fixpoint compose_segments (t : IBusText) (start_ : Z) (segs : list Segment)
  : IBusText :=
  match segs with
  | [] => t
  | s :: rest =>
      let '(t', end_) := compose_segment t start_ s in
      compose_segments t' end_ rest
  end.

Definition ComposePreeditText (p : Preedit) : IBusText :=
  let data := preedit_data (segment p) in
  let t := ibus_text_new_from_string data in
  compose_segments t 0 (segment p).

Definition CursorPos (output : Output) : Z :=
  match preedit output with
  | None => 0
  | Some p =>
      match highlighted_position p with
      | Some h => h
      | None => cursor p
      end
  end.

Definition focused_index_or_default (c : Candidates) : Z :=
  match focused_index c with Some i => i | None => 0 end.

Definition ComposeAuxiliaryText (c : Candidates) : IBusText :=
  ibus_text_new_from_string
    (print_int (wrap_int32 (focused_index_or_default c + 1))
     ++ "/" ++ print_int (wrap_int32 (size c)))%string.


Record IBusLookupTable := {
  page_size : Z;
  cursor_pos : Z;
  cursor_visible : bool;
  round : bool;
  orientation_vertical : bool;
  table_candidates : list IBusText;
  table_labels : list IBusText
}.

Inductive IBusPropState := PROP_STATE_UNCHECKED | PROP_STATE_CHECKED | PROP_STATE_INCONSISTENT.

Definition IBusPropState_eqb (a b : IBusPropState) : bool :=
  match a, b with
  | PROP_STATE_UNCHECKED, PROP_STATE_UNCHECKED
  | PROP_STATE_CHECKED, PROP_STATE_CHECKED
  | PROP_STATE_INCONSISTENT, PROP_STATE_INCONSISTENT => true
  | _, _ => false
  end.

Definition IBUS_RELEASE_MASK : Z := Z.shiftl 1 30.

(** ** Configuration ([session/config.proto], reached through reflection) *)

Module config.
Inductive PreeditMethod := ROMAN | KANA.
End config.

Inductive CppType :=
| CPPTYPE_INT32 | CPPTYPE_INT64 | CPPTYPE_UINT32 | CPPTYPE_UINT64
| CPPTYPE_DOUBLE | CPPTYPE_FLOAT | CPPTYPE_BOOL | CPPTYPE_ENUM
| CPPTYPE_STRING | CPPTYPE_MESSAGE.

(** The generated class [config::Config] with its descriptor and reflection
    objects.  [new_Config] is a default-constructed message.  The setters are
    those of the reflection interface, taken as total. *)
Class ConfigSchema := {
  Config : Type;
  FieldDescriptor : Type;
  EnumValueDescriptor : Type;
  new_Config : Config;
  preedit_method : Config -> option config.PreeditMethod;
  FindFieldByName : string -> option FieldDescriptor;
  FindEnumValueByName : string -> option EnumValueDescriptor;
  cpp_type : FieldDescriptor -> CppType;
  SetEnum : Config -> FieldDescriptor -> EnumValueDescriptor -> Config;
  SetUInt32 : Config -> FieldDescriptor -> Z -> Config;
  SetBool : Config -> FieldDescriptor -> bool -> Config
}.

(** What a [GValue] holds. *)
Inductive GValue :=
| G_TYPE_STRING (s : string)
| G_TYPE_INT (i : Z)
| G_TYPE_BOOLEAN (b : bool)
| G_TYPE_OTHER.

(** ** The session client ([client/session.h], [unix/ibus/session.h])

    Each call is a blocking round trip: it returns its result together with
    the next state of the session.  Calls that fill an [Output] return it with
    their success flag, since callers may read it whatever the flag. *)

Module client.
Class Session {schema : ConfigSchema} (Sess : Type) := {
  EnsureConnection : Sess -> bool * Sess;
  SendKey : Sess -> KeyEvent -> (bool * Output) * Sess;
  SendCommand : Sess -> SessionCommand -> (bool * Output) * Sess;
  GetConfig : Sess -> option Config * Sess;
  SetConfig : Sess -> Config -> bool * Sess;
  SyncData : Sess -> Sess;
  LaunchTool : Sess -> string -> string -> bool * Sess
}.
End client.

(** ** Property tables ([unix/ibus/mozc_engine_property.h]) *)

Module MozcEngineProperty.
Record t := {
  composition_mode : CompositionMode;
  key : string;
  label : string;
  icon : string
}.
End MozcEngineProperty.

Module MozcEngineToolProperty.
Record t := {
  mode : string;
  label : string;
  icon : string
}.
End MozcEngineToolProperty.

(** Build switches. *)
Class Build := {
  OS_CHROMEOS : bool;
  IBUS_CHECK_VERSION_1_3_0 : bool
}.

(** Collaborators and data the adapter is linked with: the key translator,
    the policy of keys that turn the IME on in direct mode, the property
    tables, the icon directory and whether [mozc_tool] is installed. *)
Class Collaborators := {
  Translate : Z -> Z -> Z -> config.PreeditMethod -> bool -> option KeyEvent;
  IsTurnOnInDirectMode : KeyEvent -> bool;
  kMozcEngineProperties : list MozcEngineProperty.t;
  kMozcEngineInitialCompositionMode : CompositionMode;
  kMozcEngineToolProperties : list MozcEngineToolProperty.t;
  GetIconPath : string -> string;
  IsMozcToolAvailable : bool
}.

(** ** Property tree owned by the engine *)

(** An item of the composition-mode radio menu; [radio_entry] is the table
    entry attached under [kGObjectDataKey]. *)
Record RadioItem := {
  radio_key : string;
  radio_state : IBusPropState;
  radio_entry : option MozcEngineProperty.t
}.

Record ToolItem := {
  tool_key : string;
  tool_entry : MozcEngineToolProperty.t
}.

Record CompositionModeMenu := {
  menu_icon : string;
  sub_props : list RadioItem
}.

Record ToolMenu := {
  tool_icon : string;
  tool_sub_props : list ToolItem
}.

(** ** Calls that leave the adapter *)

Section Events.
Context {schema : ConfigSchema}.

Inductive Event :=
(* key translator *)
| KeyTranslator_Translate
    (keyval keycode modifiers : Z) (method : config.PreeditMethod)
    (layout_is_jp : bool)
(* session client *)
| Session_EnsureConnection
| Session_SendKey (key : KeyEvent)
| Session_SendCommand (command : SessionCommand)
| Session_GetConfig
| Session_SetConfig (c : Config)
| Session_SyncData
| Session_LaunchTool (mode arg : string)
(* host UI *)
| ibus_engine_commit_text (t : IBusText)
| ibus_engine_hide_preedit_text
| ibus_engine_update_preedit_text (t : IBusText) (cursor_pos : Z) (visible : bool)
| ibus_engine_hide_auxiliary_text
| ibus_engine_update_auxiliary_text (t : IBusText) (visible : bool)
| ibus_engine_hide_lookup_table
| ibus_engine_update_lookup_table (table : IBusLookupTable) (visible : bool)
| ibus_engine_update_property (prop : CompositionModeMenu)
| ibus_engine_register_properties
    (composition_mode_prop : CompositionModeMenu) (tool_prop : option ToolMenu)
(* diagnostics *)
| LOG_ERROR (message : string).

Definition is_session_call (ev : Event) : bool :=
  match ev with
  | Session_EnsureConnection | Session_SendKey _ | Session_SendCommand _
  | Session_GetConfig | Session_SetConfig _ | Session_SyncData
  | Session_LaunchTool _ _ => true
  | _ => false
  end.

Definition is_SyncData_call (ev : Event) : bool :=
  match ev with
  | Session_SyncData => true
  | _ => false
  end.

Definition is_command_of_type (ty : CommandType) (ev : Event) : bool :=
  match ev with
  | Session_SendCommand c =>
      match type c, ty with
      | REVERT, REVERT | SUBMIT, SUBMIT
      | SELECT_CANDIDATE, SELECT_CANDIDATE
      | SWITCH_INPUT_MODE, SWITCH_INPUT_MODE => true
      | _, _ => false
      end
  | _ => false
  end.

End Events.

(** ** The engine *)

Section Engine.
Context {build : Build} {schema : ConfigSchema} {linked : Collaborators}.
Context {Sess : Type} {session : client.Session Sess}.

(** The members of [MozcEngine], followed by the log of outgoing calls.
    [session_] is allocated by the constructor and never reset, so the
    record holds the session itself. *)
Record MozcEngine := {
  last_sync_time_ : Z;
  session_ : Sess;
  prop_composition_mode_ : CompositionModeMenu;
  prop_mozc_tool_ : option ToolMenu;
  current_composition_mode_ : CompositionMode;
  preedit_method_ : config.PreeditMethod;
  unique_candidate_ids_ : list Z;
  log : list Event
}.

Definition set_last_sync_time_ (v : Z) (e : MozcEngine) : MozcEngine :=
  {| last_sync_time_ := v; session_ := session_ e;
     prop_composition_mode_ := prop_composition_mode_ e;
     prop_mozc_tool_ := prop_mozc_tool_ e;
     current_composition_mode_ := current_composition_mode_ e;
     preedit_method_ := preedit_method_ e;
     unique_candidate_ids_ := unique_candidate_ids_ e; log := log e |}.

Definition set_session_ (v : Sess) (e : MozcEngine) : MozcEngine :=
  {| last_sync_time_ := last_sync_time_ e; session_ := v;
     prop_composition_mode_ := prop_composition_mode_ e;
     prop_mozc_tool_ := prop_mozc_tool_ e;
     current_composition_mode_ := current_composition_mode_ e;
     preedit_method_ := preedit_method_ e;
     unique_candidate_ids_ := unique_candidate_ids_ e; log := log e |}.

Definition set_prop_composition_mode_ (v : CompositionModeMenu) (e : MozcEngine)
  : MozcEngine :=
  {| last_sync_time_ := last_sync_time_ e; session_ := session_ e;
     prop_composition_mode_ := v;
     prop_mozc_tool_ := prop_mozc_tool_ e;
     current_composition_mode_ := current_composition_mode_ e;
     preedit_method_ := preedit_method_ e;
     unique_candidate_ids_ := unique_candidate_ids_ e; log := log e |}.

Definition set_current_composition_mode_ (v : CompositionMode) (e : MozcEngine)
  : MozcEngine :=
  {| last_sync_time_ := last_sync_time_ e; session_ := session_ e;
     prop_composition_mode_ := prop_composition_mode_ e;
     prop_mozc_tool_ := prop_mozc_tool_ e;
     current_composition_mode_ := v;
     preedit_method_ := preedit_method_ e;
     unique_candidate_ids_ := unique_candidate_ids_ e; log := log e |}.

Definition set_preedit_method_ (v : config.PreeditMethod) (e : MozcEngine)
  : MozcEngine :=
  {| last_sync_time_ := last_sync_time_ e; session_ := session_ e;
     prop_composition_mode_ := prop_composition_mode_ e;
     prop_mozc_tool_ := prop_mozc_tool_ e;
     current_composition_mode_ := current_composition_mode_ e;
     preedit_method_ := v;
     unique_candidate_ids_ := unique_candidate_ids_ e; log := log e |}.

Definition set_unique_candidate_ids_ (v : list Z) (e : MozcEngine) : MozcEngine :=
  {| last_sync_time_ := last_sync_time_ e; session_ := session_ e;
     prop_composition_mode_ := prop_composition_mode_ e;
     prop_mozc_tool_ := prop_mozc_tool_ e;
     current_composition_mode_ := current_composition_mode_ e;
     preedit_method_ := preedit_method_ e;
     unique_candidate_ids_ := v; log := log e |}.

(** Records one outgoing call. *)
Definition emit (ev : Event) (e : MozcEngine) : MozcEngine :=
  {| last_sync_time_ := last_sync_time_ e; session_ := session_ e;
     prop_composition_mode_ := prop_composition_mode_ e;
     prop_mozc_tool_ := prop_mozc_tool_ e;
     current_composition_mode_ := current_composition_mode_ e;
     preedit_method_ := preedit_method_ e;
     unique_candidate_ids_ := unique_candidate_ids_ e;
     log := log e ++ [ev] |}.

(** *** Session calls made through [session_] *)

Definition session_EnsureConnection (e : MozcEngine) : bool * MozcEngine :=
  let '(ok, s) := client.EnsureConnection (session_ e) in
  (ok, set_session_ s (emit Session_EnsureConnection e)).

Definition session_SendKey (key : KeyEvent) (e : MozcEngine)
  : (bool * Output) * MozcEngine :=
  let '(r, s) := client.SendKey (session_ e) key in
  (r, set_session_ s (emit (Session_SendKey key) e)).

Definition session_SendCommand (command : SessionCommand) (e : MozcEngine)
  : (bool * Output) * MozcEngine :=
  let '(r, s) := client.SendCommand (session_ e) command in
  (r, set_session_ s (emit (Session_SendCommand command) e)).

Definition session_GetConfig (e : MozcEngine) : option Config * MozcEngine :=
  let '(r, s) := client.GetConfig (session_ e) in
  (r, set_session_ s (emit Session_GetConfig e)).

Definition session_SetConfig (c : Config) (e : MozcEngine) : bool * MozcEngine :=
  let '(r, s) := client.SetConfig (session_ e) c in
  (r, set_session_ s (emit (Session_SetConfig c) e)).

Definition session_SyncData (e : MozcEngine) : MozcEngine :=
  set_session_ (client.SyncData (session_ e)) (emit Session_SyncData e).

Definition session_LaunchTool (mode arg : string) (e : MozcEngine)
  : bool * MozcEngine :=
  let '(r, s) := client.LaunchTool (session_ e) mode arg in
  (r, set_session_ s (emit (Session_LaunchTool mode arg) e)).

(** *** Constants of the translation unit *)

Definition kBadCandidateId : Z := -1.
Definition kMozcSectionName : string := "engine/Mozc".
Definition kMozcToolIconPath : string := "tool.png".
Definition kSyncDataInterval : Z := 5 * 60.

(** [static_cast<uint64>(time(NULL))]; the reading of the clock is an
    argument of the operations that look at it. *)
Definition GetTime (time_NULL : Z) : Z := wrap_uint64 time_NULL.

(** *** Running an operation

    [UpdateAll] can re-enter itself through [UpdateCompositionMode],
    [PropertyActivate] and [SetCompositionMode], as deep as the session's
    replies drive it.  An operation therefore either completes ([Done]) or
    is cut when the nesting exceeds the allowed depth ([Cut]); both carry
    the engine, so the calls made so far are never lost. *)

Inductive Run (A : Type) :=
| Done (a : A) (e : MozcEngine)
| Cut (e : MozcEngine).
Arguments Done {A} a e.
Arguments Cut {A} e.

Definition M (A : Type) : Type := MozcEngine -> Run A.

Definition ret {A} (a : A) : M A := fun e => Done a e.

Definition bind {A B} (m : M A) (k : A -> M B) : M B :=
  fun e => match m e with
           | Done a e' => k a e'
           | Cut e' => Cut e'
           end.

Definition lift (f : MozcEngine -> MozcEngine) : M unit :=
  fun e => Done tt (f e).

Definition call {A} (f : MozcEngine -> A * MozcEngine) : M A :=
  fun e => let '(a, e') := f e in Done a e'.

Definition engine_of {A} (r : Run A) : MozcEngine :=
  match r with
  | Done _ e => e
  | Cut e => e
  end.

Definition completed {A} (r : Run A) : bool :=
  match r with
  | Done _ _ => true
  | Cut _ => false
  end.

Notation "x <- m ;; k" := (bind m (fun x => k))
  (at level 61, m at next level, right associativity).
Notation "m ;;; k" := (bind m (fun _ => k))
  (at level 61, right associativity).

(** *** Constructor *)

Definition new_radio_item (entry : MozcEngineProperty.t) : RadioItem :=
  {| radio_key := MozcEngineProperty.key entry;
     radio_state :=
       if CompositionMode_eqb (MozcEngineProperty.composition_mode entry)
            kMozcEngineInitialCompositionMode
       then PROP_STATE_CHECKED else PROP_STATE_UNCHECKED;
     radio_entry := Some entry |}.

Fixpoint icon_path_for_panel (entries : list MozcEngineProperty.t) (acc : string)
  : string :=
  match entries with
  | [] => acc
  | entry :: rest =>
      icon_path_for_panel rest
        (if CompositionMode_eqb (MozcEngineProperty.composition_mode entry)
              kMozcEngineInitialCompositionMode
         then GetIconPath (MozcEngineProperty.icon entry) else acc)
  end.

Definition new_tool_item (entry : MozcEngineToolProperty.t) : ToolItem :=
  {| tool_key := MozcEngineToolProperty.mode entry; tool_entry := entry |}.

Definition MozcEngine_new (time_NULL : Z) (session : Sess) : MozcEngine :=
  {| last_sync_time_ := GetTime time_NULL;
     session_ := session;
     prop_composition_mode_ :=
       {| menu_icon := icon_path_for_panel kMozcEngineProperties "";
          sub_props := map new_radio_item kMozcEngineProperties |};
     prop_mozc_tool_ :=
       if negb OS_CHROMEOS && IsMozcToolAvailable
       then Some {| tool_icon := GetIconPath kMozcToolIconPath;
                    tool_sub_props := map new_tool_item kMozcEngineToolProperties |}
       else None;
     current_composition_mode_ := kMozcEngineInitialCompositionMode;
     preedit_method_ := config.ROMAN;
     unique_candidate_ids_ := [];
     log := [] |}.

(** *** Applying an [Output] to the host UI *)

Definition UpdateResult (output : Output) (e : MozcEngine) : MozcEngine :=
  match result output with
  | None => e
  | Some v => emit (ibus_engine_commit_text (ibus_text_new_from_string v)) e
  end.

Definition UpdatePreedit (output : Output) (e : MozcEngine) : MozcEngine :=
  match preedit output with
  | None => emit ibus_engine_hide_preedit_text e
  | Some p =>
      emit (ibus_engine_update_preedit_text
              (ComposePreeditText p) (CursorPos output) true) e
  end.

(** The scan for the focused row: the last [i] whose candidate carries the
    focused index. *)
Fixpoint scan_cursor_pos (focused : Z) (cs : list Candidate) (i cursor_pos_ : Z)
  : Z :=
  match cs with
  | [] => cursor_pos_
  | c :: rest =>
      scan_cursor_pos focused rest (i + 1)
        (if focused =? index c then i else cursor_pos_)
  end.

Definition candidate_label (c : Candidate) : IBusText :=
  ibus_text_new_from_string
    match candidate_annotation c with
    | Some a => match shortcut a with
                | Some s => s
                | None => ""
                end
    | None => ""
    end.

Definition kPageSize : Z := 9.
Definition kRound : bool := true.

(** The last loop of [UpdateCandidates]: one [push_back] per candidate. *)
Fixpoint push_candidate_ids (cs : list Candidate) (ids : list Z) : list Z :=
  match cs with
  | [] => ids
  | c :: rest =>
      push_candidate_ids rest
        (ids ++ [match candidate_id c with
                 | Some id_ => id_
                 | None => kBadCandidateId
                 end])
  end.

Definition UpdateCandidates (output : Output) (e : MozcEngine) : MozcEngine :=
  let e := set_unique_candidate_ids_ [] e in
  match candidates output with
  | None =>
      let e := emit ibus_engine_hide_auxiliary_text e in
      emit ibus_engine_hide_lookup_table e
  | Some cands =>
      let cursor_visible_ :=
        match focused_index cands with Some _ => true | None => false end in
      let cursor_pos_ :=
        match focused_index cands with
        | Some f => scan_cursor_pos f (candidate cands) 0 0
        | None => 0
        end in
      let table :=
        {| page_size := kPageSize;
           cursor_pos := cursor_pos_;
           cursor_visible := cursor_visible_;
           round := kRound;
           orientation_vertical := IBUS_CHECK_VERSION_1_3_0;
           table_candidates :=
             map (fun c => ibus_text_new_from_string (candidate_value c))
                 (candidate cands);
           table_labels := map candidate_label (candidate cands) |} in
      let e := emit (ibus_engine_update_lookup_table table true) e in
      let e :=
        match focused_index cands with
        | Some _ =>
            emit (ibus_engine_update_auxiliary_text
                    (ComposeAuxiliaryText cands) true) e
        | None => emit ibus_engine_hide_auxiliary_text e
        end in
      set_unique_candidate_ids_
        (push_candidate_ids (candidate cands) (unique_candidate_ids_ e)) e
  end.

(** *** Property tree updates *)

Definition ibus_property_set_icon (path : string) (e : MozcEngine) : MozcEngine :=
  set_prop_composition_mode_
    {| menu_icon := path; sub_props := sub_props (prop_composition_mode_ e) |} e.

Fixpoint set_nth_state (i : nat) (st : IBusPropState) (items : list RadioItem)
  : list RadioItem :=
  match items, i with
  | [], _ => []
  | p :: rest, O =>
      {| radio_key := radio_key p; radio_state := st;
         radio_entry := radio_entry p |} :: rest
  | p :: rest, S i' => p :: set_nth_state i' st rest
  end.

(** [ibus_property_set_state] on the [i]-th item of the radio menu. *)
Definition ibus_property_set_state (i : nat) (st : IBusPropState) (e : MozcEngine)
  : MozcEngine :=
  set_prop_composition_mode_
    {| menu_icon := menu_icon (prop_composition_mode_ e);
       sub_props := set_nth_state i st (sub_props (prop_composition_mode_ e)) |} e.

(** *** The re-entrant core

    [UpdateAll] calls [UpdateCompositionMode], which calls
    [PropertyActivate], which calls [SetCompositionMode], which calls
    [UpdateAll].  The three callers are written over the [UpdateAll] they
    call; the knot is tied below. *)

Section Reentrant.
Variable UpdateAll_rec : Output -> M unit.

Definition SetCompositionMode_ (composition_mode : CompositionMode) : M unit :=
  if CompositionMode_eqb composition_mode DIRECT then
    (* Commit a preedit string. *)
    r <- call (session_SendCommand
                 {| type := SUBMIT; id := None;
                    commands.composition_mode := None |}) ;;
    UpdateAll_rec (snd r) ;;;
    lift (set_current_composition_mode_ composition_mode)
  else
    call (session_SendCommand
            {| type := SWITCH_INPUT_MODE; id := None;
               commands.composition_mode := Some composition_mode |}) ;;;
    lift (set_current_composition_mode_ composition_mode).

(** The loop over the radio menu.  [i] is the loop index; each turn reads
    the [i]-th item from the current state of the menu and stops at its
    end.  [n] bounds the number of turns and is the length of the menu,
    which no operation changes. *)
Fixpoint radio_loop (n i : nat) (property_name : string) : M unit :=
  match n with
  | O => ret tt
  | S n' =>
      fun e =>
        match nth_error (sub_props (prop_composition_mode_ e)) i with
        | None => ret tt
        | Some prop =>
            (if String.eqb property_name (radio_key prop) then
               match radio_entry prop with
               | Some entry =>
                   (* Update Mozc state. *)
                   SetCompositionMode_
                     (MozcEngineProperty.composition_mode entry) ;;;
                   (* Update the language panel. *)
                   lift (ibus_property_set_icon
                           (GetIconPath (MozcEngineProperty.icon entry)))
               | None => ret tt
               end ;;;
               (* Update the radio menu item. *)
               lift (ibus_property_set_state i PROP_STATE_CHECKED)
             else
               lift (ibus_property_set_state i PROP_STATE_UNCHECKED)) ;;;
            radio_loop n' (S i) property_name
        end e
  end.

(** The loop over the tool menu leaves at the first item with the key. *)
Definition find_tool_item (property_name : string) (items : list ToolItem)
  : option ToolItem :=
  find (fun prop => String.eqb property_name (tool_key prop)) items.

Definition PropertyActivate_
    (property_name : string) (property_state : IBusPropState) : M unit :=
  fun e =>
    let tool_hit :=
      if OS_CHROMEOS then None
      else match prop_mozc_tool_ e with
           | Some tool => find_tool_item property_name (tool_sub_props tool)
           | None => None
           end in
    match tool_hit with
    | Some prop =>
        let mode_ := MozcEngineToolProperty.mode (tool_entry prop) in
        let '(ok, e) := session_LaunchTool mode_ "" e in
        Done tt (if ok then e
                 else emit (LOG_ERROR ("cannot launch: " ++ mode_)%string) e)
    | None =>
        if negb (IBusPropState_eqb property_state PROP_STATE_CHECKED) then
          Done tt e
        else
          (radio_loop (List.length (sub_props (prop_composition_mode_ e))) 0
                      property_name ;;;
           fun e => Done tt (emit (ibus_engine_update_property
                                     (prop_composition_mode_ e)) e)) e
    end.

Fixpoint activate_entries_with_mode
    (entries : list MozcEngineProperty.t) (new_composition_mode : CompositionMode)
  : M unit :=
  match entries with
  | [] => ret tt
  | entry :: rest =>
      (if CompositionMode_eqb (MozcEngineProperty.composition_mode entry)
            new_composition_mode
       then PropertyActivate_ (MozcEngineProperty.key entry) PROP_STATE_CHECKED
       else ret tt) ;;;
      activate_entries_with_mode rest new_composition_mode
  end.

Definition UpdateCompositionMode_ (output : Output) : M unit :=
  fun e =>
    match mode output with
    | None => Done tt e
    | Some new_composition_mode =>
        if CompositionMode_eqb (current_composition_mode_ e)
             new_composition_mode
        then Done tt e
        else activate_entries_with_mode
               kMozcEngineProperties new_composition_mode e
    end.

Definition UpdateAll_ (output : Output) : M unit :=
  lift (UpdateResult output) ;;;
  lift (UpdatePreedit output) ;;;
  lift (UpdateCandidates output) ;;;
  UpdateCompositionMode_ output.
End Reentrant.

(** [depth] bounds the nesting of [UpdateAll] within itself. *)
Fixpoint UpdateAll (depth : nat) (output : Output) : M unit :=
  match depth with
  | O => fun e => Cut e
  | S d => UpdateAll_ (UpdateAll d) output
  end.

Definition SetCompositionMode (depth : nat) := SetCompositionMode_ (UpdateAll depth).
Definition PropertyActivate (depth : nat) := PropertyActivate_ (UpdateAll depth).
Definition UpdateCompositionMode (depth : nat) :=
  UpdateCompositionMode_ (UpdateAll depth).

(** *** Host callbacks *)

Definition RevertSession (depth : nat) : M unit :=
  r <- call (session_SendCommand
               {| type := REVERT; id := None; commands.composition_mode := None |}) ;;
  if fst r then UpdateAll depth (snd r)
  else lift (emit (LOG_ERROR "RevertSession() failed")).

Definition CandidateClicked (depth : nat) (index_ button state : Z) : M unit :=
  fun e =>
    if Z.of_nat (List.length (unique_candidate_ids_ e)) <=? index_ then Done tt e
    else
      let id_ := nth (Z.to_nat index_) (unique_candidate_ids_ e) 0 in
      if id_ =? kBadCandidateId then Done tt e
      else
        (r <- call (session_SendCommand
                      {| type := SELECT_CANDIDATE; id := Some id_;
                         commands.composition_mode := None |}) ;;
         UpdateAll depth (snd r)) e.

Definition UpdatePreeditMethod (e : MozcEngine) : MozcEngine :=
  let '(r, e) := session_GetConfig e in
  match r with
  | None => emit (LOG_ERROR "GetConfig failed") e
  | Some config_ =>
      set_preedit_method_
        match preedit_method config_ with
        | Some m => m
        | None => config.ROMAN
        end e
  end.

Definition Disable (depth : nat) : M unit := RevertSession depth.

Definition Enable (depth : nat) : M unit :=
  call session_EnsureConnection ;;;
  lift UpdatePreeditMethod ;;;
  RevertSession depth.

Definition FocusIn : M unit :=
  fun e => Done tt (emit (ibus_engine_register_properties
                            (prop_composition_mode_ e) (prop_mozc_tool_ e)) e).

Definition SyncData (force : bool) (time_NULL : Z) (e : MozcEngine) : MozcEngine :=
  let current_time := GetTime time_NULL in
  if force ||
     ((last_sync_time_ e <=? current_time) &&
      (kSyncDataInterval <=? wrap_uint64 (current_time - last_sync_time_ e)))
  then set_last_sync_time_ current_time (session_SyncData e)
  else e.

Definition FocusOut (depth : nat) (time_NULL : Z) : M unit :=
  RevertSession depth ;;;
  lift (SyncData false time_NULL).

Definition Reset (depth : nat) : M unit := RevertSession depth.

(** [~MozcEngine]; releasing the property objects leaves no trace here. *)
Definition MozcEngine_delete (time_NULL : Z) (e : MozcEngine) : MozcEngine :=
  SyncData true time_NULL e.

Definition SetCapabilities (capabilities : Z) : M unit := ret tt.
Definition SetCursorLocation (x y w h : Z) : M unit := ret tt.

(** [engine_name] is [ibus_engine_get_name(engine)]. *)
Definition ProcessKeyEvent
    (depth : nat) (engine_name : string) (keyval keycode modifiers : Z) : M bool :=
  if negb (Z.land modifiers IBUS_RELEASE_MASK =? 0) then ret false
  else
    (if OS_CHROMEOS then lift UpdatePreeditMethod else ret tt) ;;;
    fun e =>
      let layout_is_jp := String.eqb engine_name "mozc-jp" in
      let e := emit (KeyTranslator_Translate keyval keycode modifiers
                       (preedit_method_ e) layout_is_jp) e in
      match Translate keyval keycode modifiers (preedit_method_ e) layout_is_jp with
      | None => Done false (emit (LOG_ERROR "Translate failed") e)
      | Some key =>
          if CompositionMode_eqb (current_composition_mode_ e) DIRECT &&
             (* We DO consume keys that enable Mozc such as Henkan even when
                in the DIRECT mode. *)
             negb (IsTurnOnInDirectMode key)
          then Done false e
          else
            let '((ok, output), e) := session_SendKey key e in
            if negb ok then Done false (emit (LOG_ERROR "SendKey failed") e)
            else
              (UpdateAll depth output ;;;
               ret (consumed output)) e
      end.

(** *** Configuration pushed by the host *)

Definition UpdateConfig
    (section name : option string) (gvalue : option GValue) (e : MozcEngine)
  : MozcEngine :=
  if negb OS_CHROMEOS then e
  else
    match section, name, gvalue with
    | Some section, Some name, Some gvalue =>
        if negb (String.eqb section kMozcSectionName) then e
        else
          let mozc_config := new_Config in
          match FindFieldByName name with
          | None => emit (LOG_ERROR ("Unknown config name: " ++ name)%string) e
          | Some field_to_update =>
              let updated : Config + string :=
                match cpp_type field_to_update with
                | CPPTYPE_ENUM =>
                    match gvalue with
                    | G_TYPE_STRING string_value =>
                        match FindEnumValueByName string_value with
                        | None =>
                            inr ("Bad GValue value for " ++ name ++ ": "
                                 ++ string_value)%string
                        | Some enum_value =>
                            inl (SetEnum mozc_config field_to_update enum_value)
                        end
                    | _ => inr ("Bad GValue type for " ++ name)%string
                    end
                | CPPTYPE_UINT32 =>
                    match gvalue with
                    | G_TYPE_INT int_value =>
                        inl (SetUInt32 mozc_config field_to_update
                                       (wrap_uint32 int_value))
                    | _ => inr ("Bad GValue type for " ++ name)%string
                    end
                | CPPTYPE_BOOL =>
                    match gvalue with
                    | G_TYPE_BOOLEAN boolean_value =>
                        inl (SetBool mozc_config field_to_update boolean_value)
                    | _ => inr ("Bad GValue type for " ++ name)%string
                    end
                | _ => inr ("Unknown or unsupported type: " ++ name)%string
                end in
              match updated with
              | inr message => emit (LOG_ERROR message) e
              | inl mozc_config =>
                  (* Update config1.db. *)
                  let '(_, e) := session_SetConfig mozc_config e in
                  session_SyncData e
              end
          end
    | _, _, _ => e
    end.

(** [ConfigValueChanged]: the entry point of the notification. *)
Definition ConfigValueChanged
    (section name : option string) (gvalue : option GValue) (e : MozcEngine)
  : MozcEngine :=
  if OS_CHROMEOS then UpdateConfig section name gvalue e else e.

End Engine.

Arguments Done {_ _} {A} a e.
Arguments Cut {_ _} {A} e.
Arguments MozcEngine {_} Sess.
Arguments M {_} Sess A.

(** The host callbacks as data, to speak of sequences of them. *)
Inductive HostCall :=
| CallEnable
| CallDisable
| CallFocusIn
| CallFocusOut (time_NULL : Z)
| CallReset
| CallProcessKeyEvent (engine_name : string) (keyval keycode modifiers : Z)
| CallCandidateClicked (index_ button state : Z)
| CallPropertyActivate (property_name : string) (property_state : IBusPropState)
| CallSetCursorLocation (x y w h : Z)
| CallSetCapabilities (capabilities : Z)
| CallConfigValueChanged (section name : option string) (gvalue : option GValue).

Section Dispatch.
Context {build : Build} {schema : ConfigSchema} {linked : Collaborators}.
Context {Sess : Type} {session : client.Session Sess}.

Definition dispatch (depth : nat) (c : HostCall) (e : MozcEngine Sess) : MozcEngine Sess :=
  match c with
  | CallEnable => engine_of (Enable depth e)
  | CallDisable => engine_of (Disable depth e)
  | CallFocusIn => engine_of (FocusIn e)
  | CallFocusOut t => engine_of (FocusOut depth t e)
  | CallReset => engine_of (Reset depth e)
  | CallProcessKeyEvent n kv kc m => engine_of (ProcessKeyEvent depth n kv kc m e)
  | CallCandidateClicked i b s => engine_of (CandidateClicked depth i b s e)
  | CallPropertyActivate n s => engine_of (PropertyActivate depth n s e)
  | CallSetCursorLocation x y w h => engine_of (SetCursorLocation x y w h e)
  | CallSetCapabilities c => engine_of (SetCapabilities c e)
  | CallConfigValueChanged s n v => ConfigValueChanged s n v e
  end.

Definition run_calls (depth : nat) (calls : list HostCall) (e : MozcEngine Sess)
  : MozcEngine Sess :=
  fold_left (fun e c => dispatch depth c e) calls e.
End Dispatch.

(** ** The quality harness ([client/client_quality_test_main.cc]) *)

Module quality.

(** [base/util.h] and [evaluation/scorer.h], as the harness uses them.
    [Chars32] is the sequence a [ConstChar32Iterator] walks through. *)
Class Util := {
  HiraganaToRomanji : string -> string;
  FullWidthToHalfWidth : string -> string;
  Chars32 : string -> list Z;
  ContainsAlphabet : string -> bool;
  ContainsKanji : string -> bool;
  ContainsKatakana : string -> bool;
  StringReplace : string -> string -> string -> bool -> string
}.

Class Scorer := {
  Score : Type;
  NormalizeForEvaluate : string -> string;
  BLEUScore : list string -> string -> Score
}.

(** [client::Client], as the harness uses it. *)
Class Client (C : Type) := {
  SendKey : C -> KeyEvent -> (bool * Output) * C;
  SendCommand : C -> SessionCommand -> (bool * Output) * C
}.

(** What [main] asks of [client::Client] before its first loop; each call
    returns its result with the next state of the client. *)
Class Startup (C : Type) := {
  set_server_program : C -> string -> C;
  IsValidRunLevel : C -> bool * C;
  EnsureSession : C -> bool * C;
  NoOperation : C -> bool * C
}.



(** The arithmetic on [double] that [CalculateMean] uses: the sum computed by
    [std::accumulate] from 0.0 and the division by a count. *)
Class Doubles {scorer : Scorer} := {
  accumulate : list Score -> Score;
  divide : Score -> Z -> Score
}.

Inductive Event `{Scorer} :=
| Client_SendKey (key : KeyEvent)
| Client_SendCommand (command : SessionCommand)
| Scorer_NormalizeForEvaluate (input : string)
| Scorer_BLEUScore (goldens : list string) (hypothesis : string)
| LOG_WARNING (message : string).

Section Harness.
Context `{Util} `{Scorer} {C : Type} `{!Client C}.
Context {doubles : Doubles}.
Context {starting : Startup C}.

Record World := {
  client_ : C;
  trace : list Event
}.

Definition note (ev : Event) (w : World) : World :=
  {| client_ := client_ w; trace := trace w ++ [ev] |}.

Definition client_SendKey (key : KeyEvent) (w : World) : Output * World :=
  let '((_, output), c) := SendKey (client_ w) key in
  (output, {| client_ := c; trace := trace w ++ [Client_SendKey key] |}).

Definition client_SendCommand (command : SessionCommand) (w : World)
  : Output * World :=
  let '((_, output), c) := SendCommand (client_ w) command in
  (output, {| client_ := c; trace := trace w ++ [Client_SendCommand command] |}).

Definition IsValidSourceSentence (str : string) : bool :=
  if ContainsAlphabet str then false
  else if ContainsKanji str then false
  else
    let tmp := StringReplace str "ー" "" true in
    let tmp2 := StringReplace tmp "・" "" true in
    if ContainsKatakana tmp2 then false else true.

Definition key_of_code (code : Z) : KeyEvent :=
  {| key_code := Some code; special_key := None |}.

Definition key_of_special (k : SpecialKey) : KeyEvent :=
  {| key_code := None; special_key := Some k |}.

(** The body of the loop of [GenerateKeySequenceFrom]. *)
Definition key_for_ucs4 (ucs4 : Z) : option KeyEvent :=
  if (0x20 <=? ucs4) && (ucs4 <=? 0x7F) then Some (key_of_code ucs4)
  else if (ucs4 =? 0x3001) || (ucs4 =? 0xFF64) then Some (key_of_code 0x002C)
  else if (ucs4 =? 0x3002) || (ucs4 =? 0xFF0E) || (ucs4 =? 0xFF61)
       then Some (key_of_code 0x002E)
  else if (ucs4 =? 0x2212) || (ucs4 =? 0x2015) then Some (key_of_code 0x002D)
  else if (ucs4 =? 0x300C) || (ucs4 =? 0xff62) then Some (key_of_code 0x005B)
  else if (ucs4 =? 0x300D) || (ucs4 =? 0xff63) then Some (key_of_code 0x005D)
  else if (ucs4 =? 0x30FB) || (ucs4 =? 0xFF65) then Some (key_of_code 0x002F)
  else None.

Fixpoint keys_for (chars : list Z) (keys : list KeyEvent)
  : option (list KeyEvent) :=
  match chars with
  | [] => Some keys
  | ucs4 :: rest =>
      match key_for_ucs4 ucs4 with
      | Some key => keys_for rest (keys ++ [key])
      | None => None
      end
  end.

Definition GenerateKeySequenceFrom (hiragana_sentence : string)
  : option (list KeyEvent) :=
  let tmp := HiraganaToRomanji hiragana_sentence in
  let input := FullWidthToHalfWidth tmp in
  match keys_for (Chars32 input) [] with
  | None => None
  | Some keys => Some (keys ++ [key_of_special SPACE])   (* Conversion key *)
  end.

Definition GetPreedit (output : Output) : option string :=
  match preedit output with
  | None => None
  | Some p => Some (preedit_data (segment p))
  end.

(** [for (i...) client->SendKey(keys[i], &output)]: the same [output] is
    overwritten by every reply. *)
Fixpoint send_keys (keys : list KeyEvent) (output : Output) (w : World)
  : Output * World :=
  match keys with
  | [] => (output, w)
  | key :: rest =>
      let '(output, w) := client_SendKey key w in
      send_keys rest output w
  end.

Definition is_empty (s : string) : bool :=
  match s with EmptyString => true | _ => false end.

Definition CalculateBLEU
    (hiragana_sentence expected_result : string) (w : World)
  : option Score * World :=
  (* Prepare key events *)
  match GenerateKeySequenceFrom hiragana_sentence with
  | None =>
      (None, note (LOG_WARNING ("Failed to generated key events from: "
                                ++ hiragana_sentence)%string) w)
  | Some keys =>
      (* Must send ON first *)
      let '(output, w) := client_SendKey (key_of_special ON) w in
      (* Send keys *)
      let '(output, w) := send_keys keys output w in
      (* Calculate score *)
      let w := note (Scorer_NormalizeForEvaluate expected_result) w in
      let expected_normalized := NormalizeForEvaluate expected_result in
      let goldens := [expected_normalized] in
      match GetPreedit output with
      | None =>
          (None, note (LOG_WARNING "Could not get output")
                      (note (LOG_WARNING "No result") w))
      | Some preedit_ =>
          if is_empty preedit_ then
            (None, note (LOG_WARNING "Could not get output") w)
          else
            let w := note (Scorer_NormalizeForEvaluate preedit_) w in
            let preedit_normalized := NormalizeForEvaluate preedit_ in
            let w := note (Scorer_BLEUScore goldens preedit_normalized) w in
            let score := BLEUScore goldens preedit_normalized in
            (* Revert session to prevent server from learning this
               conversion *)
            let '(_, w) :=
              client_SendCommand
                {| type := REVERT; id := None;
                   commands.composition_mode := None |} w in
            (Some score, w)
      end
  end.

Record TestCase := {
  source : string;
  hiragana_sentence_ : string;
  expected_result_ : string
}.

(** [std::map<std::string, std::vector<double>> scores], as an
    association list. *)
Definition Scores : Type := list (string * list Score).

Fixpoint scores_find (source_ : string) (scores : Scores) : option (list Score) :=
  match scores with
  | [] => None
  | (k, v) :: rest =>
      if String.eqb k source_ then Some v else scores_find source_ rest
  end.

Fixpoint scores_set (source_ : string) (v : list Score) (scores : Scores)
  : Scores :=
  match scores with
  | [] => [(source_, v)]
  | (k, v') :: rest =>
      if String.eqb k source_ then (k, v) :: rest
      else (k, v') :: scores_set source_ v rest
  end.

(** One turn of the loop of [main] over [test_cases]. *)
Definition run_test_case
    (max_case_for_source : Z) (test_case : TestCase) (st : Scores * World)
  : Scores * World :=
  let '(scores, w) := st in
  let scores :=
    match scores_find (source test_case) scores with
    | None => scores_set (source test_case) [] scores
    | Some _ => scores
    end in
  let current :=
    match scores_find (source test_case) scores with
    | Some v => v
    | None => []
    end in
  (* [size() >= flag]: the [int32] flag is converted to [size_t]. *)
  if wrap_uint64 max_case_for_source <=? Z.of_nat (List.length current)
  then (scores, w)
  else if negb (IsValidSourceSentence (hiragana_sentence_ test_case)) then
    (scores, note (LOG_WARNING "Invalid test case: ") w)
  else
    match CalculateBLEU (hiragana_sentence_ test_case)
                        (expected_result_ test_case) w with
    | (None, w) =>
        (scores, note (LOG_WARNING "Failed to calculate BLEU score: ") w)
    | (Some score, w) =>
        (scores_set (source test_case) (current ++ [score]) scores, w)
    end.

Definition run_test_cases
    (max_case_for_source : Z) (test_cases : list TestCase) (st : Scores * World)
  : Scores * World :=
  fold_left (fun st test_case => run_test_case max_case_for_source test_case st)
            test_cases st.

(** [CalculateMean]; [None] stands for the failure of [CHECK(!scores.empty())],
    which ends the program. *)
Definition CalculateMean (scores : list Score) : option Score :=
  match scores with
  | [] => None
  | _ => Some (divide (accumulate scores) (Z.of_nat (List.length scores)))
  end.

(** The iteration order of [std::map<std::string, ...>]: ascending keys. *)
Fixpoint insert_by_key (kv : string * list Score) (l : Scores) : Scores :=
  match l with
  | [] => [kv]
  | kv' :: rest =>
      if String.leb (fst kv) (fst kv') then kv :: l
      else kv' :: insert_by_key kv rest
  end.

Definition map_order (scores : Scores) : Scores :=
  fold_right insert_by_key [] scores.

(** The last loop of [main]: one line "source : mean" per entry of the map.
    The result is the list of lines written and whether the loop came to its
    end. *)
Fixpoint write_means (entries : Scores) (written : list (string * Score))
  : list (string * Score) * bool :=
  match entries with
  | [] => (written, true)
  | (source_, v) :: rest =>
      match CalculateMean v with
      | None => (written, false)
      | Some mean => write_means rest (written ++ [(source_, mean)])
      end
  end.

Definition report (scores : Scores) : list (string * Score) * bool :=
  write_means (map_order scores) [].

(** An entry of the map with at least one score, and the line written for
    it. *)
Definition has_scores (kv : string * list Score) : bool :=
  match snd kv with [] => false | _ => true end.

Definition mean_line (kv : string * list Score) : string * Score :=
  (fst kv, divide (accumulate (snd kv)) (Z.of_nat (List.length (snd kv)))).

(** The order of the keys of [std::map<std::string, ...>]: [std::less] on
    [std::string], the lexicographic order of the bytes. *)
Definition key_le (a b : string * list Score) : Prop :=
  String.leb (fst a) (fst b) = true.

(** The entries before the first one without score. *)
Fixpoint scored_prefix (entries : Scores) : Scores :=
  match entries with
  | [] => []
  | kv :: rest => if has_scores kv then kv :: scored_prefix rest else []
  end.





Definition is_client_call (ev : Event) : bool :=
  match ev with
  | Client_SendKey _ | Client_SendCommand _ => true
  | _ => false
  end.

(** The calls to the client among the events [tr], in order. *)
Definition client_calls (tr : list Event) : list Event := filter is_client_call tr.

(** A key that types a printable ASCII character. *)
Definition is_printable_key (k : KeyEvent) : bool :=
  match key_code k, special_key k with
  | Some code, None => (0x20 <=? code) && (code <=? 0x7F)
  | _, _ => false
  end.

(** The strings handed to the scorer for normalisation, in order. *)
Definition normalized_inputs (tr : list Event) : list string :=
  flat_map (fun ev => match ev with
                      | Scorer_NormalizeForEvaluate s => [s]
                      | _ => []
                      end) tr.
End Harness.
End quality.

(** ** The Qt renderer ([renderer/qt/qt_renderer.cc]) *)

Module renderer.

(** [commands::RendererCommand::CommandType]; [OtherType] stands for any
    value the [switch] sends to its [default] branch. *)
Inductive CommandType := NOOP | UPDATE | SHUTDOWN | OtherType (n : Z).

Record RendererCommand := {
  type : CommandType;
  visible : bool;
  output : option Output
}.

(** [QtWindowManagerInterface]: each call returns its result with the next
    state of the window manager. *)
Class QtWindowManagerInterface (W : Type) := {
  ReceiverLoopFunc : Type;
  SendCommandInterface : Type;
  StartRendererLoop : W -> Z -> list string -> Z * W;
  SetReceiverLoopFunction : W -> ReceiverLoopFunc -> W;
  Activate : W -> bool * W;
  IsAvailable : W -> bool;
  HideAllWindows : W -> W;
  UpdateLayout : W -> RendererCommand -> W;
  Initialize : W -> W;
  SetSendCommandInterface : W -> SendCommandInterface -> W
}.

Inductive Event :=
| WindowManager_StartRendererLoop
| WindowManager_SetReceiverLoopFunction
| WindowManager_Activate
| WindowManager_IsAvailable
| WindowManager_HideAllWindows
| WindowManager_UpdateLayout (command : RendererCommand)
| WindowManager_Initialize
| WindowManager_SetSendCommandInterface
| DLOG_ERROR (message : string)
| LOG_WARNING (message : string).

Definition is_window_manager_call (ev : Event) : bool :=
  match ev with
  | DLOG_ERROR _ | LOG_WARNING _ => false
  | _ => true
  end.

Section QtRenderer.
Context {W : Type} {manager : QtWindowManagerInterface W}.

(** The renderer holds its window manager; [calls] records what it asked of
    it and what it logged. *)
Record QtRenderer := {
  window_manager_ : W;
  calls : list Event
}.

Definition QtRenderer_new (window_manager : W) : QtRenderer :=
  {| window_manager_ := window_manager; calls := [] |}.

Definition asked (ev : Event) (w : W) (r : QtRenderer) : QtRenderer :=
  {| window_manager_ := w; calls := calls r ++ [ev] |}.

Definition logged (ev : Event) (r : QtRenderer) : QtRenderer :=
  {| window_manager_ := window_manager_ r; calls := calls r ++ [ev] |}.

Definition QtRenderer_StartRendererLoop (argc : Z) (argv : list string)
    (r : QtRenderer) : Z * QtRenderer :=
  let '(code, w) := StartRendererLoop (window_manager_ r) argc argv in
  (code, asked WindowManager_StartRendererLoop w r).

Definition QtRenderer_SetReceiverLoopFunction (func : ReceiverLoopFunc)
    (r : QtRenderer) : QtRenderer :=
  asked WindowManager_SetReceiverLoopFunction
        (SetReceiverLoopFunction (window_manager_ r) func) r.

Definition QtRenderer_Activate (r : QtRenderer) : bool * QtRenderer :=
  let '(ok, w) := Activate (window_manager_ r) in
  (ok, asked WindowManager_Activate w r).

Definition QtRenderer_IsAvailable (r : QtRenderer) : bool * QtRenderer :=
  (IsAvailable (window_manager_ r),
   asked WindowManager_IsAvailable (window_manager_ r) r).

Definition ExecCommand (command : RendererCommand) (r : QtRenderer)
  : bool * QtRenderer :=
  match type command with
  | NOOP => (true, r)
  | SHUTDOWN =>
      (false, logged (DLOG_ERROR "Shutdown command is not implemented.") r)
  | UPDATE =>
      if negb (visible command) then
        (true, asked WindowManager_HideAllWindows
                     (HideAllWindows (window_manager_ r)) r)
      else
        (true, asked (WindowManager_UpdateLayout command)
                     (UpdateLayout (window_manager_ r) command) r)
  | OtherType _ => (true, logged (LOG_WARNING "Unknown command: ") r)
  end.

Definition QtRenderer_Initialize (r : QtRenderer) : QtRenderer :=
  asked WindowManager_Initialize (Initialize (window_manager_ r)) r.

Definition QtRenderer_SetSendCommandInterface
    (send_command_interface : SendCommandInterface) (r : QtRenderer) : QtRenderer :=
  asked WindowManager_SetSendCommandInterface
        (SetSendCommandInterface (window_manager_ r) send_command_interface) r.

(** A sequence of commands, each executed on the renderer the previous one
    left; the results are returned in order. *)
Fixpoint exec_commands (commands_ : list RendererCommand) (r : QtRenderer)
  : list bool * QtRenderer :=
  match commands_ with
  | [] => ([], r)
  | command :: rest =>
      let '(ok, r) := ExecCommand command r in
      let '(oks, r) := exec_commands rest r in
      (ok :: oks, r)
  end.

(** What a command asks of the window manager, and the result of
    [ExecCommand] on it. *)
Definition window_calls (command : RendererCommand) : list Event :=
  match type command with
  | UPDATE =>
      [if visible command then WindowManager_UpdateLayout command
       else WindowManager_HideAllWindows]
  | _ => []
  end.

Definition accepted (command : RendererCommand) : bool :=
  match type command with
  | SHUTDOWN => false
  | _ => true
  end.

(** The window manager after a command. *)
Definition window_manager_after (w : W) (command : RendererCommand) : W :=
  match type command with
  | UPDATE => if visible command then UpdateLayout w command else HideAllWindows w
  | _ => w
  end.
End QtRenderer.
End renderer.

(** ** A small concrete system

    A build, a configuration schema, collaborators and a scripted session on
    which the operations can be run. *)

Module sample.

Definition linux : Build :=
  {| OS_CHROMEOS := false; IBUS_CHECK_VERSION_1_3_0 := true |}.

Definition chromeos : Build :=
  {| OS_CHROMEOS := true; IBUS_CHECK_VERSION_1_3_0 := true |}.

Inductive FieldValue :=
| EnumValue (name : string)
| UInt32Value (v : Z)
| BoolValue (b : bool).

Fixpoint assoc {A} (k : string) (l : list (string * A)) : option A :=
  match l with
  | [] => None
  | (k', v) :: rest => if String.eqb k k' then Some v else assoc k rest
  end.

Definition fields : list (string * CppType) :=
  [ ("preedit_method", CPPTYPE_ENUM);
    ("incognito_mode", CPPTYPE_BOOL);
    ("verbose_level", CPPTYPE_UINT32);
    ("custom_keymap_table", CPPTYPE_STRING) ].

Definition enum_values : list string := ["ROMAN"; "KANA"].

Definition schema : ConfigSchema :=
  {| Config := list (string * FieldValue);
     FieldDescriptor := string * CppType;
     EnumValueDescriptor := string;
     new_Config := [];
     preedit_method := fun c =>
       match assoc "preedit_method" c with
       | Some (EnumValue "ROMAN") => Some config.ROMAN
       | Some (EnumValue "KANA") => Some config.KANA
       | _ => None
       end;
     FindFieldByName := fun name =>
       match assoc name fields with
       | Some ty => Some (name, ty)
       | None => None
       end;
     FindEnumValueByName := fun name =>
       if existsb (String.eqb name) enum_values then Some name else None;
     cpp_type := snd;
     SetEnum := fun c f v => (fst f, EnumValue v) :: c;
     SetUInt32 := fun c f v => (fst f, UInt32Value v) :: c;
     SetBool := fun c f v => (fst f, BoolValue v) :: c |}.

(** A session that answers [SendKey] and [SendCommand] from a script, one
    reply per call, and fails once the script is used up. *)
Definition Script : Type := list (bool * Output).

Definition next_reply (s : Script) : (bool * Output) * Script :=
  match s with
  | [] => ((false, no_output), [])
  | r :: rest => (r, rest)
  end.

Definition session : @client.Session schema Script :=
  {| client.EnsureConnection := fun s => (true, s);
     client.SendKey := fun s _ => next_reply s;
     client.SendCommand := fun s _ => next_reply s;
     client.GetConfig := fun s =>
       (Some ([("preedit_method", EnumValue "KANA")] : @Config schema), s);
     client.SetConfig := fun s _ => (true, s);
     client.SyncData := fun s => s;
     client.LaunchTool := fun s _ _ => (true, s) |}.

Definition IBUS_Henkan : Z := 0xff23.

Definition collaborators : Collaborators :=
  {| Translate := fun keyval _ _ _ _ =>
       if (0x20 <=? keyval) && (keyval <=? 0x7e)
       then Some {| key_code := Some keyval; special_key := None |}
       else if keyval =? IBUS_Henkan
       then Some {| key_code := None; special_key := Some HENKAN |}
       else None;
     IsTurnOnInDirectMode := fun key =>
       match special_key key with
       | Some HENKAN => true
       | _ => false
       end;
     kMozcEngineProperties :=
       [ {| MozcEngineProperty.composition_mode := DIRECT;
            MozcEngineProperty.key := "CompositionMode.Direct";
            MozcEngineProperty.label := "Direct input";
            MozcEngineProperty.icon := "direct.png" |};
         {| MozcEngineProperty.composition_mode := HIRAGANA;
            MozcEngineProperty.key := "CompositionMode.Hiragana";
            MozcEngineProperty.label := "Hiragana";
            MozcEngineProperty.icon := "hiragana.png" |};
         {| MozcEngineProperty.composition_mode := FULL_KATAKANA;
            MozcEngineProperty.key := "CompositionMode.Katakana";
            MozcEngineProperty.label := "Katakana";
            MozcEngineProperty.icon := "katakana_full.png" |} ];
     kMozcEngineInitialCompositionMode := DIRECT;
     kMozcEngineToolProperties :=
       [ {| MozcEngineToolProperty.mode := "config_dialog";
            MozcEngineToolProperty.label := "Properties";
            MozcEngineToolProperty.icon := "properties.png" |} ];
     GetIconPath := fun icon => ("/usr/share/ibus-mozc/" ++ icon)%string;
     IsMozcToolAvailable := true |}.

Definition seg (a : Annotation) (v : string) : Segment :=
  {| annotation := a; value := v; value_length := chars_len v |}.

Definition preedit_ab_c : Preedit :=
  {| cursor := 3;
     segment := [seg HIGHLIGHT "ab"; seg UNDERLINE "c"];
     highlighted_position := Some 0 |}.

Definition cand (i : Z) (v : string) (id_ : option Z) : Candidate :=
  {| index := i; candidate_value := v; candidate_id := id_;
     candidate_annotation := None |}.

Definition candidates_3 : Candidates :=
  {| focused_index := Some 1; size := 3;
     candidate := [cand 0 "a" (Some 10); cand 1 "b" None; cand 2 "c" (Some 12)] |}.

Definition output_converting : Output :=
  {| result := None; preedit := Some preedit_ab_c;
     candidates := Some candidates_3; mode := Some HIRAGANA; consumed := true |}.

Definition output_committed : Output :=
  {| result := Some "abc"; preedit := None; candidates := None;
     mode := None; consumed := true |}.

(** The engine right after construction at time 1000, on each build. *)
Definition engine (b : Build) (script : Script) : MozcEngine Script :=
  @MozcEngine_new b schema collaborators Script 1000 script.

(** The constructed engine of the client/server build, in DIRECT mode. *)
Definition e_linux : MozcEngine Script := engine linux [].

(** The same on the in-process build. *)
Definition e_chromeos : MozcEngine Script := engine chromeos [].

(** The engine after Henkan was pressed and the session answered with a
    conversion that offers three candidates, the second without id. *)
Definition henkan_pressed : list HostCall :=
  [CallProcessKeyEvent "mozc-jp" IBUS_Henkan 100 0].

Definition e_converting : MozcEngine Script :=
  @run_calls linux schema collaborators Script session 2 henkan_pressed
             (engine linux [(true, output_converting); (true, no_output)]).

(** A session that answers every call with an output that announces the
    mode DIRECT, and its engine after the Hiragana item was activated. *)
Definition output_direct : Output :=
  {| result := None; preedit := None; candidates := None;
     mode := Some DIRECT; consumed := true |}.

Definition direct_session : @client.Session schema unit :=
  {| client.EnsureConnection := fun s => (true, s);
     client.SendKey := fun s _ => ((true, output_direct), s);
     client.SendCommand := fun s _ => ((true, output_direct), s);
     client.GetConfig := fun s => (None, s);
     client.SetConfig := fun s _ => (true, s);
     client.SyncData := fun s => s;
     client.LaunchTool := fun s _ _ => (true, s) |}.

Definition e_hiragana : MozcEngine unit :=
  engine_of
    (@PropertyActivate linux schema collaborators unit direct_session 1
       "CompositionMode.Hiragana" PROP_STATE_CHECKED
       (@MozcEngine_new linux schema collaborators unit 1000 tt)).

(** For the harness: readings in ASCII, a scorer that returns what it was
    given, and a client that answers from a script. *)
Definition util : quality.Util :=
  {| quality.HiraganaToRomanji := fun s => s;
     quality.FullWidthToHalfWidth := fun s => s;
     quality.Chars32 := fun s =>
       map (fun c => Z.of_nat (nat_of_ascii c)) (list_ascii_of_string s);
     quality.ContainsAlphabet := fun _ => false;
     quality.ContainsKanji := fun _ => false;
     quality.ContainsKatakana := fun _ => false;
     quality.StringReplace := fun s _ _ _ => s |}.

Definition scorer : quality.Scorer :=
  {| quality.Score := list string * string;
     quality.NormalizeForEvaluate := fun s => s;
     quality.BLEUScore := fun goldens hypothesis => (goldens, hypothesis) |}.

Definition scripted_client : quality.Client Script :=
  {| quality.SendKey := fun s _ => next_reply s;
     quality.SendCommand := fun s _ => next_reply s |}.

Definition output_composing : Output :=
  {| result := None;
     preedit := Some {| cursor := 1; segment := [seg UNDERLINE "a"];
                        highlighted_position := None |};
     candidates := None; mode := Some HIRAGANA; consumed := true |}.

(** The replies to ON, "a", SPACE and REVERT. *)
Definition conversion_script : Script :=
  [ (true, no_output); (true, output_composing); (true, output_converting);
    (true, no_output) ].

Definition ready_client : quality.Startup Script :=
  {| quality.set_server_program := fun c _ => c;
     quality.IsValidRunLevel := fun c => (true, c);
     quality.EnsureSession := fun c => (true, c);
     quality.NoOperation := fun c => (true, c) |}.

Definition first_score (scores : list (list string * string))
  : list string * string := hd ([], "") scores.

Definition doubles : @quality.Doubles scorer :=
  @quality.Build_Doubles scorer first_score (fun sum _ => sum).

Definition world (script : Script) : @quality.World scorer Script :=
  {| quality.client_ := script; quality.trace := [] |}.

End sample.

(** ** What the design document says, as definitions *)








(** The validation of a configuration update in the document's words: the
    field is found by name, and the value has the type the field declares (an
    enumeration name that resolves to an enum value, an integer for an
    unsigned integer field, a boolean for a boolean field).  The result is
    the working configuration with the value applied. *)
Definition validate_update {schema : ConfigSchema} (name : string) (gvalue : GValue)
  : option Config :=
  match FindFieldByName name with
  | None => None
  | Some field =>
      match cpp_type field, gvalue with
      | CPPTYPE_ENUM, G_TYPE_STRING s =>
          match FindEnumValueByName s with
          | Some v => Some (SetEnum new_Config field v)
          | None => None
          end
      | CPPTYPE_UINT32, G_TYPE_INT i =>
          Some (SetUInt32 new_Config field (wrap_uint32 i))
      | CPPTYPE_BOOL, G_TYPE_BOOLEAN b => Some (SetBool new_Config field b)
      | _, _ => None
      end
  end.

(** The id list in the document's words: one id per row, the sentinel for a
    row without id. *)
Definition candidate_id_or_sentinel (c : Candidate) : Z :=
  match candidate_id c with
  | Some i => i
  | None => -1
  end.

(** *** Reading the log *)

Section LogReading.
Context {schema : ConfigSchema} {Sess : Type}.

(** The calls the re-entrant core can make: host UI updates, diagnostics,
    [SendCommand] with SUBMIT or SWITCH_INPUT_MODE, and tool launches. *)
Definition core_event (ev : Event) : bool :=
  match ev with
  | Session_SendCommand c =>
      match type c with
      | SUBMIT | SWITCH_INPUT_MODE => true
      | REVERT | SELECT_CANDIDATE => false
      end
  | Session_LaunchTool _ _ => true
  | KeyTranslator_Translate _ _ _ _ _ | Session_EnsureConnection
  | Session_SendKey _ | Session_GetConfig | Session_SetConfig _
  | Session_SyncData => false
  | _ => true
  end.

(** [e'] is [e] after some calls [l]. *)
Definition calls_between (e e' : MozcEngine Sess) (l : list Event) : Prop :=
  log e' = log e ++ l.

(** What the re-entrant core leaves alone, and the calls it adds. *)
Definition core_step (e e' : MozcEngine Sess) : Prop :=
  last_sync_time_ e' = last_sync_time_ e /\
  preedit_method_ e' = preedit_method_ e /\
  prop_mozc_tool_ e' = prop_mozc_tool_ e /\
  map radio_key (sub_props (prop_composition_mode_ e')) =
  map radio_key (sub_props (prop_composition_mode_ e)) /\
  exists l, calls_between e e' l /\ forallb core_event l = true.

(** An operation of the core, whichever way it ends. *)
Definition core_op {A} (m : M Sess A) : Prop :=
  forall e : MozcEngine Sess, core_step e (engine_of (m e)).

(** A SELECT_CANDIDATE command that carries the sentinel id. *)
Definition selects_bad_candidate (ev : Event) : bool :=
  match ev with
  | Session_SendCommand c =>
      match type c, id c with
      | SELECT_CANDIDATE, Some i => i =? -1
      | _, _ => false
      end
  | _ => false
  end.

Definition count_SyncData (l : list Event) : nat :=
  List.length (filter is_SyncData_call l).

(** The number of rows of the lookup table the host shows after the calls
    [l]: that of the last table sent, none once it is hidden. *)
Definition rows_after (rows : nat) (ev : Event) : nat :=
  match ev with
  | ibus_engine_update_lookup_table table _ => List.length (table_candidates table)
  | ibus_engine_hide_lookup_table => 0%nat
  | _ => rows
  end.

Definition last_rendered_rows (l : list Event) : nat :=
  fold_left rows_after l 0%nat.

Definition is_table_event (ev : Event) : bool :=
  match ev with
  | ibus_engine_update_lookup_table _ _ | ibus_engine_hide_lookup_table => true
  | _ => false
  end.

(** The id list has one entry per row of the table the host shows. *)
Definition aligned (e : MozcEngine Sess) : Prop :=
  List.length (unique_candidate_ids_ e) = last_rendered_rows (log e).

(** An operation that keeps the id list aligned, whichever way it ends. *)
Definition aligned_op {A} (m : M Sess A) : Prop :=
  forall e : MozcEngine Sess, aligned e -> aligned (engine_of (m e)).

(** [e'] is [e] after calls that all satisfy [P]. *)
Definition adds (P : Event -> bool) (e e' : MozcEngine Sess) : Prop :=
  exists l, calls_between e e' l /\ forallb P l = true.

Definition is_not_revert (ev : Event) : bool := negb (is_command_of_type REVERT ev).

Definition is_safe (ev : Event) : bool := negb (selects_bad_candidate ev).

(** The calls of [RevertSession]: REVERT and what the core does with the
    reply. *)
Definition revert_event (ev : Event) : bool :=
  core_event ev || is_command_of_type REVERT ev.

Definition SUBMIT_command : SessionCommand :=
  {| type := SUBMIT; id := None; composition_mode := None |}.

Definition SWITCH_INPUT_MODE_command (m : CompositionMode) : SessionCommand :=
  {| type := SWITCH_INPUT_MODE; id := None; composition_mode := Some m |}.

Definition REVERT_command : SessionCommand :=
  {| type := REVERT; id := None; composition_mode := None |}.
End LogReading.

(** *** Property namespaces *)

Section Namespaces.
Context {build : Build} {schema : ConfigSchema} {Sess : Type}.
Context {session : client.Session Sess}.

(** The engine as [ProcessKeyEvent] sees it when it calls the translator:
    the in-process build refreshes the preedit method first. *)
Definition before_translate (e : MozcEngine Sess) : MozcEngine Sess :=
  if OS_CHROMEOS then UpdatePreeditMethod e else e.

(** The key names an item of the tool menu (the menu exists on the
    client/server build only, when the tool is installed). *)
Definition in_tool_namespace (property_name : string) (e : MozcEngine Sess) : bool :=
  if OS_CHROMEOS then false
  else match prop_mozc_tool_ e with
       | Some tool => existsb (String.eqb property_name)
                              (map tool_key (tool_sub_props tool))
       | None => false
       end.

(** The key names an item of the composition-mode radio menu. *)
Definition in_radio_namespace (property_name : string) (e : MozcEngine Sess) : bool :=
  existsb (String.eqb property_name)
          (map radio_key (sub_props (prop_composition_mode_ e))).

Definition with_state (st : IBusPropState) (p : RadioItem) : RadioItem :=
  {| radio_key := radio_key p; radio_state := st; radio_entry := radio_entry p |}.

Definition radio_states (e : MozcEngine Sess) : list IBusPropState :=
  map radio_state (sub_props (prop_composition_mode_ e)).

(** The radio loop on a key that no item carries: every item it reaches is
    set to unchecked. *)
Fixpoint uncheck_range (n i : nat) (e : MozcEngine Sess) : MozcEngine Sess :=
  match n with
  | O => e
  | S n' =>
      match nth_error (sub_props (prop_composition_mode_ e)) i with
      | None => e
      | Some _ =>
          uncheck_range n' (S i) (ibus_property_set_state i PROP_STATE_UNCHECKED e)
      end
  end.

Definition uncheck_all (e : MozcEngine Sess) : MozcEngine Sess :=
  uncheck_range (List.length (sub_props (prop_composition_mode_ e))) 0 e.
End Namespaces.

(** *** What an [Output] shows, and what each callback may call *)

Section Shows.
Context {build : Build} {schema : ConfigSchema} {linked : Collaborators}.
Context {Sess : Type} {session : client.Session Sess}.

Definition SELECT_CANDIDATE_command (i : Z) : SessionCommand :=
  {| type := SELECT_CANDIDATE; id := Some i; composition_mode := None |}.

(** The host calls for the three parts of an [Output], in the document's
    words: the committed text, the preedit, the candidate window. *)
Definition result_events (output : Output) : list Event :=
  match result output with
  | Some v => [ibus_engine_commit_text (ibus_text_new_from_string v)]
  | None => []
  end.

Definition preedit_events (output : Output) : list Event :=
  match preedit output with
  | Some p =>
      [ibus_engine_update_preedit_text (ComposePreeditText p) (CursorPos output) true]
  | None => [ibus_engine_hide_preedit_text]
  end.

(** The position of the last candidate that carries the focused index. *)
Fixpoint last_position_of (focused : Z) (cs : list Candidate) : option nat :=
  match cs with
  | [] => None
  | c :: rest =>
      match last_position_of focused rest with
      | Some k => Some (S k)
      | None => if focused =? index c then Some 0%nat else None
      end
  end.

Definition spec_lookup_table (cands : Candidates) : IBusLookupTable :=
  {| page_size := 9;
     cursor_pos :=
       match focused_index cands with
       | Some f =>
           match last_position_of f (candidate cands) with
           | Some k => Z.of_nat k
           | None => 0
           end
       | None => 0
       end;
     cursor_visible :=
       match focused_index cands with Some _ => true | None => false end;
     round := true;
     orientation_vertical := IBUS_CHECK_VERSION_1_3_0;
     table_candidates :=
       map (fun c => ibus_text_new_from_string (candidate_value c)) (candidate cands);
     table_labels := map candidate_label (candidate cands) |}.

Definition candidate_events (output : Output) : list Event :=
  match candidates output with
  | None => [ibus_engine_hide_auxiliary_text; ibus_engine_hide_lookup_table]
  | Some cands =>
      [ibus_engine_update_lookup_table (spec_lookup_table cands) true;
       match focused_index cands with
       | Some f =>
           ibus_engine_update_auxiliary_text
             (ibus_text_new_from_string
                (print_int (wrap_int32 (f + 1)) ++ "/"
                 ++ print_int (wrap_int32 (size cands)))%string) true
       | None => ibus_engine_hide_auxiliary_text
       end]
  end.

Definition output_events (output : Output) : list Event :=
  result_events output ++ preedit_events output ++ candidate_events output.

(** The radio menu after the activation of the key [property_name]: the
    items with that key checked, the others unchecked. *)
Definition activated_items (property_name : string) (items : list RadioItem)
  : list RadioItem :=
  map (fun p => with_state (if String.eqb property_name (radio_key p)
                            then PROP_STATE_CHECKED else PROP_STATE_UNCHECKED) p)
      items.

(** The radio menu carries the entries of the table, in order. *)
Definition menu_of_table (e : MozcEngine Sess) : Prop :=
  map radio_key (sub_props (prop_composition_mode_ e))
  = map MozcEngineProperty.key kMozcEngineProperties
  /\ map radio_entry (sub_props (prop_composition_mode_ e))
     = map Some kMozcEngineProperties.

(** Updates of the host UI. *)
Definition is_ui_update (ev : Event) : bool :=
  match ev with
  | ibus_engine_commit_text _ | ibus_engine_hide_preedit_text
  | ibus_engine_update_preedit_text _ _ _ | ibus_engine_hide_auxiliary_text
  | ibus_engine_update_auxiliary_text _ _ | ibus_engine_hide_lookup_table
  | ibus_engine_update_lookup_table _ _ | ibus_engine_update_property _ => true
  | _ => false
  end.

(** The calls of the re-entrant core on this build: UI updates, SUBMIT and
    SWITCH_INPUT_MODE, and where the tool menu exists the launch of a tool
    with its diagnostic. *)
Definition reentrant_call (ev : Event) : bool :=
  match ev with
  | Session_SendCommand c =>
      match type c with
      | SUBMIT | SWITCH_INPUT_MODE => true
      | REVERT | SELECT_CANDIDATE => false
      end
  | Session_LaunchTool _ _ | LOG_ERROR _ => negb OS_CHROMEOS
  | _ => is_ui_update ev
  end.

Definition is_REVERT (ev : Event) : bool := is_command_of_type REVERT ev.

(** The calls a host callback may make. *)
Definition allowed (c : HostCall) (ev : Event) : bool :=
  match c with
  | CallEnable =>
      reentrant_call ev || is_REVERT ev
      || match ev with
         | Session_EnsureConnection | Session_GetConfig | LOG_ERROR _ => true
         | _ => false
         end
  | CallDisable | CallReset =>
      reentrant_call ev || is_REVERT ev
      || match ev with LOG_ERROR _ => true | _ => false end
  | CallFocusOut _ =>
      reentrant_call ev || is_REVERT ev
      || match ev with Session_SyncData | LOG_ERROR _ => true | _ => false end
  | CallFocusIn =>
      match ev with ibus_engine_register_properties _ _ => true | _ => false end
  | CallProcessKeyEvent _ _ _ _ =>
      reentrant_call ev
      || match ev with
         | KeyTranslator_Translate _ _ _ _ _ | Session_SendKey _ | LOG_ERROR _ => true
         | Session_GetConfig => OS_CHROMEOS
         | _ => false
         end
  | CallCandidateClicked _ _ _ =>
      reentrant_call ev || is_command_of_type SELECT_CANDIDATE ev
  | CallPropertyActivate _ _ => reentrant_call ev
  | CallSetCursorLocation _ _ _ _ | CallSetCapabilities _ => false
  | CallConfigValueChanged _ _ _ =>
      OS_CHROMEOS
      && match ev with
         | Session_SetConfig _ | Session_SyncData | LOG_ERROR _ => true
         | _ => false
         end
  end.

Definition allowed_in (calls : list HostCall) (ev : Event) : bool :=
  existsb (fun c => allowed c ev) calls.

(** An operation that only makes calls that satisfy [P], whichever way it
    ends. *)
Definition calls_only {A} (P : Event -> bool) (m : M Sess A) : Prop :=
  forall e : MozcEngine Sess, adds P e (engine_of (m e)).

(** What the radio loop does at the item [i] whose key is the activated one
    and whose entry names a mode other than DIRECT: SWITCH_INPUT_MODE is
    sent, the mode and the icon are set, the item is checked. *)
Definition switch_item (i : nat) (entry : MozcEngineProperty.t) (e : MozcEngine Sess)
  : MozcEngine Sess :=
  ibus_property_set_state i PROP_STATE_CHECKED
    (ibus_property_set_icon (GetIconPath (MozcEngineProperty.icon entry))
       (set_current_composition_mode_ (MozcEngineProperty.composition_mode entry)
          (snd (session_SendCommand
                  (SWITCH_INPUT_MODE_command
                     (MozcEngineProperty.composition_mode entry)) e)))).

(** What identifies the menus: the key and the entry of every radio item,
    and the tool menu. *)
Definition menu_shape (e : MozcEngine Sess)
  : list (string * option MozcEngineProperty.t) * option ToolMenu :=
  (map (fun p => (radio_key p, radio_entry p)) (sub_props (prop_composition_mode_ e)),
   prop_mozc_tool_ e).

(** [e'] has the menus and the synchronisation time of [e]. *)
Definition keeps (e e' : MozcEngine Sess) : Prop :=
  menu_shape e' = menu_shape e /\ last_sync_time_ e' = last_sync_time_ e.

Definition keeps_op {A} (m : M Sess A) : Prop :=
  forall e : MozcEngine Sess, keeps e (engine_of (m e)).

(** A run of [FocusOut] calls at the given clock readings. *)
Definition focus_outs (depth : nat) (times : list Z) (e : MozcEngine Sess)
  : MozcEngine Sess :=
  fold_left (fun e t => engine_of (FocusOut depth t e)) times e.
End Shows.

(** The release phase of a key event: bit 30 of the modifiers. *)
Definition is_release (modifiers : Z) : bool := Z.testbit modifiers 30.

(** * Properties *)

(** ** Integers and strings *)



Lemma wrap_uint64_small z : 0 <= z < 2 ^ 64 -> wrap_uint64 z = z.
Proof. unfold wrap_uint64. intros Hz. now apply Z.mod_small. Qed.

Lemma wrap_uint64_range z : 0 <= wrap_uint64 z < 2 ^ 64.
Proof. unfold wrap_uint64. apply Z.mod_pos_bound. lia. Qed.




Lemma CompositionMode_eqb_eq a b : CompositionMode_eqb a b = true <-> a = b.
Proof. destruct a, b; simpl; split; intro E; try reflexivity; discriminate E. Qed.

Lemma CompositionMode_eqb_refl a : CompositionMode_eqb a a = true.
Proof. now apply CompositionMode_eqb_eq. Qed.

Lemma CompositionMode_eqb_neq a b : CompositionMode_eqb a b = false <-> a <> b.
Proof.
  split.
  - intros E ->. rewrite CompositionMode_eqb_refl in E. discriminate.
  - intros N. destruct (CompositionMode_eqb a b) eqn:E; [|reflexivity].
    apply CompositionMode_eqb_eq in E. contradiction.
Qed.

(** ** Rendering of the preedit *)










(** X1: a highlighted segment yields exactly one underline attribute
    (double), one background and one foreground attribute, all three over
    the span of the segment; any other segment yields its underline
    attribute alone. *)
Theorem X1_highlight_attributes (t : IBusText) (start_ : Z) (s : Segment) :
  let end_ := wrap_int32 (start_ + value_length s) in
  let span ty v :=
    {| attr_type := ty; attr_value := v;
       start_index := wrap_uint32 start_; end_index := wrap_uint32 end_ |} in
  snd (compose_segment t start_ s) = end_
  /\ attrs (fst (compose_segment t start_ s))
     = attrs t
       ++ match annotation s with
          | HIGHLIGHT =>
              [span IBUS_ATTR_TYPE_UNDERLINE IBUS_ATTR_UNDERLINE_DOUBLE;
               span IBUS_ATTR_TYPE_BACKGROUND kBackgroundColor;
               span IBUS_ATTR_TYPE_FOREGROUND kForegroundColor]
          | UNDERLINE => [span IBUS_ATTR_TYPE_UNDERLINE IBUS_ATTR_UNDERLINE_SINGLE]
          | NONE => [span IBUS_ATTR_TYPE_UNDERLINE IBUS_ATTR_UNDERLINE_NONE]
          end.
Proof.
  intros end_ span. split; [reflexivity|].
  unfold compose_segment, ibus_text_append_attribute.
  destruct (annotation s); cbn [fst attrs underline_of];
    rewrite <- ?app_assoc; reflexivity.
Qed.

(** ** The engine: what every operation preserves *)

Lemma release_mask_test modifiers :
  (Z.land modifiers IBUS_RELEASE_MASK =? 0) = negb (is_release modifiers).
Proof.
  unfold is_release, IBUS_RELEASE_MASK.
  replace (Z.shiftl 1 30) with (2 ^ 30) by reflexivity.
  destruct (Z.testbit modifiers 30) eqn:Hb; simpl negb.
  - apply Z.eqb_neq. intros E.
    assert (F : Z.testbit (Z.land modifiers (2 ^ 30)) 30 = false)
      by (rewrite E; apply Z.bits_0).
    rewrite Z.land_spec, Hb, Z.pow2_bits_true in F by lia. discriminate F.
  - apply Z.eqb_eq. apply Z.bits_inj'. intros n Hn.
    rewrite Z.land_spec, Z.bits_0, Z.pow2_bits_eqb by lia.
    destruct (Z.eqb_spec 30 n) as [<-|]; [now rewrite Hb|].
    apply andb_false_r.
Qed.

Section EngineFacts.
Context {build : Build} {schema : ConfigSchema} {linked : Collaborators}.
Context {Sess : Type} {session : client.Session Sess}.

Lemma core_step_refl (e : MozcEngine Sess) : core_step e e.
Proof.
  repeat split. exists []. split; [|reflexivity].
  unfold calls_between. now rewrite app_nil_r.
Qed.

Lemma core_step_trans (e1 e2 e3 : MozcEngine Sess) :
  core_step e1 e2 -> core_step e2 e3 -> core_step e1 e3.
Proof.
  intros (A1 & A2 & A3 & A4 & l1 & A5 & A6) (B1 & B2 & B3 & B4 & l2 & B5 & B6).
  repeat split; try congruence.
  exists (l1 ++ l2). unfold calls_between in *. split.
  - rewrite B5, A5. now rewrite app_assoc.
  - rewrite forallb_app, A6, B6. reflexivity.
Qed.

Lemma core_step_emit (ev : Event) (e : MozcEngine Sess) :
  core_event ev = true -> core_step e (emit ev e).
Proof.
  intros Hev. repeat split. exists [ev]. split; [reflexivity|].
  simpl. now rewrite Hev.
Qed.

(** A state change that touches neither the log nor the framed members. *)
Lemma core_step_silent (e e' : MozcEngine Sess) :
  last_sync_time_ e' = last_sync_time_ e ->
  preedit_method_ e' = preedit_method_ e ->
  prop_mozc_tool_ e' = prop_mozc_tool_ e ->
  map radio_key (sub_props (prop_composition_mode_ e')) =
  map radio_key (sub_props (prop_composition_mode_ e)) ->
  log e' = log e ->
  core_step e e'.
Proof.
  intros. repeat split; try assumption.
  exists []. split; [|reflexivity].
  unfold calls_between. rewrite app_nil_r. assumption.
Qed.

Lemma core_op_ret {A} (a : A) : core_op (ret (Sess := Sess) a).
Proof. intros e. apply core_step_refl. Qed.

Lemma core_op_bind {A B} (m : M Sess A) (k : A -> M Sess B) :
  core_op m -> (forall a, core_op (k a)) -> core_op (bind m k).
Proof.
  intros Hm Hk e. unfold bind. specialize (Hm e).
  destruct (m e) as [a e'|e']; simpl in *; [|exact Hm].
  eapply core_step_trans; [exact Hm | apply Hk].
Qed.

Lemma core_op_lift (f : MozcEngine Sess -> MozcEngine Sess) :
  (forall e, core_step e (f e)) -> core_op (lift f).
Proof. intros Hf e. apply Hf. Qed.

Lemma core_step_SendCommand (command : SessionCommand) (e : MozcEngine Sess) :
  core_event (Session_SendCommand command) = true ->
  core_step e (snd (session_SendCommand command e)).
Proof.
  intros Hc. unfold session_SendCommand.
  destruct (client.SendCommand (session_ e) command) as [r s]. simpl.
  apply core_step_trans with (e2 := emit (Session_SendCommand command) e);
    [now apply core_step_emit | apply core_step_silent; reflexivity].
Qed.

Lemma core_op_SendCommand (command : SessionCommand) :
  core_event (Session_SendCommand command) = true ->
  core_op (call (session_SendCommand command)).
Proof.
  intros Hc e. unfold call.
  pose proof (core_step_SendCommand command e Hc) as Hs.
  destruct (session_SendCommand command e) as [r e']. exact Hs.
Qed.

Lemma core_step_UpdateResult output (e : MozcEngine Sess) :
  core_step e (UpdateResult output e).
Proof.
  unfold UpdateResult. destruct (result output).
  - now apply core_step_emit.
  - apply core_step_refl.
Qed.

Lemma core_step_UpdatePreedit output (e : MozcEngine Sess) :
  core_step e (UpdatePreedit output e).
Proof.
  unfold UpdatePreedit. destruct (preedit output); now apply core_step_emit.
Qed.

Lemma core_step_then_emit (ev : Event) (e0 e : MozcEngine Sess) :
  core_event ev = true -> core_step e0 e -> core_step e0 (emit ev e).
Proof.
  intros Hev Hs. eapply core_step_trans; [exact Hs | now apply core_step_emit].
Qed.

Lemma core_step_UpdateCandidates output (e : MozcEngine Sess) :
  core_step e (UpdateCandidates output e).
Proof.
  unfold UpdateCandidates.
  assert (E0 : core_step e (set_unique_candidate_ids_ [] e))
    by (apply core_step_silent; reflexivity).
  destruct (candidates output) as [cands|]; cbv zeta.
  - match goal with
    | |- core_step _ (set_unique_candidate_ids_ _ ?x) =>
        apply core_step_trans with (e2 := x);
          [|apply core_step_silent; reflexivity]
    end.
    destruct (focused_index cands);
      repeat (apply core_step_then_emit; [reflexivity|]); exact E0.
  - repeat (apply core_step_then_emit; [reflexivity|]); exact E0.
Qed.

Lemma set_nth_state_keys i st items :
  map radio_key (set_nth_state i st items) = map radio_key items.
Proof.
  revert i. induction items as [|p rest IH]; intros [|i]; simpl;
    try reflexivity. now rewrite IH.
Qed.

Lemma core_step_set_state i st (e : MozcEngine Sess) :
  core_step e (ibus_property_set_state i st e).
Proof.
  apply core_step_silent; try reflexivity.
  simpl. apply set_nth_state_keys.
Qed.

Lemma core_step_set_icon path (e : MozcEngine Sess) :
  core_step e (ibus_property_set_icon path e).
Proof. apply core_step_silent; reflexivity. Qed.

Section Core.
Variable UpdateAll_rec : Output -> M Sess unit.
Hypothesis UpdateAll_rec_core : forall output, core_op (UpdateAll_rec output).

Lemma core_op_SetCompositionMode_ composition_mode :
  core_op (SetCompositionMode_ UpdateAll_rec composition_mode).
Proof.
  unfold SetCompositionMode_.
  destruct (CompositionMode_eqb composition_mode DIRECT).
  - apply core_op_bind; [now apply core_op_SendCommand|]. intros r.
    apply core_op_bind; [apply UpdateAll_rec_core|]. intros _.
    apply core_op_lift. intros e. apply core_step_silent; reflexivity.
  - apply core_op_bind; [now apply core_op_SendCommand|]. intros r.
    apply core_op_lift. intros e. apply core_step_silent; reflexivity.
Qed.

Lemma core_op_radio_loop n : forall i property_name,
  core_op (radio_loop UpdateAll_rec n i property_name).
Proof.
  induction n as [|n IH]; intros i property_name e; simpl.
  - apply core_step_refl.
  - destruct (nth_error (sub_props (prop_composition_mode_ e)) i) as [prop|];
      [|apply core_step_refl].
    apply core_op_bind; [|intros _; apply IH].
    destruct (String.eqb property_name (radio_key prop)).
    + apply core_op_bind.
      * destruct (radio_entry prop) as [entry|]; [|apply core_op_ret].
        apply core_op_bind; [apply core_op_SetCompositionMode_|]. intros _.
        apply core_op_lift. intros e0. apply core_step_set_icon.
      * intros _. apply core_op_lift. intros e0. apply core_step_set_state.
    + apply core_op_lift. intros e0. apply core_step_set_state.
Qed.

Lemma core_op_PropertyActivate_ property_name property_state :
  core_op (PropertyActivate_ UpdateAll_rec property_name property_state).
Proof.
  intros e. unfold PropertyActivate_.
  destruct (if OS_CHROMEOS then None
            else match prop_mozc_tool_ e with
                 | Some tool => find_tool_item property_name (tool_sub_props tool)
                 | None => None
                 end) as [prop|].
  - unfold session_LaunchTool.
    destruct (client.LaunchTool _ _ _) as [ok s]. simpl.
    assert (Hs : core_step e
              (set_session_ s
                 (emit (Session_LaunchTool
                          (MozcEngineToolProperty.mode (tool_entry prop)) "") e))).
    { match goal with
      | |- core_step _ (set_session_ _ ?x) =>
          apply core_step_trans with (e2 := x);
            [now apply core_step_emit | apply core_step_silent; reflexivity]
      end. }
    destruct ok; [exact Hs|].
    eapply core_step_trans; [exact Hs | now apply core_step_emit].
  - destruct (negb (IBusPropState_eqb property_state PROP_STATE_CHECKED));
      [apply core_step_refl|].
    apply core_op_bind; [apply core_op_radio_loop|]. intros _ e0.
    now apply core_step_emit.
Qed.

Lemma core_op_activate_entries entries new_composition_mode :
  core_op (activate_entries_with_mode UpdateAll_rec entries new_composition_mode).
Proof.
  induction entries as [|entry rest IH]; simpl; [apply core_op_ret|].
  apply core_op_bind; [|intros _; exact IH].
  destruct (CompositionMode_eqb _ _);
    [apply core_op_PropertyActivate_ | apply core_op_ret].
Qed.

Lemma core_op_UpdateCompositionMode_ output :
  core_op (UpdateCompositionMode_ UpdateAll_rec output).
Proof.
  intros e. unfold UpdateCompositionMode_.
  destruct (mode output) as [m|]; [|apply core_step_refl].
  destruct (CompositionMode_eqb _ _); [apply core_step_refl|].
  apply core_op_activate_entries.
Qed.

Lemma core_op_UpdateAll_ output : core_op (UpdateAll_ UpdateAll_rec output).
Proof.
  unfold UpdateAll_.
  apply core_op_bind;
    [apply core_op_lift; intros e; apply core_step_UpdateResult | intros _].
  apply core_op_bind;
    [apply core_op_lift; intros e; apply core_step_UpdatePreedit | intros _].
  apply core_op_bind;
    [apply core_op_lift; intros e; apply core_step_UpdateCandidates | intros _].
  apply core_op_UpdateCompositionMode_.
Qed.
End Core.

Lemma core_op_UpdateAll depth : forall output, core_op (UpdateAll depth output).
Proof.
  induction depth as [|d IH]; intros output.
  - intros e. apply core_step_refl.
  - simpl. now apply core_op_UpdateAll_.
Qed.

Lemma core_op_SetCompositionMode depth composition_mode :
  core_op (SetCompositionMode depth composition_mode).
Proof. apply core_op_SetCompositionMode_, core_op_UpdateAll. Qed.

Lemma core_op_PropertyActivate depth property_name property_state :
  core_op (PropertyActivate depth property_name property_state).
Proof. apply core_op_PropertyActivate_, core_op_UpdateAll. Qed.

(** ** Key events *)

Lemma UpdatePreeditMethod_calls (e : MozcEngine Sess) :
  current_composition_mode_ (UpdatePreeditMethod e) = current_composition_mode_ e
  /\ exists l, log (UpdatePreeditMethod e) = log e ++ l
               /\ filter is_session_call l = [Session_GetConfig].
Proof.
  unfold UpdatePreeditMethod, session_GetConfig.
  destruct (client.GetConfig (session_ e)) as [[c|] s]; simpl.
  - split; [reflexivity|]. now exists [Session_GetConfig].
  - split; [reflexivity|].
    exists [Session_GetConfig; LOG_ERROR "GetConfig failed"]. split.
    + now rewrite <- app_assoc.
    + reflexivity.
Qed.

Lemma ProcessKeyEvent_release
    depth engine_name keyval keycode modifiers (e : MozcEngine Sess) :
  is_release modifiers = true ->
  ProcessKeyEvent depth engine_name keyval keycode modifiers e = Done false e.
Proof.
  intros Hrel. unfold ProcessKeyEvent.
  rewrite release_mask_test, Hrel. reflexivity.
Qed.

(** C2: a key event of the release phase is reported as not consumed and
    leaves the engine as it was: neither the key translator nor the session
    is called (the log of outgoing calls gains nothing), whatever the build
    and the mode. *)
Theorem C2_release_event_rejected
    depth engine_name keyval keycode modifiers (e : MozcEngine Sess) :
  is_release modifiers = true ->
  let r := ProcessKeyEvent depth engine_name keyval keycode modifiers e in
  r = Done false e
  /\ log (engine_of r) = log e
  /\ session_ (engine_of r) = session_ e.
Proof.
  intros Hrel r. unfold r. rewrite ProcessKeyEvent_release by assumption.
  repeat split.
Qed.

Lemma before_translate_calls (e : MozcEngine Sess) :
  current_composition_mode_ (before_translate e) = current_composition_mode_ e
  /\ exists l, log (before_translate e) = log e ++ l
               /\ filter is_session_call l =
                  if OS_CHROMEOS then [Session_GetConfig] else [].
Proof.
  unfold before_translate. destruct OS_CHROMEOS.
  - apply UpdatePreeditMethod_calls.
  - split; [reflexivity|]. exists []. now rewrite app_nil_r.
Qed.

Lemma ProcessKeyEvent_press depth engine_name keyval keycode modifiers
      (e : MozcEngine Sess) :
  is_release modifiers = false ->
  ProcessKeyEvent depth engine_name keyval keycode modifiers e =
  let layout_is_jp := String.eqb engine_name "mozc-jp" in
  let e0 := before_translate e in
  let e1 := emit (KeyTranslator_Translate keyval keycode modifiers
                    (preedit_method_ e0) layout_is_jp) e0 in
  match Translate keyval keycode modifiers (preedit_method_ e0) layout_is_jp with
  | None => Done false (emit (LOG_ERROR "Translate failed") e1)
  | Some key =>
      if CompositionMode_eqb (current_composition_mode_ e0) DIRECT &&
         negb (IsTurnOnInDirectMode key)
      then Done false e1
      else
        let '((ok, output), e2) := session_SendKey key e1 in
        if negb ok then Done false (emit (LOG_ERROR "SendKey failed") e2)
        else match UpdateAll depth output e2 with
             | Done _ e3 => Done (consumed output) e3
             | Cut e3 => Cut e3
             end
  end.
Proof.
  intros Hrel. unfold ProcessKeyEvent, before_translate.
  rewrite release_mask_test, Hrel. simpl negb. cbv iota.
  unfold bind at 1. destruct OS_CHROMEOS; unfold lift, ret; cbv zeta;
    reflexivity.
Qed.

(** C1 (amended): in DIRECT mode a translated key outside the set of keys
    that turn the IME on is rejected with no [SendKey] and no
    [SendCommand]; the only session call is the [GetConfig] with which the
    in-process build refreshes the preedit method before translating, and
    the other build calls the session not at all.  A key of the set is sent
    with [SendKey] right after the translation. *)
Theorem C1_direct_mode_fast_reject
    depth engine_name keyval keycode modifiers (e : MozcEngine Sess) key :
  let layout_is_jp := String.eqb engine_name "mozc-jp" in
  let e0 := before_translate e in
  let translate :=
    KeyTranslator_Translate keyval keycode modifiers
      (preedit_method_ e0) layout_is_jp in
  let r := ProcessKeyEvent depth engine_name keyval keycode modifiers e in
  is_release modifiers = false ->
  current_composition_mode_ e = DIRECT ->
  Translate keyval keycode modifiers (preedit_method_ e0) layout_is_jp
    = Some key ->
  (IsTurnOnInDirectMode key = false ->
     r = Done false (emit translate e0)
     /\ exists l, log (engine_of r) = log e ++ l
                  /\ filter is_session_call l =
                     if OS_CHROMEOS then [Session_GetConfig] else [])
  /\ (IsTurnOnInDirectMode key = true ->
      exists l, log (engine_of r)
                = log e0 ++ translate :: Session_SendKey key :: l).
Proof.
  intros layout_is_jp e0 translate r Hrel Hmode Hkey.
  destruct (before_translate_calls e) as (Hm0 & l0 & Hl0 & Hs0).
  fold e0 in Hm0, Hl0.
  assert (Er := ProcessKeyEvent_press depth engine_name keyval keycode modifiers e Hrel).
  fold r in Er. cbv zeta in Er. fold layout_is_jp e0 in Er. fold translate in Er.
  rewrite Hkey, Hm0, Hmode in Er. simpl CompositionMode_eqb in Er.
  split; intros Hon; rewrite Hon in Er; simpl in Er.
  - split; [exact Er|]. rewrite Er. simpl.
    exists (l0 ++ [translate]). split.
    + rewrite Hl0. now rewrite app_assoc.
    + rewrite filter_app, Hs0. simpl. apply app_nil_r.
  - unfold session_SendKey in Er.
    destruct (client.SendKey (session_ (emit translate e0)) key) as [[ok output] s].
    destruct ok; simpl in Er.
    + pose proof (core_op_UpdateAll depth output
                    (set_session_ s (emit (Session_SendKey key) (emit translate e0))))
        as (_ & _ & _ & _ & l & Hl & _).
      exists l. unfold calls_between in Hl.
      replace (engine_of r) with
        (engine_of (UpdateAll depth output
           (set_session_ s (emit (Session_SendKey key) (emit translate e0))))).
      * rewrite Hl. simpl. rewrite <- !app_assoc. reflexivity.
      * rewrite Er. now destruct (UpdateAll depth output _).
    + exists [LOG_ERROR "SendKey failed"]. rewrite Er. simpl.
      rewrite <- !app_assoc. reflexivity.
Qed.

(** X4: a key press that the translator cannot map is rejected with a
    diagnostic and never reaches the session with [SendKey] or
    [SendCommand]; a key press that the session fails to process is rejected
    with a diagnostic as well, and nothing is shown to the host. *)
Theorem X4_failed_key_rejected
    depth engine_name keyval keycode modifiers (e : MozcEngine Sess) :
  let layout_is_jp := String.eqb engine_name "mozc-jp" in
  let e0 := before_translate e in
  let translate :=
    KeyTranslator_Translate keyval keycode modifiers
      (preedit_method_ e0) layout_is_jp in
  let r := ProcessKeyEvent depth engine_name keyval keycode modifiers e in
  (is_release modifiers = false ->
   Translate keyval keycode modifiers (preedit_method_ e0) layout_is_jp = None ->
   r = Done false (emit (LOG_ERROR "Translate failed") (emit translate e0))
   /\ session_ (engine_of r) = session_ e0)
  /\ (forall key,
        is_release modifiers = false ->
        Translate keyval keycode modifiers (preedit_method_ e0) layout_is_jp
          = Some key ->
        current_composition_mode_ e <> DIRECT \/ IsTurnOnInDirectMode key = true ->
        fst (fst (session_SendKey key (emit translate e0))) = false ->
        r = Done false (emit (LOG_ERROR "SendKey failed")
                             (snd (session_SendKey key (emit translate e0))))
        /\ log (engine_of r)
           = log e0 ++ [translate; Session_SendKey key; LOG_ERROR "SendKey failed"]).
Proof.
  intros layout_is_jp e0 translate r. split.
  - intros Hrel Hnone.
    assert (Er := ProcessKeyEvent_press depth engine_name keyval keycode modifiers e Hrel).
    fold r in Er. cbv zeta in Er. fold layout_is_jp e0 in Er. fold translate in Er.
    rewrite Hnone in Er. rewrite Er. split; reflexivity.
  - intros key Hrel Hkey Hmode Hfail.
    assert (Er := ProcessKeyEvent_press depth engine_name keyval keycode modifiers e Hrel).
    fold r in Er. cbv zeta in Er. fold layout_is_jp e0 in Er. fold translate in Er.
    rewrite Hkey in Er.
    assert (Hm0 : current_composition_mode_ e0 = current_composition_mode_ e)
      by apply before_translate_calls.
    assert (Hgate : CompositionMode_eqb (current_composition_mode_ e0) DIRECT
                    && negb (IsTurnOnInDirectMode key) = false).
    { rewrite Hm0. destruct Hmode as [Hne | Hon].
      - apply CompositionMode_eqb_neq in Hne. now rewrite Hne.
      - rewrite Hon. apply andb_false_r. }
    rewrite Hgate in Er.
    unfold session_SendKey in *.
    destruct (client.SendKey (session_ (emit translate e0)) key) as [[ok output] s].
    simpl in Hfail. subst ok. simpl in Er. rewrite Er. split; [reflexivity|].
    simpl. rewrite <- !app_assoc. reflexivity.
Qed.

(** ** Switching the composition mode *)

Lemma forallb_weaken (P Q : Event -> bool) (l : list Event) :
  (forall ev, P ev = true -> Q ev = true) ->
  forallb P l = true -> forallb Q l = true.
Proof.
  intros HPQ. induction l as [|ev l IH]; simpl; [reflexivity|].
  intros Hl. apply andb_true_iff in Hl. destruct Hl as [H1 H2].
  now rewrite (HPQ _ H1), IH.
Qed.

Lemma core_event_not_revert (ev : Event) :
  core_event ev = true -> is_not_revert ev = true.
Proof.
  destruct ev; try reflexivity; simpl; try discriminate.
  unfold is_not_revert. simpl. now destruct (type command).
Qed.

Lemma core_event_safe (ev : Event) : core_event ev = true -> is_safe ev = true.
Proof.
  destruct ev; try reflexivity; simpl; try discriminate.
  unfold is_safe. simpl. now destruct (type command).
Qed.

Lemma UpdateAll_completes_without_mode_change d output (e : MozcEngine Sess) :
  mode output = None \/ mode output = Some (current_composition_mode_ e) ->
  completed (UpdateAll (S d) output e) = true.
Proof.
  intros Hmode. simpl. unfold UpdateAll_, bind, lift, UpdateCompositionMode_.
  destruct Hmode as [-> | ->]; [reflexivity|].
  replace (current_composition_mode_
             (UpdateCandidates output (UpdatePreedit output (UpdateResult output e))))
    with (current_composition_mode_ e).
  - now rewrite CompositionMode_eqb_refl.
  - unfold UpdateCandidates, UpdatePreedit, UpdateResult.
    destruct (candidates output) as [c|], (preedit output), (result output);
      try destruct (focused_index c); reflexivity.
Qed.

(** [SetCompositionMode] to DIRECT sends SUBMIT first, applies the reply
    with [UpdateAll], and sends no REVERT; to any other mode it sends one
    SWITCH_INPUT_MODE.  The success flag of the command is not looked at,
    and once the call is through the engine's mode is the requested one. *)
Lemma SetCompositionMode_commands
    depth composition_mode (e : MozcEngine Sess) :
  let r := SetCompositionMode depth composition_mode e in
  (composition_mode = DIRECT ->
     let reply := fst (session_SendCommand SUBMIT_command e) in
     let e1 := snd (session_SendCommand SUBMIT_command e) in
     r = match UpdateAll depth (snd reply) e1 with
         | Done _ e2 => Done tt (set_current_composition_mode_ DIRECT e2)
         | Cut e2 => Cut e2
         end
     /\ (exists l, log (engine_of r)
                   = log e ++ Session_SendCommand SUBMIT_command :: l
                   /\ forallb is_not_revert l = true)
     /\ (completed r = true ->
         current_composition_mode_ (engine_of r) = DIRECT)
     /\ (forall d, depth = S d ->
           mode (snd reply) = None
           \/ mode (snd reply) = Some (current_composition_mode_ e) ->
           completed r = true))
  /\ (composition_mode <> DIRECT ->
      let switch := SWITCH_INPUT_MODE_command composition_mode in
      r = Done tt (set_current_composition_mode_ composition_mode
                     (snd (session_SendCommand switch e)))
      /\ log (engine_of r) = log e ++ [Session_SendCommand switch]
      /\ current_composition_mode_ (engine_of r) = composition_mode).
Proof.
  intros r. split.
  - intros ->. intros reply e1.
    assert (Er : r = match UpdateAll depth (snd reply) e1 with
                     | Done _ e2 => Done tt (set_current_composition_mode_ DIRECT e2)
                     | Cut e2 => Cut e2
                     end).
    { unfold r, SetCompositionMode, SetCompositionMode_, reply, e1.
      rewrite CompositionMode_eqb_refl. unfold bind, call, lift.
      fold SUBMIT_command. cbv beta.
      destruct (session_SendCommand SUBMIT_command e) as [rp e']. reflexivity. }
    assert (E1 : log e1 = log e ++ [Session_SendCommand SUBMIT_command]
                 /\ current_composition_mode_ e1 = current_composition_mode_ e).
    { unfold e1, session_SendCommand.
      destruct (client.SendCommand (session_ e) SUBMIT_command) as [rp s].
      split; reflexivity. }
    destruct E1 as [E1 E1m].
    split; [exact Er|]. split; [|split].
    + pose proof (core_op_UpdateAll depth (snd reply) e1)
        as (_ & _ & _ & _ & l & Hl & Hcore).
      exists l. split.
      * unfold calls_between in Hl. rewrite E1 in Hl.
        rewrite <- app_assoc in Hl. simpl in Hl. rewrite <- Hl.
        rewrite Er. now destruct (UpdateAll depth (snd reply) e1).
      * eapply forallb_weaken; [apply core_event_not_revert | exact Hcore].
    + rewrite Er. destruct (UpdateAll depth (snd reply) e1);
        [reflexivity | discriminate].
    + intros d -> Hmode. rewrite Er.
      rewrite <- E1m in Hmode.
      pose proof (UpdateAll_completes_without_mode_change d (snd reply) e1 Hmode) as Hc.
      destruct (UpdateAll (S d) (snd reply) e1); [reflexivity | discriminate Hc].
  - intros Hne switch.
    assert (Er : r = Done tt (set_current_composition_mode_ composition_mode
                                (snd (session_SendCommand switch e)))).
    { unfold r, SetCompositionMode, SetCompositionMode_.
      apply CompositionMode_eqb_neq in Hne. rewrite Hne.
      unfold bind, call, lift. fold (SWITCH_INPUT_MODE_command composition_mode).
      fold switch. cbv beta.
      destruct (session_SendCommand switch e) as [rp e']. reflexivity. }
    split; [exact Er|]. rewrite Er. simpl.
    unfold session_SendCommand.
    destruct (client.SendCommand (session_ e) switch) as [rp s].
    split; reflexivity.
Qed.

(** ** Debounced persistence *)

Lemma SyncData_performed force time_NULL (e : MozcEngine Sess) :
  force = true
  \/ (last_sync_time_ e <= GetTime time_NULL
      /\ kSyncDataInterval <= GetTime time_NULL - last_sync_time_ e) ->
  0 <= last_sync_time_ e ->
  SyncData force time_NULL e
  = set_last_sync_time_ (GetTime time_NULL) (session_SyncData e).
Proof.
  intros Hc Hpos. unfold SyncData. destruct force; [reflexivity|].
  destruct Hc as [Hc | [Hle Hint]]; [discriminate|]. simpl orb.
  pose proof (wrap_uint64_range time_NULL) as Hr. unfold GetTime in *.
  rewrite (@wrap_uint64_small (wrap_uint64 time_NULL - last_sync_time_ e)) by lia.
  replace (last_sync_time_ e <=? wrap_uint64 time_NULL) with true
    by (symmetry; apply Z.leb_le; lia).
  replace (kSyncDataInterval <=? wrap_uint64 time_NULL - last_sync_time_ e)
    with true by (symmetry; apply Z.leb_le; lia).
  reflexivity.
Qed.

Lemma SyncData_skipped time_NULL (e : MozcEngine Sess) :
  GetTime time_NULL - last_sync_time_ e < kSyncDataInterval ->
  SyncData false time_NULL e = e.
Proof.
  intros Hlt. unfold SyncData. simpl orb.
  destruct (Z.leb_spec (last_sync_time_ e) (GetTime time_NULL)) as [Hle|Hgt];
    [|reflexivity].
  pose proof (wrap_uint64_range time_NULL) as Hr. unfold GetTime in *.
  unfold kSyncDataInterval in *.
  rewrite (@wrap_uint64_small (wrap_uint64 time_NULL - last_sync_time_ e)) by lia.
  replace (5 * 60 <=? wrap_uint64 time_NULL - last_sync_time_ e)
    with false by (symmetry; apply Z.leb_gt; lia).
  reflexivity.
Qed.

Lemma SyncData_cases force time_NULL (e : MozcEngine Sess) :
  SyncData force time_NULL e = e
  \/ SyncData force time_NULL e
     = set_last_sync_time_ (GetTime time_NULL) (session_SyncData e).
Proof.
  unfold SyncData.
  destruct (force || _); [right | left]; reflexivity.
Qed.

(** C10: a sync that is not forced calls the session's [SyncData] exactly
    when the clock is not behind the last sync time and at least the
    interval has passed; with the clock behind, nothing happens.  Whether
    forced or not, the last sync time changes only together with a call of
    the session's [SyncData]. *)
Theorem C10_sync_condition time_NULL (e : MozcEngine Sess) :
  0 <= last_sync_time_ e ->
  let now := GetTime time_NULL in
  let e' := SyncData false time_NULL e in
  (last_sync_time_ e <= now /\ kSyncDataInterval <= now - last_sync_time_ e ->
     e' = set_last_sync_time_ now (session_SyncData e)
     /\ log e' = log e ++ [Session_SyncData])
  /\ (now < last_sync_time_ e \/ now - last_sync_time_ e < kSyncDataInterval ->
      e' = e)
  /\ (forall force,
        SyncData force time_NULL e = e
        \/ (log (SyncData force time_NULL e) = log e ++ [Session_SyncData]
            /\ last_sync_time_ (SyncData force time_NULL e) = now)).
Proof.
  intros Hpos now e'. split; [|split].
  - intros Hc. unfold e'.
    rewrite SyncData_performed by (try assumption; now right).
    split; reflexivity.
  - intros Hc. apply SyncData_skipped. fold now.
    unfold kSyncDataInterval. destruct Hc as [Hc|Hc]; [lia|exact Hc].
  - intros force. destruct (SyncData_cases force time_NULL e) as [E|E];
      [now left | right]. rewrite E. split; reflexivity.
Qed.

(** ** Calls added by the host callbacks *)

Lemma adds_refl P (e : MozcEngine Sess) : adds P e e.
Proof. exists []. split; [|reflexivity]. unfold calls_between. now rewrite app_nil_r. Qed.

Lemma adds_trans P (e1 e2 e3 : MozcEngine Sess) :
  adds P e1 e2 -> adds P e2 e3 -> adds P e1 e3.
Proof.
  intros (l1 & A1 & A2) (l2 & B1 & B2). exists (l1 ++ l2).
  unfold calls_between in *. split.
  - rewrite B1, A1. now rewrite app_assoc.
  - now rewrite forallb_app, A2, B2.
Qed.

Lemma adds_weaken (P Q : Event -> bool) (e e' : MozcEngine Sess) :
  (forall ev, P ev = true -> Q ev = true) -> adds P e e' -> adds Q e e'.
Proof.
  intros HPQ (l & A1 & A2). exists l. split; [exact A1|].
  eapply forallb_weaken; eassumption.
Qed.

Lemma adds_emit P ev (e0 e : MozcEngine Sess) :
  P ev = true -> adds P e0 e -> adds P e0 (emit ev e).
Proof.
  intros Hev Ha. apply adds_trans with (e2 := e); [exact Ha|].
  exists [ev]. split; [reflexivity|]. simpl. now rewrite Hev.
Qed.

Lemma adds_same_log P (e0 e e' : MozcEngine Sess) :
  log e' = log e -> adds P e0 e -> adds P e0 e'.
Proof.
  intros Hlog (l & A1 & A2). exists l. split; [|exact A2].
  unfold calls_between in *. congruence.
Qed.

Lemma core_step_adds (e e' : MozcEngine Sess) : core_step e e' -> adds core_event e e'.
Proof. intros (_ & _ & _ & _ & Ha). exact Ha. Qed.

Lemma session_SendCommand_calls command (e : MozcEngine Sess) :
  log (snd (session_SendCommand command e)) = log e ++ [Session_SendCommand command]
  /\ last_sync_time_ (snd (session_SendCommand command e)) = last_sync_time_ e
  /\ unique_candidate_ids_ (snd (session_SendCommand command e))
     = unique_candidate_ids_ e.
Proof.
  unfold session_SendCommand.
  destruct (client.SendCommand (session_ e) command) as [r s].
  repeat split.
Qed.

Lemma core_event_revert ev : core_event ev = true -> revert_event ev = true.
Proof. intros Hc. unfold revert_event. now rewrite Hc. Qed.

Lemma RevertSession_step depth (e : MozcEngine Sess) :
  last_sync_time_ (engine_of (RevertSession depth e)) = last_sync_time_ e
  /\ adds revert_event e (engine_of (RevertSession depth e)).
Proof.
  unfold RevertSession, bind, call.
  destruct (session_SendCommand_calls REVERT_command e) as (Hlog & Hlast & _).
  fold REVERT_command.
  destruct (session_SendCommand REVERT_command e) as [[ok output] e1].
  simpl in Hlog, Hlast. simpl fst. simpl snd.
  assert (H1 : adds revert_event e e1).
  { exists [Session_SendCommand REVERT_command]. split; [exact Hlog | reflexivity]. }
  destruct ok; cbn [fst snd].
  - pose proof (core_op_UpdateAll depth output e1) as Hcore.
    destruct Hcore as (C1 & _ & _ & _ & Ca). split; [congruence|].
    apply adds_trans with (e2 := e1); [exact H1|].
    eapply adds_weaken; [apply core_event_revert | exact Ca].
  - unfold lift. simpl. split; [exact Hlast|].
    now apply adds_emit.
Qed.

Lemma count_SyncData_app (l1 l2 : list Event) :
  count_SyncData (l1 ++ l2) = (count_SyncData l1 + count_SyncData l2)%nat.
Proof. unfold count_SyncData. now rewrite filter_app, length_app. Qed.

Lemma revert_event_no_sync (l : list Event) :
  forallb revert_event l = true -> count_SyncData l = 0%nat.
Proof.
  unfold count_SyncData. induction l as [|ev l IH]; simpl; [reflexivity|].
  intros Hl. apply andb_true_iff in Hl. destruct Hl as [Hev Hl].
  destruct ev; simpl in *; try discriminate Hev; now apply IH.
Qed.

(** What one [FocusOut] adds: the calls of [RevertSession], then at most
    one [SyncData]; none when less than the interval has passed. *)
Lemma FocusOut_calls depth time_NULL (e : MozcEngine Sess) :
  let e' := engine_of (FocusOut depth time_NULL e) in
  exists l, log e' = log e ++ l
            /\ (count_SyncData l <= 1)%nat
            /\ (GetTime time_NULL - last_sync_time_ e < kSyncDataInterval ->
                count_SyncData l = 0%nat
                /\ last_sync_time_ e' = last_sync_time_ e).
Proof.
  intros e'. unfold e', FocusOut, bind.
  destruct (RevertSession_step depth e) as (Hlast & l & Hl & Hrev).
  unfold calls_between in Hl. apply revert_event_no_sync in Hrev.
  destruct (RevertSession depth e) as [[] e1|e1]; cbn [engine_of] in *.
  - unfold lift. cbn [engine_of].
    destruct (SyncData_cases false time_NULL e1) as [E|E].
    + rewrite E. exists l. split; [exact Hl|]. split; [lia|].
      intros _. split; [exact Hrev | exact Hlast].
    + exists (l ++ [Session_SyncData]). split; [|split].
      * rewrite E. simpl. rewrite Hl. now rewrite app_assoc.
      * rewrite count_SyncData_app, Hrev. apply Nat.le_refl.
      * intros Hlt. rewrite <- Hlast in Hlt.
        rewrite (SyncData_skipped _ _ Hlt). rewrite Hlast.
        rewrite (SyncData_skipped _ _ Hlt) in E.
        apply (f_equal log) in E. simpl in E.
        exfalso. clear - E.
        assert (L : List.length (log e1) = List.length (log e1 ++ [Session_SyncData]))
          by (rewrite <- E; reflexivity).
        rewrite length_app in L. simpl in L. lia.
  - exists l. split; [exact Hl|]. split; [lia|].
    intros _. split; [exact Hrev | exact Hlast].
Qed.

(** C6: when the second of two [FocusOut] calls comes less than the
    interval after the last sync time, the two calls together call the
    session's [SyncData] at most once; the destructor's forced sync calls
    it exactly once, whatever the clock says. *)
Theorem C6_debounced_sync :
  (forall depth t1 t2 (e : MozcEngine Sess),
      let e1 := engine_of (FocusOut depth t1 e) in
      let e2 := engine_of (FocusOut depth t2 e1) in
      GetTime t2 - last_sync_time_ e1 < kSyncDataInterval ->
      exists l, log e2 = log e ++ l /\ (count_SyncData l <= 1)%nat)
  /\ (forall time_NULL (e : MozcEngine Sess),
        exists l, log (MozcEngine_delete time_NULL e) = log e ++ l
                  /\ count_SyncData l = 1%nat
                  /\ last_sync_time_ (MozcEngine_delete time_NULL e)
                     = GetTime time_NULL).
Proof.
  split.
  - intros depth t1 t2 e e1 e2 Hlt.
    destruct (FocusOut_calls depth t1 e) as (l1 & Hl1 & Hc1 & _).
    destruct (FocusOut_calls depth t2 e1) as (l2 & Hl2 & _ & Hc2).
    fold e1 in Hl1. fold e2 in Hl2.
    destruct (Hc2 Hlt) as [Hz _].
    exists (l1 ++ l2). split.
    + rewrite Hl2, Hl1. now rewrite app_assoc.
    + rewrite count_SyncData_app, Hz. lia.
  - intros time_NULL e. exists [Session_SyncData].
    unfold MozcEngine_delete, SyncData. simpl. repeat split.
Qed.

(** ** Configuration updates *)

Lemma session_SetConfig_SyncData_calls c (e : MozcEngine Sess) :
  log (session_SyncData (snd (session_SetConfig c e)))
  = log e ++ [Session_SetConfig c; Session_SyncData].
Proof.
  unfold session_SyncData, session_SetConfig.
  destruct (client.SetConfig (session_ e) c) as [ok s]. simpl.
  now rewrite <- app_assoc.
Qed.

(** What [UpdateConfig] does with a notification that names the section,
    the field and the value, on the build that compiles its body. *)
Lemma UpdateConfig_validated name gvalue (e : MozcEngine Sess) :
  OS_CHROMEOS = true ->
  match validate_update name gvalue with
  | Some c =>
      UpdateConfig (Some kMozcSectionName) (Some name) (Some gvalue) e
      = session_SyncData (snd (session_SetConfig c e))
  | None =>
      exists message,
        UpdateConfig (Some kMozcSectionName) (Some name) (Some gvalue) e
        = emit (LOG_ERROR message) e
  end.
Proof.
  intros Hos. unfold UpdateConfig, validate_update. rewrite Hos.
  simpl negb. cbv iota zeta.
  destruct (FindFieldByName name) as [field|]; [|eexists; reflexivity].
  destruct (cpp_type field); try (eexists; reflexivity);
    destruct gvalue; try (eexists; reflexivity).
  - destruct (session_SetConfig _ e); reflexivity.
  - destruct (session_SetConfig _ e); reflexivity.
  - destruct (FindEnumValueByName s); [|eexists; reflexivity].
    destruct (session_SetConfig _ e); reflexivity.
Qed.

Lemma SetConfig_then_SyncData c (e : MozcEngine Sess) :
  (let '(_, e0) := session_SetConfig c e in session_SyncData e0)
  = session_SyncData (snd (session_SetConfig c e)).
Proof. now destruct (session_SetConfig c e). Qed.

Lemma UpdateConfig_cases section_ name gvalue (e : MozcEngine Sess) :
  UpdateConfig section_ name gvalue e = e
  \/ (exists message,
        UpdateConfig section_ name gvalue e = emit (LOG_ERROR message) e)
  \/ (exists c, UpdateConfig section_ name gvalue e
                = session_SyncData (snd (session_SetConfig c e))).
Proof.
  unfold UpdateConfig.
  destruct OS_CHROMEOS; [|now left]. simpl negb. cbv iota.
  destruct section_ as [sec|], name as [n|], gvalue as [v|]; try (now left).
  destruct (negb (String.eqb sec kMozcSectionName)); [now left|]. cbv zeta.
  destruct (FindFieldByName n) as [field|]; [|right; left; eexists; reflexivity].
  destruct (cpp_type field); try (right; left; eexists; reflexivity);
    destruct v; try (right; left; eexists; reflexivity);
    try (right; right; eexists; apply SetConfig_then_SyncData).
  match goal with
  | |- context [FindEnumValueByName ?x] => destruct (FindEnumValueByName x)
  end; [|right; left; eexists; reflexivity].
  right; right; eexists; apply SetConfig_then_SyncData.
Qed.

(** C7 (amended): on the build that compiles the body of [UpdateConfig]
    (the in-process one), a notification for the expected section whose
    field is unknown or whose value does not fit the field's type is
    dropped with one diagnostic and nothing else; otherwise the value is
    applied to a fresh configuration, which is pushed with [SetConfig]
    followed by [SyncData].  On the other build the notification is
    ignored altogether. *)
Theorem C7_config_update name gvalue (e : MozcEngine Sess) :
  let e' := UpdateConfig (Some kMozcSectionName) (Some name) (Some gvalue) e in
  (OS_CHROMEOS = true ->
     match validate_update name gvalue with
     | None =>
         exists message,
           e' = emit (LOG_ERROR message) e
           /\ log e' = log e ++ [LOG_ERROR message]
           /\ session_ e' = session_ e
     | Some c =>
         e' = session_SyncData (snd (session_SetConfig c e))
         /\ log e' = log e ++ [Session_SetConfig c; Session_SyncData]
     end)
  /\ (OS_CHROMEOS = false ->
      e' = e
      /\ ConfigValueChanged (Some kMozcSectionName) (Some name) (Some gvalue) e
         = e).
Proof.
  intros e'. split; intros Hos.
  - pose proof (UpdateConfig_validated name gvalue e Hos) as Hv. fold e' in Hv.
    destruct (validate_update name gvalue) as [c|].
    + split; [exact Hv|]. rewrite Hv. apply session_SetConfig_SyncData_calls.
    + destruct Hv as [message Hv]. exists message.
      split; [exact Hv|]. rewrite Hv. split; reflexivity.
  - unfold e', ConfigValueChanged, UpdateConfig. rewrite Hos. split; reflexivity.
Qed.

(** ** Candidate ids *)

Lemma push_candidate_ids_spec cs : forall ids,
  push_candidate_ids cs ids = ids ++ map candidate_id_or_sentinel cs.
Proof.
  induction cs as [|c rest IH]; intros ids; simpl.
  - now rewrite app_nil_r.
  - rewrite IH, <- app_assoc. reflexivity.
Qed.

Lemma UpdateCandidates_ids output (e : MozcEngine Sess) :
  unique_candidate_ids_ (UpdateCandidates output e)
  = match candidates output with
    | None => []
    | Some cands => map candidate_id_or_sentinel (candidate cands)
    end.
Proof.
  unfold UpdateCandidates. destruct (candidates output) as [cands|];
    [|reflexivity].
  cbv zeta. simpl unique_candidate_ids_ at 1.
  rewrite push_candidate_ids_spec.
  destruct (focused_index cands); reflexivity.
Qed.

Lemma last_rendered_rows_app (l1 l2 : list Event) :
  last_rendered_rows (l1 ++ l2) = fold_left rows_after l2 (last_rendered_rows l1).
Proof. unfold last_rendered_rows. apply fold_left_app. Qed.

Lemma UpdateCandidates_rows output (e : MozcEngine Sess) :
  last_rendered_rows (log (UpdateCandidates output e))
  = match candidates output with
    | None => 0%nat
    | Some cands => List.length (candidate cands)
    end.
Proof.
  unfold UpdateCandidates. destruct (candidates output) as [cands|]; cbv zeta.
  - destruct (focused_index cands); simpl log;
      rewrite <- app_assoc, last_rendered_rows_app; simpl;
      apply length_map.
  - simpl log. rewrite <- app_assoc, last_rendered_rows_app. reflexivity.
Qed.

Lemma CandidateClicked_ignored depth index_ button state (e : MozcEngine Sess) :
  Z.of_nat (List.length (unique_candidate_ids_ e)) <= index_
  \/ nth (Z.to_nat index_) (unique_candidate_ids_ e) 0 = kBadCandidateId ->
  CandidateClicked depth index_ button state e = Done tt e.
Proof.
  intros Hc. unfold CandidateClicked.
  destruct (Z.leb_spec (Z.of_nat (List.length (unique_candidate_ids_ e))) index_)
    as [Hle|Hgt]; [reflexivity|].
  destruct Hc as [Hc|Hc]; [lia|]. rewrite Hc. reflexivity.
Qed.

Lemma revert_event_safe ev : revert_event ev = true -> is_safe ev = true.
Proof.
  unfold revert_event, is_safe. destruct ev; simpl; try reflexivity.
  destruct (type command); simpl; try reflexivity; discriminate.
Qed.

Lemma core_safe (e e' : MozcEngine Sess) : core_step e e' -> adds is_safe e e'.
Proof.
  intros Hc. eapply adds_weaken; [apply core_event_safe | now apply core_step_adds].
Qed.

Lemma RevertSession_safe depth (e0 e : MozcEngine Sess) :
  adds is_safe e0 e -> adds is_safe e0 (engine_of (RevertSession depth e)).
Proof.
  intros H0. apply adds_trans with (e2 := e); [exact H0|].
  eapply adds_weaken; [apply revert_event_safe | apply RevertSession_step].
Qed.

Lemma UpdatePreeditMethod_safe (e0 e : MozcEngine Sess) :
  adds is_safe e0 e -> adds is_safe e0 (UpdatePreeditMethod e).
Proof.
  intros H0. unfold UpdatePreeditMethod, session_GetConfig.
  destruct (client.GetConfig (session_ e)) as [[c|] s].
  - apply adds_same_log with (e := emit Session_GetConfig e); [reflexivity|].
    now apply adds_emit.
  - apply adds_emit; [reflexivity|].
    apply adds_same_log with (e := emit Session_GetConfig e); [reflexivity|].
    now apply adds_emit.
Qed.

Lemma CandidateClicked_safe depth index_ button state (e : MozcEngine Sess) :
  adds is_safe e (engine_of (CandidateClicked depth index_ button state e)).
Proof.
  unfold CandidateClicked.
  destruct (_ <=? index_); [apply adds_refl|].
  destruct (Z.eqb_spec (nth (Z.to_nat index_) (unique_candidate_ids_ e) 0)
                       kBadCandidateId) as [Heq|Hne]; [apply adds_refl|].
  unfold bind, call.
  pose proof (session_SendCommand_calls
                {| type := SELECT_CANDIDATE;
                   id := Some (nth (Z.to_nat index_) (unique_candidate_ids_ e) 0);
                   commands.composition_mode := None |} e) as (Hlog & _).
  destruct (session_SendCommand _ e) as [r e1]. simpl in Hlog. cbn [snd].
  apply adds_trans with (e2 := e1).
  - eexists. split; [exact Hlog|]. unfold is_safe. simpl.
    apply Z.eqb_neq in Hne. unfold kBadCandidateId in Hne. now rewrite Hne.
  - apply core_safe, core_op_UpdateAll.
Qed.

Lemma ProcessKeyEvent_safe depth engine_name keyval keycode modifiers
      (e : MozcEngine Sess) :
  adds is_safe e
       (engine_of (ProcessKeyEvent depth engine_name keyval keycode modifiers e)).
Proof.
  destruct (is_release modifiers) eqn:Hrel.
  - rewrite ProcessKeyEvent_release by assumption. apply adds_refl.
  - rewrite ProcessKeyEvent_press by assumption. cbv zeta.
    assert (H0 : adds is_safe e (before_translate e)).
    { unfold before_translate. destruct OS_CHROMEOS;
        [apply UpdatePreeditMethod_safe|]; apply adds_refl. }
    set (e0 := before_translate e) in *.
    destruct (Translate _ _ _ _ _) as [key|].
    + destruct (_ && _); [now apply adds_emit|].
      unfold session_SendKey.
      destruct (client.SendKey _ key) as [[ok output] s].
      match goal with
      | |- context [set_session_ s ?x] =>
          assert (H1 : adds is_safe e (set_session_ s x))
            by (apply adds_same_log with (e := x); [reflexivity|];
                repeat (apply adds_emit; [reflexivity|]); exact H0)
      end.
      destruct ok; simpl negb; cbv iota.
      * match goal with
        | |- context [UpdateAll depth output ?x] =>
            pose proof (core_safe (core_op_UpdateAll depth output x)) as H2;
              destruct (UpdateAll depth output x)
        end; simpl in *; eapply adds_trans; eassumption.
      * simpl. now apply adds_emit.
    + simpl. repeat (apply adds_emit; [reflexivity|]). exact H0.
Qed.

Lemma Enable_safe depth (e : MozcEngine Sess) :
  adds is_safe e (engine_of (Enable depth e)).
Proof.
  unfold Enable, bind, call, lift, session_EnsureConnection.
  destruct (client.EnsureConnection (session_ e)) as [ok s].
  match goal with
  | |- context [RevertSession depth ?x] =>
      pose proof (@RevertSession_safe depth e x) as Hr;
        destruct (RevertSession depth x)
  end; simpl in *; apply Hr; apply UpdatePreeditMethod_safe;
    (apply adds_same_log with (e := emit Session_EnsureConnection e);
     [reflexivity | apply adds_emit; [reflexivity | apply adds_refl]]).
Qed.

Lemma SyncData_safe force time_NULL (e0 e : MozcEngine Sess) :
  adds is_safe e0 e -> adds is_safe e0 (SyncData force time_NULL e).
Proof.
  intros H0. destruct (SyncData_cases force time_NULL e) as [-> | ->];
    [exact H0|].
  apply adds_same_log with (e := emit Session_SyncData e); [reflexivity|].
  now apply adds_emit.
Qed.

Lemma FocusOut_safe depth time_NULL (e : MozcEngine Sess) :
  adds is_safe e (engine_of (FocusOut depth time_NULL e)).
Proof.
  unfold FocusOut, bind, lift.
  pose proof (@RevertSession_safe depth e e (adds_refl _ e)) as Hr.
  destruct (RevertSession depth e) as [[] e1|e1]; simpl in *; [|exact Hr].
  now apply SyncData_safe.
Qed.

Lemma ConfigValueChanged_safe section_ name gvalue (e : MozcEngine Sess) :
  adds is_safe e (ConfigValueChanged section_ name gvalue e).
Proof.
  unfold ConfigValueChanged. destruct OS_CHROMEOS; [|apply adds_refl].
  destruct (UpdateConfig_cases section_ name gvalue e)
    as [-> | [[message ->] | [c ->]]].
  - apply adds_refl.
  - apply adds_emit; [reflexivity | apply adds_refl].
  - eexists. split; [apply session_SetConfig_SyncData_calls | reflexivity].
Qed.

Lemma dispatch_safe depth c (e : MozcEngine Sess) :
  adds is_safe e (dispatch depth c e).
Proof.
  destruct c; simpl.
  - apply Enable_safe.
  - apply RevertSession_safe, adds_refl.
  - apply adds_emit; [reflexivity | apply adds_refl].
  - apply FocusOut_safe.
  - apply RevertSession_safe, adds_refl.
  - apply ProcessKeyEvent_safe.
  - apply CandidateClicked_safe.
  - apply core_safe, core_op_PropertyActivate.
  - apply adds_refl.
  - apply adds_refl.
  - apply ConfigValueChanged_safe.
Qed.

Lemma run_calls_safe depth calls : forall e : MozcEngine Sess,
  adds is_safe e (run_calls depth calls e).
Proof.
  induction calls as [|c rest IH]; intros e; simpl.
  - apply adds_refl.
  - eapply adds_trans; [apply dispatch_safe | apply IH].
Qed.


(** *** The id list stays aligned with the table on show *)

Lemma aligned_emit ev (e : MozcEngine Sess) :
  is_table_event ev = false -> aligned e -> aligned (emit ev e).
Proof.
  unfold aligned. intros Hev Ha. simpl.
  rewrite last_rendered_rows_app. simpl. rewrite Ha.
  destruct ev; try reflexivity; discriminate Hev.
Qed.

Lemma aligned_frame (e e' : MozcEngine Sess) :
  log e' = log e -> unique_candidate_ids_ e' = unique_candidate_ids_ e ->
  aligned e -> aligned e'.
Proof. unfold aligned. intros -> ->. trivial. Qed.

Lemma aligned_UpdateCandidates output (e : MozcEngine Sess) :
  aligned (UpdateCandidates output e).
Proof.
  unfold aligned. rewrite UpdateCandidates_ids, UpdateCandidates_rows.
  destruct (candidates output); [apply length_map | reflexivity].
Qed.

Lemma aligned_op_ret {A} (a : A) : aligned_op (ret (Sess := Sess) a).
Proof. intros e Ha. exact Ha. Qed.

Lemma aligned_op_bind {A B} (m : M Sess A) (k : A -> M Sess B) :
  aligned_op m -> (forall a, aligned_op (k a)) -> aligned_op (bind m k).
Proof.
  intros Hm Hk e Ha. unfold bind. specialize (Hm e Ha).
  destruct (m e) as [a e'|e']; simpl in *; [now apply Hk | exact Hm].
Qed.

Lemma aligned_op_lift (f : MozcEngine Sess -> MozcEngine Sess) :
  (forall e, aligned e -> aligned (f e)) -> aligned_op (lift f).
Proof. intros Hf e Ha. now apply Hf. Qed.

Lemma aligned_SendCommand command (e : MozcEngine Sess) :
  aligned e -> aligned (snd (session_SendCommand command e)).
Proof.
  intros Ha. destruct (session_SendCommand_calls command e) as (Hlog & _ & Hids).
  apply aligned_frame with (e := emit (Session_SendCommand command) e);
    [exact Hlog | exact Hids | now apply aligned_emit].
Qed.

Lemma aligned_op_SendCommand command :
  aligned_op (call (session_SendCommand command)).
Proof.
  intros e Ha. unfold call. pose proof (aligned_SendCommand command Ha) as Hs.
  destruct (session_SendCommand command e). exact Hs.
Qed.

Lemma aligned_UpdateResult output (e : MozcEngine Sess) :
  aligned e -> aligned (UpdateResult output e).
Proof.
  unfold UpdateResult. destruct (result output); [now apply aligned_emit | trivial].
Qed.

Lemma aligned_UpdatePreedit output (e : MozcEngine Sess) :
  aligned e -> aligned (UpdatePreedit output e).
Proof. unfold UpdatePreedit. destruct (preedit output); now apply aligned_emit. Qed.

Lemma aligned_set_state i st (e : MozcEngine Sess) :
  aligned e -> aligned (ibus_property_set_state i st e).
Proof. now apply aligned_frame. Qed.

Section AlignedCore.
Variable UpdateAll_rec : Output -> M Sess unit.
Hypothesis UpdateAll_rec_aligned : forall output, aligned_op (UpdateAll_rec output).

Lemma aligned_op_SetCompositionMode_ composition_mode :
  aligned_op (SetCompositionMode_ UpdateAll_rec composition_mode).
Proof.
  unfold SetCompositionMode_.
  destruct (CompositionMode_eqb composition_mode DIRECT).
  - apply aligned_op_bind; [apply aligned_op_SendCommand|]. intros r.
    apply aligned_op_bind; [apply UpdateAll_rec_aligned|]. intros _.
    apply aligned_op_lift. intros e. now apply aligned_frame.
  - apply aligned_op_bind; [apply aligned_op_SendCommand|]. intros r.
    apply aligned_op_lift. intros e. now apply aligned_frame.
Qed.

Lemma aligned_op_radio_loop n : forall i property_name,
  aligned_op (radio_loop UpdateAll_rec n i property_name).
Proof.
  induction n as [|n IH]; intros i property_name e; simpl; [trivial|].
  destruct (nth_error (sub_props (prop_composition_mode_ e)) i) as [prop|];
    [|trivial].
  apply aligned_op_bind; [|intros _; apply IH].
  destruct (String.eqb property_name (radio_key prop)).
  - apply aligned_op_bind.
    + destruct (radio_entry prop) as [entry|]; [|apply aligned_op_ret].
      apply aligned_op_bind; [apply aligned_op_SetCompositionMode_|]. intros _.
      apply aligned_op_lift. intros e0. now apply aligned_frame.
    + intros _. apply aligned_op_lift. intros e0. apply aligned_set_state.
  - apply aligned_op_lift. intros e0. apply aligned_set_state.
Qed.

Lemma aligned_op_PropertyActivate_ property_name property_state :
  aligned_op (PropertyActivate_ UpdateAll_rec property_name property_state).
Proof.
  intros e Ha. unfold PropertyActivate_.
  destruct (if OS_CHROMEOS then None
            else match prop_mozc_tool_ e with
                 | Some tool => find_tool_item property_name (tool_sub_props tool)
                 | None => None
                 end) as [prop|].
  - unfold session_LaunchTool.
    destruct (client.LaunchTool _ _ _) as [ok s]. simpl.
    assert (Hs : aligned
              (set_session_ s
                 (emit (Session_LaunchTool
                          (MozcEngineToolProperty.mode (tool_entry prop)) "") e))).
    { match goal with
      | |- aligned (set_session_ _ ?x) =>
          apply aligned_frame with (e := x);
            [reflexivity | reflexivity | now apply aligned_emit]
      end. }
    destruct ok; [exact Hs | now apply aligned_emit].
  - destruct (negb (IBusPropState_eqb property_state PROP_STATE_CHECKED));
      [exact Ha|].
    apply aligned_op_bind; [apply aligned_op_radio_loop | | exact Ha].
    intros _ e0 Ha0. now apply aligned_emit.
Qed.

Lemma aligned_op_activate_entries entries new_composition_mode :
  aligned_op (activate_entries_with_mode UpdateAll_rec entries new_composition_mode).
Proof.
  induction entries as [|entry rest IH]; simpl; [apply aligned_op_ret|].
  apply aligned_op_bind; [|intros _; exact IH].
  destruct (CompositionMode_eqb _ _);
    [apply aligned_op_PropertyActivate_ | apply aligned_op_ret].
Qed.

Lemma aligned_op_UpdateAll_ output : aligned_op (UpdateAll_ UpdateAll_rec output).
Proof.
  unfold UpdateAll_.
  apply aligned_op_bind;
    [apply aligned_op_lift; intros e; apply aligned_UpdateResult | intros _].
  apply aligned_op_bind;
    [apply aligned_op_lift; intros e; apply aligned_UpdatePreedit | intros _].
  apply aligned_op_bind;
    [apply aligned_op_lift; intros e _; apply aligned_UpdateCandidates | intros _].
  intros e Ha. unfold UpdateCompositionMode_.
  destruct (mode output) as [m|]; [|exact Ha].
  destruct (CompositionMode_eqb _ _); [exact Ha|].
  now apply aligned_op_activate_entries.
Qed.
End AlignedCore.

Lemma aligned_op_UpdateAll depth : forall output, aligned_op (UpdateAll depth output).
Proof.
  induction depth as [|d IH]; intros output.
  - intros e Ha. exact Ha.
  - simpl. now apply aligned_op_UpdateAll_.
Qed.

Lemma aligned_op_RevertSession depth : aligned_op (RevertSession depth).
Proof.
  unfold RevertSession.
  apply aligned_op_bind; [apply aligned_op_SendCommand|]. intros [ok output].
  destruct ok; simpl.
  - apply aligned_op_UpdateAll.
  - apply aligned_op_lift. intros e. now apply aligned_emit.
Qed.

Lemma aligned_UpdatePreeditMethod (e : MozcEngine Sess) :
  aligned e -> aligned (UpdatePreeditMethod e).
Proof.
  intros Ha. unfold UpdatePreeditMethod, session_GetConfig.
  destruct (client.GetConfig (session_ e)) as [[c|] s].
  - apply aligned_frame with (e := emit Session_GetConfig e);
      [reflexivity | reflexivity | now apply aligned_emit].
  - apply aligned_emit; [reflexivity|].
    apply aligned_frame with (e := emit Session_GetConfig e);
      [reflexivity | reflexivity | now apply aligned_emit].
Qed.

Lemma aligned_SyncData force time_NULL (e : MozcEngine Sess) :
  aligned e -> aligned (SyncData force time_NULL e).
Proof.
  intros Ha. destruct (SyncData_cases force time_NULL e) as [-> | ->]; [exact Ha|].
  apply aligned_frame with (e := emit Session_SyncData e);
    [reflexivity | reflexivity | now apply aligned_emit].
Qed.

Lemma aligned_dispatch depth c (e : MozcEngine Sess) :
  aligned e -> aligned (dispatch depth c e).
Proof.
  intros Ha. destruct c; simpl.
  - revert e Ha. unfold Enable.
    apply aligned_op_bind; [|intros _; apply aligned_op_bind;
                              [apply aligned_op_lift, aligned_UpdatePreeditMethod
                              |intros _; apply aligned_op_RevertSession]].
    intros e Ha. unfold call, session_EnsureConnection.
    destruct (client.EnsureConnection (session_ e)) as [ok s]. simpl.
    apply aligned_frame with (e := emit Session_EnsureConnection e);
      [reflexivity | reflexivity | now apply aligned_emit].
  - now apply aligned_op_RevertSession.
  - now apply aligned_emit.
  - revert e Ha. unfold FocusOut.
    apply aligned_op_bind; [apply aligned_op_RevertSession|]. intros _.
    apply aligned_op_lift. intros e. apply aligned_SyncData.
  - now apply aligned_op_RevertSession.
  - destruct (is_release modifiers) eqn:Hrel.
    + now rewrite ProcessKeyEvent_release.
    + rewrite ProcessKeyEvent_press by assumption. cbv zeta.
      assert (H0 : aligned (before_translate e)).
      { unfold before_translate. destruct OS_CHROMEOS;
          [now apply aligned_UpdatePreeditMethod | exact Ha]. }
      set (e0 := before_translate e) in *.
      destruct (Translate _ _ _ _ _) as [key|].
      * destruct (_ && _); [now apply aligned_emit|].
        unfold session_SendKey.
        destruct (client.SendKey _ key) as [[ok output] s].
        match goal with
        | |- context [set_session_ s ?x] =>
            assert (H1 : aligned (set_session_ s x))
              by (apply aligned_frame with (e := x);
                  [reflexivity | reflexivity |];
                  repeat (apply aligned_emit; [reflexivity|]); exact H0)
        end.
        destruct ok; simpl negb; cbv iota.
        -- match goal with
           | |- context [UpdateAll depth output ?x] =>
               pose proof (aligned_op_UpdateAll depth output H1) as H2;
                 destruct (UpdateAll depth output x)
           end; simpl in *; exact H2.
        -- simpl. now apply aligned_emit.
      * simpl. repeat (apply aligned_emit; [reflexivity|]). exact H0.
  - unfold CandidateClicked.
    destruct (_ <=? index_); [exact Ha|].
    destruct (_ =? kBadCandidateId); [exact Ha|].
    apply aligned_op_bind;
      [apply aligned_op_SendCommand | intros r; apply aligned_op_UpdateAll
      | exact Ha].
  - revert e Ha. apply aligned_op_PropertyActivate_, aligned_op_UpdateAll.
  - exact Ha.
  - exact Ha.
  - unfold ConfigValueChanged. destruct OS_CHROMEOS; [|exact Ha].
    destruct (UpdateConfig_cases section name gvalue e)
      as [-> | [[message ->] | [c ->]]].
    + exact Ha.
    + now apply aligned_emit.
    + unfold session_SyncData, session_SetConfig.
      destruct (client.SetConfig (session_ e) c) as [ok s]. simpl.
      apply aligned_frame
        with (e := emit Session_SyncData (emit (Session_SetConfig c) e));
        [reflexivity | reflexivity |].
      repeat (apply aligned_emit; [reflexivity|]). exact Ha.
Qed.

Lemma aligned_run_calls depth calls : forall e : MozcEngine Sess,
  aligned e -> aligned (run_calls depth calls e).
Proof.
  induction calls as [|c rest IH]; intros e Ha; simpl; [exact Ha|].
  apply IH. now apply aligned_dispatch.
Qed.

(** C3: every update of the candidate list leaves one id per row of the
    table it has just shown, the sentinel for a row without id, and no id
    when the output has no candidates; whatever the host calls, from the
    construction of the engine on, the id list has as many entries as the
    table last shown has rows; a click on a row out of range or on a
    sentinel row does nothing; and no SELECT_CANDIDATE with the sentinel id
    is ever sent. *)
Theorem C3_candidate_ids_aligned :
  (forall output (e : MozcEngine Sess),
      let e' := UpdateCandidates output e in
      unique_candidate_ids_ e'
      = match candidates output with
        | None => []
        | Some cands => map candidate_id_or_sentinel (candidate cands)
        end
      /\ List.length (unique_candidate_ids_ e') = last_rendered_rows (log e'))
  /\ (forall depth calls time_NULL (s : Sess),
        aligned (run_calls depth calls (MozcEngine_new time_NULL s)))
  /\ (forall depth index_ button state (e : MozcEngine Sess),
        Z.of_nat (List.length (unique_candidate_ids_ e)) <= index_
        \/ nth (Z.to_nat index_) (unique_candidate_ids_ e) 0 = kBadCandidateId ->
        CandidateClicked depth index_ button state e = Done tt e)
  /\ (forall depth calls time_NULL (s : Sess),
        existsb selects_bad_candidate
                (log (run_calls depth calls (MozcEngine_new time_NULL s)))
        = false).
Proof.
  split; [|split; [|split]].
  - intros output e e'. unfold e'.
    rewrite UpdateCandidates_ids, UpdateCandidates_rows.
    split; [reflexivity|].
    destruct (candidates output); [apply length_map | reflexivity].
  - intros depth calls time_NULL s. apply aligned_run_calls. reflexivity.
  - apply CandidateClicked_ignored.
  - intros depth calls time_NULL s.
    destruct (run_calls_safe depth calls (MozcEngine_new time_NULL s))
      as (l & Hl & Hsafe).
    unfold calls_between in Hl. simpl in Hl. rewrite Hl.
    clear Hl. induction l as [|ev l IH]; [reflexivity|].
    simpl in *. apply andb_true_iff in Hsafe. destruct Hsafe as [Hev Hl].
    unfold is_safe in Hev. apply negb_true_iff in Hev. rewrite Hev.
    now apply IH.
Qed.

(** ** Property activation *)

Lemma nth_error_set_nth_state i st items : forall j,
  nth_error (set_nth_state i st items) j
  = if Nat.eqb i j then option_map (with_state st) (nth_error items j)
    else nth_error items j.
Proof.
  revert i. induction items as [|p rest IH]; intros i j.
  - destruct i, j; simpl; try reflexivity; now destruct (Nat.eqb _ _).
  - destruct i as [|i], j as [|j]; simpl; try reflexivity. apply IH.
Qed.

Lemma uncheck_range_frame n : forall i (e : MozcEngine Sess),
  log (uncheck_range n i e) = log e
  /\ session_ (uncheck_range n i e) = session_ e
  /\ current_composition_mode_ (uncheck_range n i e) = current_composition_mode_ e
  /\ menu_icon (prop_composition_mode_ (uncheck_range n i e))
     = menu_icon (prop_composition_mode_ e)
  /\ map radio_key (sub_props (prop_composition_mode_ (uncheck_range n i e)))
     = map radio_key (sub_props (prop_composition_mode_ e)).
Proof.
  induction n as [|n IH]; intros i e; simpl; [repeat split|].
  destruct (nth_error _ i); [|repeat split].
  destruct (IH (S i) (ibus_property_set_state i PROP_STATE_UNCHECKED e))
    as (A1 & A2 & A3 & A4 & A5).
  rewrite A1, A2, A3, A4, A5. simpl. rewrite set_nth_state_keys. repeat split.
Qed.

Lemma uncheck_range_nth n : forall i (e : MozcEngine Sess) j,
  nth_error (sub_props (prop_composition_mode_ (uncheck_range n i e))) j
  = if (i <=? j)%nat && (j <? i + n)%nat
    then option_map (with_state PROP_STATE_UNCHECKED)
                    (nth_error (sub_props (prop_composition_mode_ e)) j)
    else nth_error (sub_props (prop_composition_mode_ e)) j.
Proof.
  induction n as [|n IH]; intros i e j; cbn [uncheck_range].
  - replace ((i <=? j)%nat && (j <? i + 0)%nat) with false; [reflexivity|].
    symmetry. apply andb_false_iff.
    destruct (Nat.leb_spec i j); [right; apply Nat.ltb_ge; lia | now left].
  - destruct (nth_error (sub_props (prop_composition_mode_ e)) i) eqn:Hi.
    + rewrite IH.
      cbn [ibus_property_set_state set_prop_composition_mode_
           prop_composition_mode_ sub_props].
      rewrite nth_error_set_nth_state.
      destruct (Nat.eqb_spec i j) as [<-|Hne].
      * replace ((S i <=? i)%nat && (i <? S i + n)%nat) with false
          by (symmetry; apply andb_false_iff; left; apply Nat.leb_gt; lia).
        replace ((i <=? i)%nat && (i <? i + S n)%nat) with true; [reflexivity|].
        symmetry. apply andb_true_iff. split;
          [apply Nat.leb_le | apply Nat.ltb_lt]; lia.
      * replace ((S i <=? j)%nat && (j <? S i + n)%nat)
          with ((i <=? j)%nat && (j <? i + S n)%nat); [reflexivity|].
        destruct (Nat.leb_spec i j), (Nat.leb_spec (S i) j),
                 (Nat.ltb_spec j (i + S n)), (Nat.ltb_spec j (S i + n));
          cbn [andb]; try reflexivity; lia.
    + apply nth_error_None in Hi.
      destruct ((i <=? j)%nat && (j <? i + S n)%nat) eqn:Hw; [|reflexivity].
      apply andb_true_iff in Hw. destruct Hw as [Hw _].
      apply Nat.leb_le in Hw.
      assert (Hj : nth_error (sub_props (prop_composition_mode_ e)) j = None)
        by (apply nth_error_None; lia).
      now rewrite Hj.
Qed.

Lemma uncheck_all_states (e : MozcEngine Sess) :
  sub_props (prop_composition_mode_ (uncheck_all e))
  = map (with_state PROP_STATE_UNCHECKED) (sub_props (prop_composition_mode_ e)).
Proof.
  apply nth_error_ext. intros j. unfold uncheck_all.
  rewrite uncheck_range_nth, nth_error_map. simpl.
  destruct (Nat.ltb_spec j (List.length (sub_props (prop_composition_mode_ e))))
    as [Hlt|Hge]; [reflexivity|].
  apply nth_error_None in Hge. now rewrite Hge.
Qed.

Lemma radio_loop_foreign UpdateAll_rec property_name n :
  forall i (e : MozcEngine Sess),
    in_radio_namespace property_name e = false ->
    radio_loop UpdateAll_rec n i property_name e = Done tt (uncheck_range n i e).
Proof.
  induction n as [|n IH]; intros i e Hf; simpl; [reflexivity|].
  destruct (nth_error (sub_props (prop_composition_mode_ e)) i) as [prop|] eqn:Hi;
    [|reflexivity].
  assert (Hk : String.eqb property_name (radio_key prop) = false).
  { unfold in_radio_namespace in Hf.
    destruct (String.eqb property_name (radio_key prop)) eqn:Hk; [|reflexivity].
    assert (Hex : existsb (String.eqb property_name)
                    (map radio_key (sub_props (prop_composition_mode_ e))) = true).
    { apply existsb_exists. exists (radio_key prop). split; [|exact Hk].
      apply in_map. eapply nth_error_In. exact Hi. }
    congruence. }
  rewrite Hk. unfold bind, lift. apply IH.
  unfold in_radio_namespace in *. simpl. now rewrite set_nth_state_keys.
Qed.

Lemma find_tool_item_none property_name (items : list ToolItem) :
  existsb (String.eqb property_name) (map tool_key items) = false ->
  find_tool_item property_name items = None.
Proof.
  unfold find_tool_item. induction items as [|p rest IH]; simpl; [reflexivity|].
  intros Hf. apply orb_false_iff in Hf. destruct Hf as [Hp Hrest].
  rewrite Hp. now apply IH.
Qed.

(** What the activation of a key of neither namespace does: nothing when
    the state is not "checked"; otherwise it unchecks every item of the
    radio menu and pushes the menu to the host.  No session call is made
    and the icon and the composition mode stay. *)
Lemma PropertyActivate_foreign_key depth property_name property_state
      (e : MozcEngine Sess) :
  in_tool_namespace property_name e = false ->
  in_radio_namespace property_name e = false ->
  PropertyActivate depth property_name property_state e
  = if IBusPropState_eqb property_state PROP_STATE_CHECKED
    then Done tt (emit (ibus_engine_update_property
                          (prop_composition_mode_ (uncheck_all e)))
                       (uncheck_all e))
    else Done tt e.
Proof.
  intros Htool Hradio. unfold PropertyActivate, PropertyActivate_.
  assert (Hhit : (if OS_CHROMEOS then None
                  else match prop_mozc_tool_ e with
                       | Some tool =>
                           find_tool_item property_name (tool_sub_props tool)
                       | None => None
                       end) = None).
  { unfold in_tool_namespace in Htool. destruct OS_CHROMEOS; [reflexivity|].
    destruct (prop_mozc_tool_ e) as [tool|]; [|reflexivity].
    now apply find_tool_item_none. }
  rewrite Hhit.
  destruct (IBusPropState_eqb property_state PROP_STATE_CHECKED); simpl negb;
    cbv iota; [|reflexivity].
  unfold bind. rewrite radio_loop_foreign by assumption. reflexivity.
Qed.

End EngineFacts.

(** ** The quality harness *)

Section HarnessFacts.
Context {util : quality.Util} {scorer : quality.Scorer}.
Context {C : Type} {client : quality.Client C}.

Import quality.

Lemma CalculateBLEU_unfold hiragana_sentence expected_result (w : World) :
  CalculateBLEU hiragana_sentence expected_result w =
  match GenerateKeySequenceFrom hiragana_sentence with
  | None =>
      (None, note (LOG_WARNING ("Failed to generated key events from: "
                                ++ hiragana_sentence)%string) w)
  | Some keys =>
      let '(output, w1) :=
        send_keys (key_of_special ON :: keys) no_output w in
      let w2 := note (Scorer_NormalizeForEvaluate expected_result) w1 in
      let goldens := [NormalizeForEvaluate expected_result] in
      match GetPreedit output with
      | None =>
          (None, note (LOG_WARNING "Could not get output")
                      (note (LOG_WARNING "No result") w2))
      | Some preedit_ =>
          if is_empty preedit_ then
            (None, note (LOG_WARNING "Could not get output") w2)
          else
            let w3 := note (Scorer_NormalizeForEvaluate preedit_) w2 in
            let w4 := note (Scorer_BLEUScore goldens
                              (NormalizeForEvaluate preedit_)) w3 in
            (Some (BLEUScore goldens (NormalizeForEvaluate preedit_)),
             snd (client_SendCommand REVERT_command w4))
      end
  end.
Proof.
  unfold CalculateBLEU.
  destruct (GenerateKeySequenceFrom hiragana_sentence) as [keys|]; [|reflexivity].
  cbn [send_keys].
  destruct (client_SendKey (key_of_special ON) w) as [o1 w1].
  destruct (send_keys keys o1 w1) as [output w2]. cbv zeta.
  destruct (GetPreedit output) as [preedit_|]; [|reflexivity].
  destruct (is_empty preedit_); [reflexivity|].
  fold REVERT_command.
  destruct (client_SendCommand REVERT_command _). reflexivity.
Qed.

Lemma client_SendCommand_trace command (w : World) :
  trace (snd (client_SendCommand command w))
  = trace w ++ [Client_SendCommand command].
Proof.
  unfold client_SendCommand.
  destruct (SendCommand (client_ w) command) as [[ok output] c]. reflexivity.
Qed.

(** C9 (amended): for every test case the harness scores, the string it
    normalises and scores against the expected result is the text of the
    preedit of the reply to the last key (the concatenation of its segment
    values, which must not be empty); the committed text of the reply plays
    no part.  Right after scoring the harness sends REVERT.  A case whose
    keys cannot be generated or whose last reply has no preedit text is not
    scored. *)
Theorem C9_harness_scores_preedit hiragana_sentence expected_result (w : World) :
  let r := CalculateBLEU hiragana_sentence expected_result w in
  match GenerateKeySequenceFrom hiragana_sentence with
  | None => fst r = None
  | Some keys =>
      let output :=
        fst (send_keys (key_of_special ON :: keys) no_output w) in
      let w1 := snd (send_keys (key_of_special ON :: keys) no_output w) in
      let goldens := [NormalizeForEvaluate expected_result] in
      match preedit output with
      | None => fst r = None
      | Some p =>
          let scored := preedit_data (segment p) in
          if is_empty scored then fst r = None
          else
            fst r = Some (BLEUScore goldens (NormalizeForEvaluate scored))
            /\ trace (snd r)
               = trace w1
                 ++ [Scorer_NormalizeForEvaluate expected_result;
                     Scorer_NormalizeForEvaluate scored;
                     Scorer_BLEUScore goldens (NormalizeForEvaluate scored);
                     Client_SendCommand REVERT_command]
      end
  end.
Proof.
  intros r. unfold r. rewrite CalculateBLEU_unfold.
  destruct (GenerateKeySequenceFrom hiragana_sentence) as [keys|]; [|reflexivity].
  destruct (send_keys (key_of_special ON :: keys) no_output w)
    as [output w1].
  cbv zeta. cbn [fst snd]. unfold GetPreedit.
  destruct (preedit output) as [p|]; [|reflexivity].
  destruct (is_empty (preedit_data (segment p))); [reflexivity|].
  cbn [fst snd]. split; [reflexivity|].
  rewrite client_SendCommand_trace. simpl. rewrite <- !app_assoc. reflexivity.
Qed.
Lemma keys_for_app chars : forall keys,
  keys_for chars keys
  = match keys_for chars [] with
    | Some ks => Some (keys ++ ks)
    | None => None
    end.
Proof.
  induction chars as [|c rest IH]; intros keys; simpl.
  - now rewrite app_nil_r.
  - destruct (key_for_ucs4 c) as [k|]; [|reflexivity].
    rewrite IH. rewrite (IH [k]).
    destruct (keys_for rest []); [|reflexivity].
    now rewrite <- app_assoc.
Qed.

(** X3: a generated key sequence has one key per character of the
    normalised reading, in order, followed by SPACE; the ideographic full
    stop is typed as the key code 0x2E, and a character without key makes
    the generation fail. *)
Theorem X3_key_sequence hiragana_sentence :
  let chars := Chars32 (FullWidthToHalfWidth (HiraganaToRomanji hiragana_sentence)) in
  key_for_ucs4 0x3002 = Some (key_of_code 0x2E)
  /\ match GenerateKeySequenceFrom hiragana_sentence with
     | Some keys =>
         exists ks, keys = ks ++ [key_of_special SPACE]
                    /\ map key_for_ucs4 chars = map Some ks
     | None => exists c, In c chars /\ key_for_ucs4 c = None
     end.
Proof.
  intros chars. split; [reflexivity|].
  unfold GenerateKeySequenceFrom. fold chars. clearbody chars.
  induction chars as [|c rest IH]; simpl.
  - exists []. split; reflexivity.
  - destruct (key_for_ucs4 c) as [k|] eqn:Hk.
    + rewrite keys_for_app. destruct (keys_for rest []) as [ks|].
      * destruct IH as (ks' & E & Hm).
        apply app_inj_tail in E. destruct E as [<- _].
        exists (k :: ks). split; [reflexivity|]. simpl. now rewrite Hm.
      * destruct IH as (c' & Hin & Hc'). exists c'. split; [now right | exact Hc'].
    + exists c. split; [now left | exact Hk].
Qed.

End HarnessFacts.

(** ** Concrete runs *)

Section Runs.
Import sample.

Local Existing Instance sample.schema.
Local Existing Instance sample.collaborators.
Local Existing Instance sample.session.

(** A release of "a" leaves the engine untouched. *)
Lemma C2_witness :
  is_release (Z.shiftl 1 30) = true
  /\ ProcessKeyEvent (build := linux) 1 "mozc-jp" 97 38 (Z.shiftl 1 30) e_linux
     = Done false e_linux.
Proof.
  split; [reflexivity|].
  apply (C2_release_event_rejected (build := linux)). reflexivity.
Defined.

(** "a" typed in DIRECT mode on the client/server build: the translator is
    asked and nobody else; Henkan goes to the session. *)
Lemma C1_witness :
  ProcessKeyEvent (build := linux) 1 "mozc-jp" 97 38 0 e_linux
  = Done false (emit (KeyTranslator_Translate 97 38 0 config.ROMAN true) e_linux)
  /\ exists l,
       log (engine_of (ProcessKeyEvent (build := linux) 1 "mozc-jp"
                                       IBUS_Henkan 100 0 e_linux))
       = KeyTranslator_Translate IBUS_Henkan 100 0 config.ROMAN true
         :: Session_SendKey {| key_code := None; special_key := Some HENKAN |}
         :: l.
Proof.
  split.
  - refine (proj1 (proj1 (@C1_direct_mode_fast_reject linux _ _ _ _
                            1 "mozc-jp" 97 38 0 e_linux
                            {| key_code := Some 97; special_key := None |}
                            _ _ _) _));
      reflexivity.
  - refine (proj2 (@C1_direct_mode_fast_reject linux _ _ _ _
                     1 "mozc-jp" IBUS_Henkan 100 0 e_linux
                     {| key_code := None; special_key := Some HENKAN |}
                     _ _ _) _);
      reflexivity.
Defined.

(** On the in-process build the same key costs a [GetConfig]: the claim
    that the rejected key causes no session call at all fails there. *)
Lemma C1_counterexample :
  let r := ProcessKeyEvent (build := chromeos) 1 "mozc-jp" 97 38 0 e_chromeos in
  current_composition_mode_ e_chromeos = DIRECT
  /\ Translate 97 38 0 config.KANA true
     = Some {| key_code := Some 97; special_key := None |}
  /\ IsTurnOnInDirectMode {| key_code := Some 97; special_key := None |} = false
  /\ (exists e', r = Done false e')
  /\ filter is_session_call (log (engine_of r)) = [Session_GetConfig]
  /\ filter is_session_call (log (engine_of r)) <> [].
Proof.
  cbv zeta. repeat split; try reflexivity.
  - eexists. reflexivity.
  - discriminate.
Defined.

(** A sync seven minutes after the last one. *)
Lemma C10_witness :
  0 <= last_sync_time_ e_linux
  /\ log (SyncData false 1420 e_linux) = [Session_SyncData]
  /\ SyncData false 1100 e_linux = e_linux
  /\ SyncData false 900 e_linux = e_linux.
Proof.
  assert (Hpos : 0 <= last_sync_time_ e_linux) by (vm_compute; discriminate).
  pose proof (@C10_sync_condition _ _ _ 1420 e_linux Hpos) as (W1 & _ & _).
  pose proof (@C10_sync_condition _ _ _ 1100 e_linux Hpos) as (_ & W2 & _).
  pose proof (@C10_sync_condition _ _ _ 900 e_linux Hpos) as (_ & W3 & _).
  cbv zeta in *.
  split; [exact Hpos|]. split; [|split].
  - apply W1. vm_compute. split; discriminate.
  - apply W2. right. vm_compute. reflexivity.
  - apply W3. left. vm_compute. reflexivity.
Defined.

(** On the client/server build a well-typed update of a known field
    reaches nobody: the claim that it is pushed with [SetConfig] and
    [SyncData] fails there, as does the promise of a diagnostic for an
    unknown field. *)
Lemma C7_counterexample :
  validate_update "incognito_mode" (G_TYPE_BOOLEAN true)
  = Some [("incognito_mode", BoolValue true)]
  /\ log (UpdateConfig (build := linux) (Some kMozcSectionName)
            (Some "incognito_mode") (Some (G_TYPE_BOOLEAN true)) e_linux)
     = []
  /\ validate_update "no_such_field" (G_TYPE_BOOLEAN true) = None
  /\ log (UpdateConfig (build := linux) (Some kMozcSectionName)
            (Some "no_such_field") (Some (G_TYPE_BOOLEAN true)) e_linux)
     = [].
Proof. repeat split. Defined.

(** The same updates on the in-process build. *)
Lemma C7_witness :
  log (UpdateConfig (build := chromeos) (Some kMozcSectionName)
         (Some "incognito_mode") (Some (G_TYPE_BOOLEAN true)) e_chromeos)
  = [Session_SetConfig [("incognito_mode", BoolValue true)]; Session_SyncData]
  /\ exists message,
       UpdateConfig (build := chromeos) (Some kMozcSectionName)
         (Some "verbose_level") (Some (G_TYPE_STRING "1")) e_chromeos
       = emit (LOG_ERROR message) e_chromeos.
Proof.
  split.
  - exact (proj2 (proj1 (@C7_config_update chromeos _ _ _
                           "incognito_mode" (G_TYPE_BOOLEAN true) e_chromeos)
                        eq_refl)).
  - destruct (proj1 (@C7_config_update chromeos _ _ _
                       "verbose_level" (G_TYPE_STRING "1") e_chromeos) eq_refl)
      as (message & Hm & _).
    exists message. exact Hm.
Defined.

(** C8, at the failing input: the activation of a key of neither namespace
    with state "checked" on the constructed engine.  No session call is
    made and the mode stays DIRECT, but the checked entry of the radio menu
    is unchecked and the menu is pushed to the host. *)
Theorem C8_foreign_key_unchecks_radio_menu :
  let r := PropertyActivate (build := linux) 1 "InputMode.Foreign"
                            PROP_STATE_CHECKED e_linux in
  in_tool_namespace (build := linux) "InputMode.Foreign" e_linux = false
  /\ in_radio_namespace "InputMode.Foreign" e_linux = false
  /\ radio_states e_linux
     = [PROP_STATE_CHECKED; PROP_STATE_UNCHECKED; PROP_STATE_UNCHECKED]
  /\ completed r = true
  /\ radio_states (engine_of r)
     = [PROP_STATE_UNCHECKED; PROP_STATE_UNCHECKED; PROP_STATE_UNCHECKED]
  /\ current_composition_mode_ (engine_of r) = DIRECT
  /\ menu_icon (prop_composition_mode_ (engine_of r))
     = menu_icon (prop_composition_mode_ e_linux)
  /\ filter is_session_call (log (engine_of r)) = []
  /\ log (engine_of r)
     = [ibus_engine_update_property (prop_composition_mode_ (engine_of r))].
Proof. cbv zeta. repeat split. Qed.

(** After a conversion with three candidates the ids are 10, the sentinel
    and 12; clicks on the second row and beyond the list do nothing. *)
Lemma C3_witness :
  unique_candidate_ids_ e_converting = [10; -1; 12]
  /\ aligned e_converting
  /\ CandidateClicked (build := linux) 1 1 1 0 e_converting = Done tt e_converting
  /\ CandidateClicked (build := linux) 1 3 1 0 e_converting = Done tt e_converting.
Proof.
  pose proof (@C3_candidate_ids_aligned linux _ _ _ _) as (_ & W2 & W3 & _).
  split; [reflexivity|]. split; [|split].
  - exact (W2 2%nat henkan_pressed 1000
              [(true, output_converting); (true, no_output)]).
  - apply W3. right. reflexivity.
  - apply W3. left. vm_compute. discriminate.
Defined.

(** Two focus changes 400 and 500 seconds after the construction: the first
    syncs, the second does not. *)
Lemma C6_witness :
  let e1 := engine_of (FocusOut (build := linux) 1 1400 e_linux) in
  let e2 := engine_of (FocusOut (build := linux) 1 1500 e1) in
  GetTime 1500 - last_sync_time_ e1 < kSyncDataInterval
  /\ count_SyncData (log e2) = 1%nat
  /\ exists l, log e2 = log e_linux ++ l /\ (count_SyncData l <= 1)%nat.
Proof.
  cbv zeta.
  assert (Hlt : GetTime 1500
                - last_sync_time_ (engine_of (FocusOut (build := linux) 1 1400 e_linux))
                < kSyncDataInterval) by (vm_compute; reflexivity).
  split; [exact Hlt|]. split; [reflexivity|].
  exact (proj1 (@C6_debounced_sync linux _ _ _ _) 1%nat 1400 1500 e_linux Hlt).
Defined.

(** F1 has no mapping; Henkan is mapped but the session does not answer. *)
Lemma X4_witness :
  ProcessKeyEvent (build := linux) 1 "mozc-jp" 0xffbe 67 0 e_linux
  = Done false (emit (LOG_ERROR "Translate failed")
                     (emit (KeyTranslator_Translate 0xffbe 67 0 config.ROMAN true)
                           e_linux))
  /\ log (engine_of (ProcessKeyEvent (build := linux) 1 "mozc-jp"
                                     IBUS_Henkan 100 0 e_linux))
     = [KeyTranslator_Translate IBUS_Henkan 100 0 config.ROMAN true;
        Session_SendKey {| key_code := None; special_key := Some HENKAN |};
        LOG_ERROR "SendKey failed"].
Proof.
  split.
  - refine (proj1 (proj1 (@X4_failed_key_rejected linux _ _ _ _
                            1%nat "mozc-jp" 0xffbe 67 0 e_linux) _ _));
      reflexivity.
  - refine (proj2 (proj2 (@X4_failed_key_rejected linux _ _ _ _
                            1%nat "mozc-jp" IBUS_Henkan 100 0 e_linux)
                         {| key_code := None; special_key := Some HENKAN |}
                         _ _ _ _));
      try reflexivity. right. reflexivity.
Defined.

Local Existing Instance sample.util.
Local Existing Instance sample.scorer.
Local Existing Instance sample.scripted_client.

(** The harness on the reading "a": the reply to SPACE carries the preedit
    "abc" and no committed text; "abc" is what is scored.  The claim that
    the committed text is scored fails here. *)
Lemma C9_counterexample :
  let r := quality.CalculateBLEU "a" "abc" (world conversion_script) in
  result output_converting = None
  /\ fst (quality.send_keys
            [quality.key_of_special ON; quality.key_of_code 97;
             quality.key_of_special SPACE] no_output (world conversion_script))
     = output_converting
  /\ fst r = Some (["abc"], "abc")
  /\ quality.normalized_inputs (quality.trace (snd r)) = ["abc"; "abc"]
  /\ result output_converting <> Some "abc".
Proof. cbv zeta. repeat split. discriminate. Defined.

Lemma C9_witness :
  quality.trace (snd (quality.CalculateBLEU "a" "abc" (world conversion_script)))
  = [ quality.Client_SendKey (quality.key_of_special ON);
      quality.Client_SendKey (quality.key_of_code 97);
      quality.Client_SendKey (quality.key_of_special SPACE);
      quality.Scorer_NormalizeForEvaluate "abc";
      quality.Scorer_NormalizeForEvaluate "abc";
      quality.Scorer_BLEUScore ["abc"] "abc";
      quality.Client_SendCommand REVERT_command ].
Proof.
  exact (proj2 (@C9_harness_scores_preedit _ _ _ _ "a" "abc"
                  (world conversion_script))).
Defined.
End Runs.

(** * Further properties of the code *)

(** ** The preedit again *)



(** ** The candidate window again *)

Lemma scan_cursor_pos_spec focused cs : forall i acc,
  scan_cursor_pos focused cs i acc
  = match last_position_of focused cs with
    | Some k => i + Z.of_nat k
    | None => acc
    end.
Proof.
  induction cs as [|c rest IH]; intros i acc; simpl; [reflexivity|].
  rewrite IH. destruct (last_position_of focused rest) as [k|].
  - lia.
  - destruct (focused =? index c); [simpl; lia | reflexivity].
Qed.

Lemma last_position_of_none focused cs :
  last_position_of focused cs = None <-> (forall c, In c cs -> index c <> focused).
Proof.
  induction cs as [|c rest IH]; simpl.
  - split; [intros _ c [] | reflexivity].
  - destruct (last_position_of focused rest) as [k|].
    + split; [discriminate|]. intros Hall.
      assert (Hn : (None : option nat) = None) by reflexivity.
      destruct IH as [_ IH]. discriminate IH. intros c' Hin. apply Hall. now right.
    + destruct (Z.eqb_spec focused (index c)) as [Heq|Hne].
      * split; [discriminate|]. intros Hall. exfalso.
        apply (Hall c); [now left | now symmetry].
      * split; [|reflexivity]. intros _ c' [<- | Hin].
        -- intros Heq. apply Hne. now symmetry.
        -- destruct IH as [IH _]. now apply IH.
Qed.

Lemma last_position_of_some focused cs : forall k c,
  nth_error cs k = Some c -> index c = focused ->
  (forall j c', (k < j)%nat -> nth_error cs j = Some c' -> index c' <> focused) ->
  last_position_of focused cs = Some k.
Proof.
  induction cs as [|c0 rest IH]; intros k c Hk Hc Hlast.
  - destruct k; discriminate Hk.
  - simpl. destruct k as [|k].
    + simpl in Hk. injection Hk as ->.
      assert (Hnone : last_position_of focused rest = None).
      { apply last_position_of_none. intros c' Hin.
        apply In_nth_error in Hin. destruct Hin as [j Hj].
        apply (Hlast (S j) c'); [lia | exact Hj]. }
      rewrite Hnone, Hc, Z.eqb_refl. reflexivity.
    + simpl in Hk. rewrite (IH k c Hk Hc); [reflexivity|].
      intros j c' Hlt Hj. apply (Hlast (S j) c'); [lia | exact Hj].
Qed.

(** X6: the row on which the cursor of the lookup table is put.  It is the
    position of the last candidate whose index field is the focused index,
    whatever the positions of the candidates in the list, and row 0 when no
    candidate carries that index. *)
Theorem X6_cursor_row (focused : Z) (cs : list Candidate) :
  let row := scan_cursor_pos focused cs 0 0 in
  ((forall c, In c cs -> index c <> focused) -> row = 0)
  /\ (forall k c,
        nth_error cs k = Some c -> index c = focused ->
        (forall j c', (k < j)%nat -> nth_error cs j = Some c' ->
                      index c' <> focused) ->
        row = Z.of_nat k)
  /\ 0 <= row < Z.max 1 (Z.of_nat (List.length cs)).
Proof.
  intros row. unfold row. rewrite scan_cursor_pos_spec. split; [|split].
  - intros Hall. apply last_position_of_none in Hall. now rewrite Hall.
  - intros k c Hk Hc Hlast.
    now rewrite (@last_position_of_some focused cs k c Hk Hc Hlast).
  - destruct (last_position_of focused cs) as [k|] eqn:Hk; [|lia].
    assert (Hlt : (k < List.length cs)%nat).
    { clear row. revert k Hk. induction cs as [|c rest IH]; intros k Hk;
        [discriminate|].
      simpl in Hk. destruct (last_position_of focused rest) as [k'|].
      - injection Hk as <-. simpl. specialize (IH k' eq_refl). lia.
      - destruct (focused =? index c); [|discriminate].
        injection Hk as <-. simpl. lia. }
    lia.
Qed.

Lemma X6_witness :
  scan_cursor_pos 7 [sample.cand 5 "a" None; sample.cand 7 "b" None;
                     sample.cand 9 "c" None] 0 0 = 1
  /\ scan_cursor_pos 4 [sample.cand 5 "a" None; sample.cand 7 "b" None] 0 0 = 0.
Proof.
  split.
  - refine (proj1 (proj2 (X6_cursor_row 7
                            [sample.cand 5 "a" None; sample.cand 7 "b" None;
                             sample.cand 9 "c" None]))
                  1%nat (sample.cand 7 "b" None) eq_refl eq_refl _).
    intros [|[|[|j]]] c' Hlt Hj; try lia; simpl in Hj.
    + injection Hj as <-. discriminate.
    + destruct j; discriminate Hj.
  - apply (proj1 (X6_cursor_row 4
                    [sample.cand 5 "a" None; sample.cand 7 "b" None])).
    intros c [<- | [<- | []]]; discriminate.
Defined.

Section EngineFacts2.
Context {build : Build} {schema : ConfigSchema} {linked : Collaborators}.
Context {Sess : Type} {session : client.Session Sess}.

(** ** Applying an output *)

Lemma output_shown output (e : MozcEngine Sess) :
  log (UpdateCandidates output (UpdatePreedit output (UpdateResult output e)))
  = log e ++ output_events output
  /\ current_composition_mode_
       (UpdateCandidates output (UpdatePreedit output (UpdateResult output e)))
     = current_composition_mode_ e
  /\ session_ (UpdateCandidates output (UpdatePreedit output (UpdateResult output e)))
     = session_ e.
Proof.
  unfold output_events, candidate_events, preedit_events, result_events,
    UpdateCandidates, UpdatePreedit, UpdateResult, spec_lookup_table.
  destruct (candidates output) as [cands|]; cbv zeta.
  - assert (Hscan : forall f,
              scan_cursor_pos f (candidate cands) 0 0
              = match last_position_of f (candidate cands) with
                | Some k => Z.of_nat k
                | None => 0
                end).
    { intros f. rewrite scan_cursor_pos_spec.
      now destruct (last_position_of f (candidate cands)). }
    unfold ComposeAuxiliaryText, focused_index_or_default.
    destruct (focused_index cands) as [f|]; try rewrite Hscan;
      destruct (preedit output), (result output); simpl;
      rewrite <- ?app_assoc; repeat split.
  - destruct (preedit output), (result output); simpl;
      rewrite <- ?app_assoc; repeat split.
Qed.

Lemma UpdateAll_shows d output (e : MozcEngine Sess) :
  exists l,
    log (engine_of (UpdateAll (S d) output e)) = log e ++ output_events output ++ l
    /\ forallb core_event l = true
    /\ (mode output = None \/ mode output = Some (current_composition_mode_ e) ->
        l = []
        /\ completed (UpdateAll (S d) output e) = true
        /\ session_ (engine_of (UpdateAll (S d) output e)) = session_ e).
Proof.
  destruct (output_shown output e) as (Hlog & Hmode & Hsess).
  set (e3 := UpdateCandidates output (UpdatePreedit output (UpdateResult output e)))
    in *.
  assert (Eu : UpdateAll (S d) output e
               = UpdateCompositionMode_ (UpdateAll d) output e3) by reflexivity.
  destruct (core_op_UpdateCompositionMode_ (UpdateAll d) (core_op_UpdateAll d)
              output e3) as (_ & _ & _ & _ & l & Hl & Hcore).
  unfold calls_between in Hl.
  exists l. split; [|split; [exact Hcore|]].
  - rewrite Eu, Hl, Hlog, <- app_assoc. reflexivity.
  - intros Hm.
    assert (Ed : UpdateCompositionMode_ (UpdateAll d) output e3 = Done tt e3).
    { unfold UpdateCompositionMode_. rewrite Hmode.
      destruct Hm as [-> | ->]; [reflexivity|].
      now rewrite CompositionMode_eqb_refl. }
    rewrite Eu, Ed. rewrite Ed in Hl. simpl in Hl. simpl. split; [|split].
    + apply (app_inv_head (log e3)). rewrite <- Hl. now rewrite app_nil_r.
    + reflexivity.
    + exact Hsess.
Qed.

(** X8: the order in which an output is applied.  [UpdateAll] first commits
    the result (when there is one), then updates or hides the preedit, then
    updates or hides the candidate window, and only then looks at the mode;
    what follows are calls of the re-entrant core only.  When the output
    announces no mode, or the mode the engine is in, nothing follows, the
    call is through and the session has not been called. *)
Theorem X8_UpdateAll_order d output (e : MozcEngine Sess) :
  exists l,
    log (engine_of (UpdateAll (S d) output e)) = log e ++ output_events output ++ l
    /\ forallb core_event l = true
    /\ (mode output = None \/ mode output = Some (current_composition_mode_ e) ->
        l = []
        /\ completed (UpdateAll (S d) output e) = true
        /\ session_ (engine_of (UpdateAll (S d) output e)) = session_ e).
Proof. apply UpdateAll_shows. Qed.

(** X7: a click on a row that carries an id selects that id and shows the
    reply.  After an update of the candidate list from an output, a click on
    the row of a candidate with an id other than the sentinel sends
    SELECT_CANDIDATE with exactly that id; the output of the reply is then
    applied whether or not the command succeeded: its result is committed,
    its preedit and its candidate window are shown or hidden, and its mode is
    reconciled.  When the reply announces no mode, or the mode the engine is
    in, nothing follows and the call is through. *)
Theorem X7_click_selects_row_id
    d output cands (i : nat) c k button state (e : MozcEngine Sess) :
  candidates output = Some cands ->
  nth_error (candidate cands) i = Some c ->
  candidate_id c = Some k ->
  k <> kBadCandidateId ->
  let e1 := UpdateCandidates output e in
  let reply := fst (client.SendCommand (session_ e1) (SELECT_CANDIDATE_command k)) in
  let run := CandidateClicked (S d) (Z.of_nat i) button state e1 in
  exists l,
    log (engine_of run)
    = log e1 ++ Session_SendCommand (SELECT_CANDIDATE_command k)
             :: output_events (snd reply) ++ l
    /\ forallb core_event l = true
    /\ (mode (snd reply) = None
        \/ mode (snd reply) = Some (current_composition_mode_ e) ->
        l = [] /\ completed run = true).
Proof.
  intros Hc Hi Hid Hk e1 reply run.
  assert (Hids : unique_candidate_ids_ e1
                 = map candidate_id_or_sentinel (candidate cands)).
  { unfold e1. rewrite UpdateCandidates_ids, Hc. reflexivity. }
  assert (Hnth : nth i (unique_candidate_ids_ e1) 0 = k).
  { rewrite Hids. apply nth_error_nth.
    rewrite nth_error_map, Hi. simpl. unfold candidate_id_or_sentinel.
    now rewrite Hid. }
  assert (Hlen : (i < List.length (unique_candidate_ids_ e1))%nat).
  { rewrite Hids, length_map. apply nth_error_Some. now rewrite Hi. }
  assert (Hmode1 : current_composition_mode_ e1 = current_composition_mode_ e).
  { unfold e1, UpdateCandidates.
    destruct (candidates output) as [cs|]; [destruct (focused_index cs)|];
      reflexivity. }
  unfold run, CandidateClicked.
  replace (Z.of_nat (List.length (unique_candidate_ids_ e1)) <=? Z.of_nat i)
    with false by (symmetry; apply Z.leb_gt; lia).
  rewrite Nat2Z.id, Hnth.
  replace (k =? kBadCandidateId) with false by (symmetry; now apply Z.eqb_neq).
  unfold bind, call. fold (SELECT_CANDIDATE_command k).
  unfold session_SendCommand. fold reply.
  destruct (client.SendCommand (session_ e1) (SELECT_CANDIDATE_command k))
    as [rp s] eqn:Hsend.
  unfold reply. cbn [fst snd].
  match goal with
  | |- context [UpdateAll (S d) (snd rp) ?x] =>
      destruct (UpdateAll_shows d (snd rp) x) as (l & Hl & Hcore & Hsame)
  end.
  exists l. split; [|split; [exact Hcore|]].
  - rewrite Hl. simpl. rewrite <- app_assoc. reflexivity.
  - intros Hm. simpl in Hsame. rewrite Hmode1 in Hsame.
    destruct (Hsame Hm) as (Hnil & Hdone & _). split; assumption.
Qed.

End EngineFacts2.

(** ** Property activation again *)

Section EngineFacts3.
Context {build : Build} {schema : ConfigSchema} {linked : Collaborators}.
Context {Sess : Type} {session : client.Session Sess}.

Lemma SetCompositionMode__switch UpdateAll_rec m (e : MozcEngine Sess) :
  m <> DIRECT ->
  SetCompositionMode_ UpdateAll_rec m e
  = Done tt (set_current_composition_mode_ m
               (snd (session_SendCommand (SWITCH_INPUT_MODE_command m) e))).
Proof.
  intros Hne. unfold SetCompositionMode_.
  apply CompositionMode_eqb_neq in Hne. rewrite Hne.
  unfold bind, call, lift. fold (SWITCH_INPUT_MODE_command m). cbv beta.
  now destruct (session_SendCommand (SWITCH_INPUT_MODE_command m) e).
Qed.

Lemma radio_loop_window_foreign UpdateAll_rec property_name n :
  forall i (e : MozcEngine Sess),
    (forall k p, (i <= k)%nat ->
                 nth_error (sub_props (prop_composition_mode_ e)) k = Some p ->
                 String.eqb property_name (radio_key p) = false) ->
    radio_loop UpdateAll_rec n i property_name e = Done tt (uncheck_range n i e).
Proof.
  induction n as [|n IH]; intros i e Hf; simpl; [reflexivity|].
  destruct (nth_error (sub_props (prop_composition_mode_ e)) i) as [prop|] eqn:Hi;
    [|reflexivity].
  rewrite (Hf i prop (Nat.le_refl i) Hi). unfold bind, lift. apply IH.
  intros k p Hk Hp. simpl in Hp. rewrite nth_error_set_nth_state in Hp.
  destruct (Nat.eqb_spec i k) as [->|Hne]; [lia|].
  apply (Hf k p); [lia | exact Hp].
Qed.

Lemma NoDup_keys_same_index (items : list RadioItem) a b p q :
  NoDup (map radio_key items) ->
  nth_error items a = Some p -> nth_error items b = Some q ->
  radio_key p = radio_key q -> a = b.
Proof.
  intros Hnd Ha Hb Hk.
  apply (proj1 (NoDup_nth_error (map radio_key items)) Hnd).
  - rewrite length_map. apply nth_error_Some. now rewrite Ha.
  - rewrite !nth_error_map, Ha, Hb. simpl. now rewrite Hk.
Qed.

Lemma radio_loop_match UpdateAll_rec property_name j prop entry n :
  forall i (e : MozcEngine Sess),
    NoDup (map radio_key (sub_props (prop_composition_mode_ e))) ->
    (i <= j)%nat -> (j < i + n)%nat ->
    nth_error (sub_props (prop_composition_mode_ e)) j = Some prop ->
    radio_key prop = property_name ->
    radio_entry prop = Some entry ->
    MozcEngineProperty.composition_mode entry <> DIRECT ->
    radio_loop UpdateAll_rec n i property_name e
    = Done tt (uncheck_range (i + n - S j) (S j)
                 (switch_item j entry (uncheck_range (j - i) i e))).
Proof.
  induction n as [|n IH]; intros i e Hnd Hij Hjn Hj Hkey Hentry Hmode; [lia|].
  destruct (Nat.eq_dec i j) as [->|Hne].
  - cbn [radio_loop]. rewrite Hj, Hkey, String.eqb_refl, Hentry.
    unfold bind at 1. unfold bind at 1. unfold bind at 1.
    rewrite SetCompositionMode__switch by assumption.
    unfold lift. cbv beta iota.
    replace (j - j)%nat with 0%nat by lia.
    replace (j + S n - S j)%nat with n by lia.
    cbn [uncheck_range]. fold (switch_item j entry e).
    apply radio_loop_window_foreign.
    intros k p Hk Hp.
    destruct (String.eqb property_name (radio_key p)) eqn:Heq; [|reflexivity].
    exfalso. apply String.eqb_eq in Heq.
    assert (Hp' : nth_error (sub_props (prop_composition_mode_ e)) k
                  = Some (with_state (radio_state p) p)
                  \/ nth_error (sub_props (prop_composition_mode_ e)) k = Some p).
    { right. unfold switch_item in Hp. simpl in Hp.
      rewrite nth_error_set_nth_state in Hp.
      destruct (Nat.eqb_spec j k) as [->|_]; [lia|].
      unfold session_SendCommand in Hp.
      destruct (client.SendCommand _ _) in Hp. exact Hp. }
    destruct Hp' as [Hp'|Hp'].
    + assert (k = j) by (eapply NoDup_keys_same_index; eauto; simpl; congruence).
      lia.
    + assert (k = j) by (eapply NoDup_keys_same_index; eauto; congruence).
      lia.
  - assert (Hlt : (i < j)%nat) by lia.
    destruct (nth_error (sub_props (prop_composition_mode_ e)) i) as [pi|] eqn:Hi.
    2:{ apply nth_error_None in Hi.
        assert (Hsome : nth_error (sub_props (prop_composition_mode_ e)) j <> None)
          by (rewrite Hj; discriminate).
        apply nth_error_Some in Hsome. lia. }
    assert (Hki : String.eqb property_name (radio_key pi) = false).
    { destruct (String.eqb property_name (radio_key pi)) eqn:Heq; [|reflexivity].
      apply String.eqb_eq in Heq.
      assert (i = j) by (eapply NoDup_keys_same_index; eauto; congruence). lia. }
    cbn [radio_loop]. rewrite Hi, Hki. unfold bind at 1. unfold lift at 1.
    cbv beta iota.
    rewrite IH; try assumption; try lia.
    + replace (j - i)%nat with (S (j - S i)) by lia.
      cbn [uncheck_range]. rewrite Hi.
      replace (S i + n - S j)%nat with (i + S n - S j)%nat by lia. reflexivity.
    + simpl. now rewrite set_nth_state_keys.
    + simpl. rewrite nth_error_set_nth_state.
      destruct (Nat.eqb_spec i j); [lia | exact Hj].
Qed.

Lemma tool_hit_none property_name (e : MozcEngine Sess) :
  in_tool_namespace property_name e = false ->
  (if OS_CHROMEOS then None
   else match prop_mozc_tool_ e with
        | Some tool => find_tool_item property_name (tool_sub_props tool)
        | None => None
        end) = None.
Proof.
  unfold in_tool_namespace. intros Htool. destruct OS_CHROMEOS; [reflexivity|].
  destruct (prop_mozc_tool_ e) as [tool|]; [|reflexivity].
  now apply find_tool_item_none.
Qed.

Lemma switch_item_frame j entry (e : MozcEngine Sess) :
  log (switch_item j entry e)
  = log e ++ [Session_SendCommand
                (SWITCH_INPUT_MODE_command
                   (MozcEngineProperty.composition_mode entry))]
  /\ current_composition_mode_ (switch_item j entry e)
     = MozcEngineProperty.composition_mode entry
  /\ menu_icon (prop_composition_mode_ (switch_item j entry e))
     = GetIconPath (MozcEngineProperty.icon entry)
  /\ sub_props (prop_composition_mode_ (switch_item j entry e))
     = set_nth_state j PROP_STATE_CHECKED (sub_props (prop_composition_mode_ e)).
Proof.
  unfold switch_item, session_SendCommand.
  destruct (client.SendCommand _ _) as [r s]. repeat split.
Qed.

Lemma PropertyActivate_radio_key
    depth property_name j prop entry (e : MozcEngine Sess) :
  in_tool_namespace property_name e = false ->
  NoDup (map radio_key (sub_props (prop_composition_mode_ e))) ->
  nth_error (sub_props (prop_composition_mode_ e)) j = Some prop ->
  radio_key prop = property_name ->
  radio_entry prop = Some entry ->
  MozcEngineProperty.composition_mode entry <> DIRECT ->
  exists e',
    PropertyActivate depth property_name PROP_STATE_CHECKED e = Done tt e'
    /\ current_composition_mode_ e' = MozcEngineProperty.composition_mode entry
    /\ menu_icon (prop_composition_mode_ e')
       = GetIconPath (MozcEngineProperty.icon entry)
    /\ sub_props (prop_composition_mode_ e')
       = activated_items property_name (sub_props (prop_composition_mode_ e))
    /\ (forall k p, nth_error (sub_props (prop_composition_mode_ e')) k = Some p ->
                    (radio_state p = PROP_STATE_CHECKED <-> k = j))
    /\ log e'
       = log e ++ [Session_SendCommand
                     (SWITCH_INPUT_MODE_command
                        (MozcEngineProperty.composition_mode entry));
                   ibus_engine_update_property (prop_composition_mode_ e')].
Proof.
  intros Htool Hnd Hj Hkey Hentry Hmode.
  set (items := sub_props (prop_composition_mode_ e)) in *.
  assert (Hjlt : (j < List.length items)%nat)
    by (apply nth_error_Some; rewrite Hj; discriminate).
  set (e1 := uncheck_range (j - 0) 0 e).
  set (e2 := switch_item j entry e1).
  set (e3 := uncheck_range (0 + List.length items - S j) (S j) e2).
  assert (Eloop : radio_loop (UpdateAll depth) (List.length items) 0 property_name e
                  = Done tt e3)
    by (apply (@radio_loop_match (UpdateAll depth) property_name j prop entry);
        try assumption; lia).
  destruct (uncheck_range_frame (j - 0) 0 e) as (A1 & _ & _ & _ & A5).
  destruct (switch_item_frame j entry e1) as (B1 & B2 & B3 & B4).
  destruct (uncheck_range_frame (0 + List.length items - S j) (S j) e2)
    as (C1 & _ & C3 & C4 & C5).
  fold e1 in A1, A5. fold e2 in B1, B2, B3, B4, C1, C3, C4, C5.
  fold e3 in C1, C3, C4, C5.
  assert (Hitems : sub_props (prop_composition_mode_ e3)
                   = activated_items property_name items).
  { apply nth_error_ext. intros k. unfold e3.
    rewrite uncheck_range_nth. fold e2. rewrite B4.
    rewrite nth_error_set_nth_state. unfold e1. rewrite uncheck_range_nth.
    fold items. unfold activated_items. rewrite nth_error_map.
    destruct (nth_error items k) as [p|] eqn:Hk.
    2:{ destruct (_ && _), (Nat.eqb j k), (_ && _); reflexivity. }
    cbn [option_map].
    assert (Hiff : String.eqb property_name (radio_key p) = Nat.eqb j k).
    { destruct (Nat.eqb_spec j k) as [<-|Hne].
      - rewrite Hj in Hk. injection Hk as <-. rewrite Hkey. apply String.eqb_refl.
      - destruct (String.eqb property_name (radio_key p)) eqn:Heq; [|reflexivity].
        apply String.eqb_eq in Heq. exfalso. apply Hne.
        eapply NoDup_keys_same_index; eauto. congruence. }
    rewrite Hiff.
    destruct (Nat.eqb_spec j k) as [<-|Hne].
    - replace ((S j <=? j)%nat && (j <? S j + (0 + List.length items - S j))%nat)
        with false by (symmetry; apply andb_false_iff; left; apply Nat.leb_gt; lia).
      replace ((0 <=? j)%nat && (j <? 0 + (j - 0))%nat)
        with false by (symmetry; apply andb_false_iff; right; apply Nat.ltb_ge; lia).
      reflexivity.
    - assert (Hklt : (k < List.length items)%nat)
        by (apply nth_error_Some; rewrite Hk; discriminate).
      destruct (Nat.lt_ge_cases k j) as [Hlt|Hge].
      + replace ((S j <=? k)%nat && (k <? S j + (0 + List.length items - S j))%nat)
          with false by (symmetry; apply andb_false_iff; left; apply Nat.leb_gt; lia).
        replace ((0 <=? k)%nat && (k <? 0 + (j - 0))%nat) with true; [reflexivity|].
        symmetry. apply andb_true_iff. split;
          [apply Nat.leb_le | apply Nat.ltb_lt]; lia.
      + replace ((S j <=? k)%nat && (k <? S j + (0 + List.length items - S j))%nat)
          with true
          by (symmetry; apply andb_true_iff; split;
              [apply Nat.leb_le | apply Nat.ltb_lt]; lia).
        replace ((0 <=? k)%nat && (k <? 0 + (j - 0))%nat)
          with false by (symmetry; apply andb_false_iff; right; apply Nat.ltb_ge; lia).
        reflexivity. }
  exists (emit (ibus_engine_update_property (prop_composition_mode_ e3)) e3).
  split; [|split; [|split; [|split; [|split]]]].
  - unfold PropertyActivate, PropertyActivate_.
    rewrite (tool_hit_none _ _ Htool). simpl negb. cbv iota.
    unfold bind. fold items. rewrite Eloop. reflexivity.
  - simpl. now rewrite C3.
  - simpl. now rewrite C4.
  - exact Hitems.
  - intros k p Hp. simpl in Hp. rewrite Hitems in Hp.
    unfold activated_items in Hp. rewrite nth_error_map in Hp.
    destruct (nth_error items k) as [q|] eqn:Hq; [|discriminate].
    simpl in Hp. injection Hp as <-. simpl.
    destruct (String.eqb property_name (radio_key q)) eqn:Heq.
    + apply String.eqb_eq in Heq. split; [|reflexivity]. intros _.
      eapply NoDup_keys_same_index; eauto. congruence.
    + split; [discriminate|]. intros ->. rewrite Hj in Hq. injection Hq as <-.
      rewrite Hkey, String.eqb_refl in Heq. discriminate.
  - simpl. rewrite C1, B1, A1, <- app_assoc. reflexivity.
Qed.

(** X9: the radio semantics of a property activation.  When the activated
    key, with state "checked", is the key of one item of the radio menu (the
    keys being distinct) and the entry of that item names a mode other than
    DIRECT, the call sends one SWITCH_INPUT_MODE with that mode, makes it the
    engine's mode, shows the entry's icon, checks that item and unchecks
    every other one, and pushes the menu to the host; nothing else is
    called. *)
Theorem X9_radio_activation
    depth property_name j prop entry (e : MozcEngine Sess) :
  in_tool_namespace property_name e = false ->
  NoDup (map radio_key (sub_props (prop_composition_mode_ e))) ->
  nth_error (sub_props (prop_composition_mode_ e)) j = Some prop ->
  radio_key prop = property_name ->
  radio_entry prop = Some entry ->
  MozcEngineProperty.composition_mode entry <> DIRECT ->
  exists e',
    PropertyActivate depth property_name PROP_STATE_CHECKED e = Done tt e'
    /\ current_composition_mode_ e' = MozcEngineProperty.composition_mode entry
    /\ menu_icon (prop_composition_mode_ e')
       = GetIconPath (MozcEngineProperty.icon entry)
    /\ sub_props (prop_composition_mode_ e')
       = activated_items property_name (sub_props (prop_composition_mode_ e))
    /\ (forall k p, nth_error (sub_props (prop_composition_mode_ e')) k = Some p ->
                    (radio_state p = PROP_STATE_CHECKED <-> k = j))
    /\ log e'
       = log e ++ [Session_SendCommand
                     (SWITCH_INPUT_MODE_command
                        (MozcEngineProperty.composition_mode entry));
                   ibus_engine_update_property (prop_composition_mode_ e')].
Proof. apply PropertyActivate_radio_key. Qed.

(** X10: the launch of a tool.  On the build with a tool menu, the
    activation of the key of a tool item calls [LaunchTool] with the mode of
    that item and an empty argument, whatever the activated state is, and
    whether or not a radio item has the same key; a failed launch is logged.
    The radio menu, the icon and the mode are left alone. *)
Theorem X10_tool_launch depth property_name property_state tool prop
        (e : MozcEngine Sess) :
  OS_CHROMEOS = false ->
  prop_mozc_tool_ e = Some tool ->
  find_tool_item property_name (tool_sub_props tool) = Some prop ->
  let mode_ := MozcEngineToolProperty.mode (tool_entry prop) in
  let ok := fst (client.LaunchTool (session_ e) mode_ "") in
  exists e',
    PropertyActivate depth property_name property_state e = Done tt e'
    /\ tool_key prop = property_name
    /\ log e' = log e ++ Session_LaunchTool mode_ ""
                      :: (if ok then []
                          else [LOG_ERROR ("cannot launch: " ++ mode_)%string])
    /\ prop_composition_mode_ e' = prop_composition_mode_ e
    /\ current_composition_mode_ e' = current_composition_mode_ e
    /\ unique_candidate_ids_ e' = unique_candidate_ids_ e.
Proof.
  intros Hos Htool Hfind mode_ ok.
  assert (Hk : tool_key prop = property_name).
  { unfold find_tool_item in Hfind. apply find_some in Hfind.
    destruct Hfind as [_ Heq]. apply String.eqb_eq in Heq. now symmetry. }
  unfold PropertyActivate, PropertyActivate_. rewrite Hos, Htool, Hfind.
  unfold session_LaunchTool. fold mode_. unfold ok.
  destruct (client.LaunchTool (session_ e) mode_ "") as [b s]. simpl fst.
  destruct b; eexists; (split; [reflexivity|]); repeat split; try assumption.
  simpl. now rewrite <- app_assoc.
Qed.

Lemma activate_entries_none UpdateAll_rec entries m (e : MozcEngine Sess) :
  (forall en, In en entries -> MozcEngineProperty.composition_mode en <> m) ->
  activate_entries_with_mode UpdateAll_rec entries m e = Done tt e.
Proof.
  revert e. induction entries as [|en rest IH]; intros e Hall; simpl;
    [reflexivity|].
  assert (Hne : CompositionMode_eqb (MozcEngineProperty.composition_mode en) m
                = false)
    by (apply CompositionMode_eqb_neq, Hall; now left).
  rewrite Hne. unfold bind, ret. apply IH. intros en' Hin. apply Hall. now right.
Qed.

Lemma activate_entries_one UpdateAll_rec l1 entry l2 m (e e' : MozcEngine Sess) :
  (forall en, In en (l1 ++ l2) -> MozcEngineProperty.composition_mode en <> m) ->
  MozcEngineProperty.composition_mode entry = m ->
  PropertyActivate_ UpdateAll_rec (MozcEngineProperty.key entry)
                    PROP_STATE_CHECKED e = Done tt e' ->
  activate_entries_with_mode UpdateAll_rec (l1 ++ entry :: l2) m e = Done tt e'.
Proof.
  intros Hall Hm Hact. induction l1 as [|en rest IH]; simpl.
  - rewrite Hm, CompositionMode_eqb_refl. unfold bind. rewrite Hact.
    apply activate_entries_none. intros en Hin. apply Hall. exact Hin.
  - assert (Hne : CompositionMode_eqb (MozcEngineProperty.composition_mode en) m
                  = false)
      by (apply CompositionMode_eqb_neq, Hall; now left).
    rewrite Hne. unfold bind, ret. apply IH.
    intros en' Hin. apply Hall. now right.
Qed.

(** X11: the reconciliation of the mode with an output.  An output without
    mode, or with the mode the engine is in, changes nothing; so does an
    output whose mode no entry of the property table carries, which leaves
    the engine in its old mode.  When exactly one entry carries the announced
    mode (other than DIRECT), the radio menu holds the entries of the table
    with distinct keys and the key is no tool key, the engine takes the
    announced mode, checks that entry alone and sends SWITCH_INPUT_MODE with
    the mode back to the session. *)
Theorem X11_mode_reconciliation depth output (e : MozcEngine Sess) :
  (mode output = None \/ mode output = Some (current_composition_mode_ e) ->
   UpdateCompositionMode depth output e = Done tt e)
  /\ (forall m,
        mode output = Some m ->
        (forall en, In en kMozcEngineProperties ->
                    MozcEngineProperty.composition_mode en <> m) ->
        UpdateCompositionMode depth output e = Done tt e)
  /\ (forall m l1 entry l2,
        mode output = Some m ->
        m <> current_composition_mode_ e ->
        m <> DIRECT ->
        kMozcEngineProperties = l1 ++ entry :: l2 ->
        MozcEngineProperty.composition_mode entry = m ->
        (forall en, In en (l1 ++ l2) ->
                    MozcEngineProperty.composition_mode en <> m) ->
        menu_of_table e ->
        NoDup (map MozcEngineProperty.key kMozcEngineProperties) ->
        in_tool_namespace (MozcEngineProperty.key entry) e = false ->
        exists e',
          UpdateCompositionMode depth output e = Done tt e'
          /\ current_composition_mode_ e' = m
          /\ sub_props (prop_composition_mode_ e')
             = activated_items (MozcEngineProperty.key entry)
                               (sub_props (prop_composition_mode_ e))
          /\ log e'
             = log e ++ [Session_SendCommand (SWITCH_INPUT_MODE_command m);
                         ibus_engine_update_property (prop_composition_mode_ e')]).
Proof.
  split; [|split].
  - intros Hm. unfold UpdateCompositionMode, UpdateCompositionMode_.
    destruct Hm as [-> | ->]; [reflexivity|].
    now rewrite CompositionMode_eqb_refl.
  - intros m Hm Hnone. unfold UpdateCompositionMode, UpdateCompositionMode_.
    rewrite Hm. destruct (CompositionMode_eqb _ _); [reflexivity|].
    now apply activate_entries_none.
  - intros m l1 entry l2 Hm Hcur Hdir Htable Hentry Hothers [Hkeys Hentries]
           Hnd Htool.
    assert (Hj : exists prop,
               nth_error (sub_props (prop_composition_mode_ e)) (List.length l1)
               = Some prop
               /\ radio_key prop = MozcEngineProperty.key entry
               /\ radio_entry prop = Some entry).
    { assert (H1 : nth_error (map radio_key (sub_props (prop_composition_mode_ e)))
                             (List.length l1)
                   = Some (MozcEngineProperty.key entry)).
      { rewrite Hkeys, Htable, map_app, nth_error_app2 by (rewrite length_map; lia).
        rewrite length_map, Nat.sub_diag. reflexivity. }
      assert (H2 : nth_error (map radio_entry (sub_props (prop_composition_mode_ e)))
                             (List.length l1)
                   = Some (Some entry)).
      { rewrite Hentries, Htable, map_app, nth_error_app2 by (rewrite length_map; lia).
        rewrite length_map, Nat.sub_diag. reflexivity. }
      rewrite nth_error_map in H1, H2.
      destruct (nth_error (sub_props (prop_composition_mode_ e)) (List.length l1))
        as [prop|]; [|discriminate].
      simpl in H1, H2. exists prop. repeat split; congruence. }
    destruct Hj as (prop & Hj & Hk & He).
    assert (Hnd' : NoDup (map radio_key (sub_props (prop_composition_mode_ e))))
      by (rewrite Hkeys; exact Hnd).
    assert (Hdir' : MozcEngineProperty.composition_mode entry <> DIRECT)
      by (rewrite Hentry; exact Hdir).
    destruct (@PropertyActivate_radio_key depth _ _ _ _ e Htool Hnd' Hj Hk He Hdir')
      as (e' & Hact & Hmode & _ & Hitems & _ & Hlog).
    exists e'. split; [|split; [|split]].
    + unfold UpdateCompositionMode, UpdateCompositionMode_. rewrite Hm.
      assert (Hne : CompositionMode_eqb (current_composition_mode_ e) m = false)
        by (apply CompositionMode_eqb_neq; congruence).
      rewrite Hne, Htable. now apply activate_entries_one.
    + congruence.
    + exact Hitems.
    + rewrite Hlog, Hentry. reflexivity.
Qed.

End EngineFacts3.

(** ** The callbacks around the session's replies *)

Section EngineFacts4.
Context {build : Build} {schema : ConfigSchema} {linked : Collaborators}.
Context {Sess : Type} {session : client.Session Sess}.

Lemma RevertSession_unfold depth (e : MozcEngine Sess) :
  RevertSession depth e
  = let r := session_SendCommand REVERT_command e in
    if fst (fst r) then UpdateAll depth (snd (fst r)) (snd r)
    else Done tt (emit (LOG_ERROR "RevertSession() failed") (snd r)).
Proof.
  unfold RevertSession, REVERT_command, bind, call, lift. cbv zeta.
  destruct (session_SendCommand _ e) as [[ok output] e1]. now destruct ok.
Qed.

Lemma session_SendCommand_unfold command (e : MozcEngine Sess) :
  session_SendCommand command e
  = (fst (client.SendCommand (session_ e) command),
     set_session_ (snd (client.SendCommand (session_ e) command))
                  (emit (Session_SendCommand command) e)).
Proof.
  unfold session_SendCommand.
  now destruct (client.SendCommand (session_ e) command).
Qed.

Lemma RevertSession_frame depth (e : MozcEngine Sess) :
  preedit_method_ (engine_of (RevertSession depth e)) = preedit_method_ e
  /\ exists l,
       log (engine_of (RevertSession depth e))
       = log e ++ Session_SendCommand REVERT_command :: l
       /\ forallb core_event l = true.
Proof.
  rewrite RevertSession_unfold, session_SendCommand_unfold. cbv zeta. cbn [fst snd].
  destruct (client.SendCommand (session_ e) REVERT_command) as [[ok output] s].
  cbn [fst snd]. destruct ok.
  - match goal with
    | |- context [UpdateAll depth output ?x] =>
        destruct (core_op_UpdateAll depth output x)
          as (_ & Hp & _ & _ & l & Hl & Hcore)
    end.
    unfold calls_between in Hl. split; [exact Hp|].
    exists l. split; [|exact Hcore]. rewrite Hl. simpl.
    rewrite <- app_assoc. reflexivity.
  - split; [reflexivity|]. exists [LOG_ERROR "RevertSession() failed"].
    split; [|reflexivity]. simpl. rewrite <- app_assoc. reflexivity.
Qed.

(** X12: what [Enable] does.  It asks for the connection, reads the
    configuration from the session as the connection request left it, takes
    the preedit method from it (ROMAN when the configuration names none, the
    old method with a diagnostic when the read fails), and then reverts the
    session whatever the two calls returned; after the REVERT only the
    re-entrant core runs. *)
Theorem X12_Enable depth (e : MozcEngine Sess) :
  let s1 := snd (client.EnsureConnection (session_ e)) in
  let cfg := fst (client.GetConfig s1) in
  let e' := engine_of (Enable depth e) in
  preedit_method_ e'
  = match cfg with
    | Some c => match preedit_method c with
                | Some m => m
                | None => config.ROMAN
                end
    | None => preedit_method_ e
    end
  /\ exists l,
       log e'
       = log e
         ++ Session_EnsureConnection :: Session_GetConfig
         :: match cfg with
            | Some _ => []
            | None => [LOG_ERROR "GetConfig failed"]
            end
         ++ Session_SendCommand REVERT_command :: l
       /\ forallb core_event l = true.
Proof.
  cbv zeta. unfold Enable, bind, call, lift, session_EnsureConnection.
  destruct (client.EnsureConnection (session_ e)) as [ok s1]. cbn [snd].
  unfold UpdatePreeditMethod, session_GetConfig. cbn [session_ set_session_ emit].
  destruct (client.GetConfig s1) as [[c|] s2]; cbn [fst].
  - match goal with
    | |- context [RevertSession depth ?x] =>
        destruct (RevertSession_frame depth x) as (Hp & l & Hl & Hcore);
          destruct (RevertSession depth x) as [[] e2|e2]
    end; cbn [engine_of] in *; (split; [rewrite Hp; reflexivity|]);
      exists l; (split; [|exact Hcore]); rewrite Hl; simpl;
      rewrite <- !app_assoc; reflexivity.
  - match goal with
    | |- context [RevertSession depth ?x] =>
        destruct (RevertSession_frame depth x) as (Hp & l & Hl & Hcore);
          destruct (RevertSession depth x) as [[] e2|e2]
    end; cbn [engine_of] in *; (split; [rewrite Hp; reflexivity|]);
      exists l; (split; [|exact Hcore]); rewrite Hl; simpl;
      rewrite <- !app_assoc; reflexivity.
Qed.

(** X13: the reply to a REVERT.  [RevertSession] (and so [Disable] and
    [Reset]) sends REVERT; when the session accepts it, the output of the
    reply is applied: result, preedit, candidate window, then the mode.
    When the session refuses it, the failure is logged and nothing else
    happens: the host UI, the id list, the mode and the menu stay as they
    were. *)
Theorem X13_revert_reply d (e : MozcEngine Sess) :
  let reply := fst (client.SendCommand (session_ e) REVERT_command) in
  let e' := engine_of (RevertSession (S d) e) in
  if fst reply
  then exists l,
         log e' = log e ++ Session_SendCommand REVERT_command
                        :: output_events (snd reply) ++ l
         /\ forallb core_event l = true
  else RevertSession (S d) e = Done tt e'
       /\ Reset (S d) e = Done tt e'
       /\ Disable (S d) e = Done tt e'
       /\ log e' = log e ++ [Session_SendCommand REVERT_command;
                             LOG_ERROR "RevertSession() failed"]
       /\ unique_candidate_ids_ e' = unique_candidate_ids_ e
       /\ current_composition_mode_ e' = current_composition_mode_ e
       /\ prop_composition_mode_ e' = prop_composition_mode_ e.
Proof.
  cbv zeta. unfold Reset, Disable.
  rewrite RevertSession_unfold, session_SendCommand_unfold. cbv zeta. cbn [fst snd].
  destruct (client.SendCommand (session_ e) REVERT_command) as [[ok output] s].
  cbn [fst snd]. destruct ok.
  - match goal with
    | |- context [UpdateAll (S d) output ?x] =>
        destruct (UpdateAll_shows d output x) as (l & Hl & Hcore & _)
    end.
    exists l. split; [|exact Hcore]. rewrite Hl. simpl.
    rewrite <- app_assoc. reflexivity.
  - cbn [engine_of]. repeat split. simpl. rewrite <- app_assoc. reflexivity.
Qed.

(** X14: a key the session accepts.  For a key press that the translator
    maps to a key, that is not rejected in DIRECT mode and that the session
    accepts, the callback calls the translator and [SendKey] once each,
    applies the output of the reply (result, preedit, candidate window, then
    the mode), and, when the update is through, returns the [consumed] flag
    of that output. *)
Theorem X14_accepted_key d engine_name keyval keycode modifiers key output s
        (e : MozcEngine Sess) :
  is_release modifiers = false ->
  let e0 := before_translate e in
  let layout_is_jp := String.eqb engine_name "mozc-jp" in
  Translate keyval keycode modifiers (preedit_method_ e0) layout_is_jp = Some key ->
  (current_composition_mode_ e = DIRECT -> IsTurnOnInDirectMode key = true) ->
  client.SendKey (session_ e0) key = ((true, output), s) ->
  let run := ProcessKeyEvent (S d) engine_name keyval keycode modifiers e in
  (exists l,
     log (engine_of run)
     = log e0 ++ [KeyTranslator_Translate keyval keycode modifiers
                    (preedit_method_ e0) layout_is_jp;
                  Session_SendKey key]
             ++ output_events output ++ l
     /\ forallb core_event l = true)
  /\ (completed run = true -> run = Done (consumed output) (engine_of run))
  /\ (mode output = None \/ mode output = Some (current_composition_mode_ e) ->
      completed run = true).
Proof.
  intros Hrel e0 layout_is_jp Htr Hdirect Hsend run.
  assert (Hmode0 : current_composition_mode_ e0 = current_composition_mode_ e)
    by apply before_translate_calls.
  assert (Hgate : CompositionMode_eqb (current_composition_mode_ e0) DIRECT
                  && negb (IsTurnOnInDirectMode key) = false).
  { rewrite Hmode0.
    destruct (CompositionMode_eqb (current_composition_mode_ e) DIRECT) eqn:Hm;
      [|reflexivity].
    apply CompositionMode_eqb_eq in Hm. now rewrite (Hdirect Hm). }
  unfold run. rewrite ProcessKeyEvent_press by assumption. cbv zeta.
  fold e0. fold layout_is_jp. rewrite Htr, Hgate.
  unfold session_SendKey. cbn [session_ emit]. rewrite Hsend. cbn [negb].
  unfold bind, ret.
  match goal with
  | |- context [UpdateAll (S d) output ?x] =>
      destruct (UpdateAll_shows d output x) as (l & Hl & Hcore & Hsame);
        assert (Hx : current_composition_mode_ x = current_composition_mode_ e)
          by (simpl; exact Hmode0);
        rewrite Hx in Hsame;
        destruct (UpdateAll (S d) output x) as [[] e2|e2]
  end; cbn [engine_of completed] in *.
  - split; [|split; [reflexivity|reflexivity]].
    exists l. split; [|exact Hcore]. rewrite Hl. simpl.
    rewrite <- !app_assoc. reflexivity.
  - split; [|split; [discriminate|]].
    + exists l. split; [|exact Hcore]. rewrite Hl. simpl.
      rewrite <- !app_assoc. reflexivity.
    + intros Hm. now destruct (Hsame Hm) as (_ & Hc & _).
Qed.

End EngineFacts4.

(** ** The calls each callback may make *)

Section EngineFacts5.
Context {build : Build} {schema : ConfigSchema} {linked : Collaborators}.
Context {Sess : Type} {session : client.Session Sess}.

Lemma adds_emit1 P ev (e : MozcEngine Sess) : P ev = true -> adds P e (emit ev e).
Proof. intros Hev. apply adds_emit; [exact Hev | apply adds_refl]. Qed.

Lemma adds_silent P (e e' : MozcEngine Sess) : log e' = log e -> adds P e e'.
Proof. intros Hlog. apply adds_same_log with (e := e); [exact Hlog | apply adds_refl]. Qed.

Lemma adds_SendCommand P command (e : MozcEngine Sess) :
  P (Session_SendCommand command) = true ->
  adds P e (snd (session_SendCommand command e)).
Proof.
  intros Hc. exists [Session_SendCommand command]. split.
  - apply session_SendCommand_calls.
  - simpl. now rewrite Hc.
Qed.

Lemma calls_only_ret {A} P (a : A) : calls_only P (ret (Sess := Sess) a).
Proof. intros e. apply adds_refl. Qed.

Lemma calls_only_bind {A B} P (m : M Sess A) (k : A -> M Sess B) :
  calls_only P m -> (forall a, calls_only P (k a)) -> calls_only P (bind m k).
Proof.
  intros Hm Hk e. unfold bind. specialize (Hm e).
  destruct (m e) as [a e'|e']; simpl in *; [|exact Hm].
  eapply adds_trans; [exact Hm | apply Hk].
Qed.

Lemma calls_only_lift P (f : MozcEngine Sess -> MozcEngine Sess) :
  (forall e, adds P e (f e)) -> calls_only P (lift f).
Proof. intros Hf e. apply Hf. Qed.

Lemma calls_only_SendCommand P command :
  P (Session_SendCommand command) = true ->
  calls_only P (call (session_SendCommand command)).
Proof.
  intros Hc e. unfold call.
  pose proof (adds_SendCommand P command e Hc) as Hs.
  destruct (session_SendCommand command e) as [r e']. exact Hs.
Qed.

Lemma calls_only_weaken {A} (P Q : Event -> bool) (m : M Sess A) :
  (forall ev, P ev = true -> Q ev = true) -> calls_only P m -> calls_only Q m.
Proof. intros HPQ Hm e. eapply adds_weaken; [exact HPQ | apply Hm]. Qed.

Lemma reentrant_UpdateResult output (e : MozcEngine Sess) :
  adds reentrant_call e (UpdateResult output e).
Proof.
  unfold UpdateResult. destruct (result output).
  - now apply adds_emit1.
  - apply adds_refl.
Qed.

Lemma reentrant_UpdatePreedit output (e : MozcEngine Sess) :
  adds reentrant_call e (UpdatePreedit output e).
Proof.
  unfold UpdatePreedit. destruct (preedit output); now apply adds_emit1.
Qed.

Lemma reentrant_UpdateCandidates output (e : MozcEngine Sess) :
  adds reentrant_call e (UpdateCandidates output e).
Proof.
  unfold UpdateCandidates.
  assert (E0 : adds reentrant_call e (set_unique_candidate_ids_ [] e))
    by (apply adds_silent; reflexivity).
  destruct (candidates output) as [cands|]; cbv zeta.
  - match goal with
    | |- adds _ _ (set_unique_candidate_ids_ _ ?x) =>
        apply adds_same_log with (e := x); [reflexivity|]
    end.
    destruct (focused_index cands);
      repeat (apply adds_emit; [reflexivity|]); exact E0.
  - repeat (apply adds_emit; [reflexivity|]); exact E0.
Qed.

Section ReentrantCalls.
Variable UpdateAll_rec : Output -> M Sess unit.
Hypothesis UpdateAll_rec_calls :
  forall output, calls_only reentrant_call (UpdateAll_rec output).

Lemma reentrant_SetCompositionMode_ composition_mode :
  calls_only reentrant_call (SetCompositionMode_ UpdateAll_rec composition_mode).
Proof.
  unfold SetCompositionMode_.
  destruct (CompositionMode_eqb composition_mode DIRECT).
  - apply calls_only_bind; [now apply calls_only_SendCommand|]. intros r.
    apply calls_only_bind; [apply UpdateAll_rec_calls|]. intros _.
    apply calls_only_lift. intros e. apply adds_silent; reflexivity.
  - apply calls_only_bind; [now apply calls_only_SendCommand|]. intros r.
    apply calls_only_lift. intros e. apply adds_silent; reflexivity.
Qed.

Lemma reentrant_radio_loop n : forall i property_name,
  calls_only reentrant_call (radio_loop UpdateAll_rec n i property_name).
Proof.
  induction n as [|n IH]; intros i property_name e; simpl.
  - apply adds_refl.
  - destruct (nth_error (sub_props (prop_composition_mode_ e)) i) as [prop|];
      [|apply adds_refl].
    apply calls_only_bind; [|intros _; apply IH].
    destruct (String.eqb property_name (radio_key prop)).
    + apply calls_only_bind.
      * destruct (radio_entry prop) as [entry|]; [|apply calls_only_ret].
        apply calls_only_bind; [apply reentrant_SetCompositionMode_|]. intros _.
        apply calls_only_lift. intros e0. apply adds_silent; reflexivity.
      * intros _. apply calls_only_lift. intros e0. apply adds_silent; reflexivity.
    + apply calls_only_lift. intros e0. apply adds_silent; reflexivity.
Qed.

Lemma reentrant_PropertyActivate_ property_name property_state :
  calls_only reentrant_call
             (PropertyActivate_ UpdateAll_rec property_name property_state).
Proof.
  intros e. unfold PropertyActivate_.
  destruct OS_CHROMEOS eqn:Hos.
  - destruct (negb (IBusPropState_eqb property_state PROP_STATE_CHECKED));
      [apply adds_refl|].
    apply calls_only_bind; [apply reentrant_radio_loop|]. intros _ e0.
    now apply adds_emit1.
  - destruct (match prop_mozc_tool_ e with
              | Some tool => find_tool_item property_name (tool_sub_props tool)
              | None => None
              end) as [prop|].
    + unfold session_LaunchTool.
      destruct (client.LaunchTool _ _ _) as [ok s]. simpl.
      assert (Hs : adds reentrant_call e
                (set_session_ s
                   (emit (Session_LaunchTool
                            (MozcEngineToolProperty.mode (tool_entry prop)) "") e))).
      { match goal with
        | |- adds _ _ (set_session_ _ ?x) =>
            apply adds_same_log with (e := x); [reflexivity|]
        end.
        apply adds_emit1. simpl. now rewrite Hos. }
      destruct ok; [exact Hs|].
      apply adds_emit; [simpl; now rewrite Hos | exact Hs].
    + destruct (negb (IBusPropState_eqb property_state PROP_STATE_CHECKED));
        [apply adds_refl|].
      apply calls_only_bind; [apply reentrant_radio_loop|]. intros _ e0.
      now apply adds_emit1.
Qed.

Lemma reentrant_activate_entries entries new_composition_mode :
  calls_only reentrant_call
             (activate_entries_with_mode UpdateAll_rec entries new_composition_mode).
Proof.
  induction entries as [|entry rest IH]; simpl; [apply calls_only_ret|].
  apply calls_only_bind; [|intros _; exact IH].
  destruct (CompositionMode_eqb _ _);
    [apply reentrant_PropertyActivate_ | apply calls_only_ret].
Qed.

Lemma reentrant_UpdateAll_ output :
  calls_only reentrant_call (UpdateAll_ UpdateAll_rec output).
Proof.
  unfold UpdateAll_.
  apply calls_only_bind;
    [apply calls_only_lift; intros e; apply reentrant_UpdateResult | intros _].
  apply calls_only_bind;
    [apply calls_only_lift; intros e; apply reentrant_UpdatePreedit | intros _].
  apply calls_only_bind;
    [apply calls_only_lift; intros e; apply reentrant_UpdateCandidates | intros _].
  intros e. unfold UpdateCompositionMode_.
  destruct (mode output) as [m|]; [|apply adds_refl].
  destruct (CompositionMode_eqb _ _); [apply adds_refl|].
  apply reentrant_activate_entries.
Qed.
End ReentrantCalls.

Lemma reentrant_UpdateAll depth :
  forall output, calls_only (Sess := Sess) reentrant_call (UpdateAll depth output).
Proof.
  induction depth as [|d IH]; intros output.
  - intros e. apply adds_refl.
  - simpl. now apply reentrant_UpdateAll_.
Qed.

Lemma allowed_RevertSession depth (P : Event -> bool) (e : MozcEngine Sess) :
  (forall ev, reentrant_call ev = true -> P ev = true) ->
  P (Session_SendCommand REVERT_command) = true ->
  (forall message, P (LOG_ERROR message) = true) ->
  adds P e (engine_of (RevertSession depth e)).
Proof.
  intros Hcore Hrev Hlog. rewrite RevertSession_unfold. cbv zeta.
  pose proof (adds_SendCommand P REVERT_command e Hrev) as Hs.
  destruct (session_SendCommand REVERT_command e) as [[ok output] e1].
  cbn [fst snd] in *. destruct ok.
  - eapply adds_trans; [exact Hs|].
    eapply adds_weaken; [exact Hcore | apply reentrant_UpdateAll].
  - simpl. apply adds_emit; [apply Hlog | exact Hs].
Qed.

Lemma allowed_UpdatePreeditMethod (P : Event -> bool) (e : MozcEngine Sess) :
  P Session_GetConfig = true ->
  (forall message, P (LOG_ERROR message) = true) ->
  adds P e (UpdatePreeditMethod e).
Proof.
  intros Hget Hlog. unfold UpdatePreeditMethod, session_GetConfig.
  destruct (client.GetConfig (session_ e)) as [[c|] s].
  - apply adds_same_log with (e := emit Session_GetConfig e); [reflexivity|].
    now apply adds_emit1.
  - apply adds_emit; [apply Hlog|].
    apply adds_same_log with (e := emit Session_GetConfig e); [reflexivity|].
    now apply adds_emit1.
Qed.

Lemma allowed_dispatch depth c (e : MozcEngine Sess) :
  adds (allowed c) e (dispatch depth c e).
Proof.
  destruct c; cbn [dispatch].
  - (* Enable *)
    unfold Enable, bind, call, lift, session_EnsureConnection.
    destruct (client.EnsureConnection (session_ e)) as [ok s].
    match goal with
    | |- context [RevertSession depth ?x] =>
        assert (H0 : adds (allowed CallEnable) e x);
          [|pose proof (@allowed_RevertSession depth (allowed CallEnable) x) as Hr;
            destruct (RevertSession depth x)]
    end.
    + eapply adds_trans;
        [|apply allowed_UpdatePreeditMethod;
          [reflexivity | intros message; apply orb_true_r]].
      apply adds_same_log with (e := emit Session_EnsureConnection e);
        [reflexivity | now apply adds_emit1].
    + cbn [engine_of] in *. eapply adds_trans; [exact H0 | apply Hr].
      * intros ev Hev. unfold allowed. now rewrite Hev.
      * reflexivity.
      * intros message. apply orb_true_r.
    + cbn [engine_of] in *. eapply adds_trans; [exact H0 | apply Hr].
      * intros ev Hev. unfold allowed. now rewrite Hev.
      * reflexivity.
      * intros message. apply orb_true_r.
  - (* Disable *)
    apply allowed_RevertSession.
    + intros ev Hev. unfold allowed. now rewrite Hev.
    + reflexivity.
    + intros message. apply orb_true_r.
  - (* FocusIn *)
    now apply adds_emit1.
  - (* FocusOut *)
    unfold FocusOut, bind, lift.
    pose proof (@allowed_RevertSession depth (allowed (CallFocusOut time_NULL)) e)
      as Hr.
    assert (Hr' : adds (allowed (CallFocusOut time_NULL)) e
                       (engine_of (RevertSession depth e))).
    { apply Hr.
      - intros ev Hev. unfold allowed. now rewrite Hev.
      - reflexivity.
      - intros message. apply orb_true_r. }
    destruct (RevertSession depth e) as [[] e1|e1]; cbn [engine_of] in *;
      [|exact Hr'].
    destruct (SyncData_cases false time_NULL e1) as [-> | ->]; [exact Hr'|].
    apply adds_same_log with (e := emit Session_SyncData e1); [reflexivity|].
    apply adds_emit; [reflexivity | exact Hr'].
  - (* Reset *)
    apply allowed_RevertSession.
    + intros ev Hev. unfold allowed. now rewrite Hev.
    + reflexivity.
    + intros message. apply orb_true_r.
  - (* ProcessKeyEvent *)
    set (P := allowed (CallProcessKeyEvent engine_name keyval keycode modifiers)).
    assert (Hlog : forall message, P (LOG_ERROR message) = true)
      by (intros message; apply orb_true_r).
    destruct (is_release modifiers) eqn:Hrel.
    + rewrite ProcessKeyEvent_release by assumption. apply adds_refl.
    + rewrite ProcessKeyEvent_press by assumption. cbv zeta.
      assert (H0 : adds P e (before_translate e)).
      { unfold before_translate. destruct OS_CHROMEOS eqn:Hos; [|apply adds_refl].
        apply allowed_UpdatePreeditMethod; [|exact Hlog].
        unfold P. simpl. exact Hos. }
      set (e0 := before_translate e) in *.
      destruct (Translate _ _ _ _ _) as [key|].
      * destruct (_ && _); [now apply adds_emit|].
        unfold session_SendKey.
        destruct (client.SendKey _ key) as [[ok output] s].
        match goal with
        | |- context [set_session_ s ?x] =>
            assert (H1 : adds P e (set_session_ s x))
              by (apply adds_same_log with (e := x); [reflexivity|];
                  repeat (apply adds_emit; [reflexivity|]); exact H0)
        end.
        destruct ok; simpl negb; cbv iota.
        -- match goal with
           | |- context [UpdateAll depth output ?x] =>
               pose proof (reentrant_UpdateAll depth output x) as H2;
                 destruct (UpdateAll depth output x)
           end; simpl in *; (eapply adds_trans; [exact H1|]);
             (eapply adds_weaken; [|exact H2]);
             intros ev Hev; unfold P, allowed; now rewrite Hev.
        -- simpl. apply adds_emit; [apply Hlog | exact H1].
      * simpl. apply adds_emit; [apply Hlog|].
        apply adds_emit; [reflexivity | exact H0].
  - (* CandidateClicked *)
    unfold CandidateClicked.
    destruct (_ <=? index_); [apply adds_refl|].
    destruct (_ =? kBadCandidateId); [apply adds_refl|].
    unfold bind, call.
    match goal with
    | |- context [session_SendCommand ?c e] =>
        pose proof (@adds_SendCommand
                      (allowed (CallCandidateClicked index_ button state)) c e
                      eq_refl) as Hs;
          destruct (session_SendCommand c e) as [r e1]
    end.
    cbn [snd] in *.
    pose proof (reentrant_UpdateAll depth (snd r) e1) as H2.
    eapply adds_trans; [exact Hs|].
    eapply adds_weaken; [|exact H2].
    intros ev Hev. unfold allowed. now rewrite Hev.
  - (* PropertyActivate *)
    apply reentrant_PropertyActivate_, reentrant_UpdateAll.
  - apply adds_refl.
  - apply adds_refl.
  - (* ConfigValueChanged *)
    unfold ConfigValueChanged. destruct OS_CHROMEOS eqn:Hos; [|apply adds_refl].
    destruct (UpdateConfig_cases section name gvalue e)
      as [-> | [[message ->] | [c ->]]].
    + apply adds_refl.
    + apply adds_emit1. simpl. now rewrite Hos.
    + eexists. split; [apply session_SetConfig_SyncData_calls|].
      simpl. now rewrite Hos.
Qed.

Lemma allowed_run_calls depth calls : forall e : MozcEngine Sess,
  adds (allowed_in calls) e (run_calls depth calls e).
Proof.
  induction calls as [|c rest IH]; intros e; simpl.
  - apply adds_refl.
  - apply adds_trans with (e2 := dispatch depth c e).
    + eapply adds_weaken; [|apply allowed_dispatch].
      intros ev Hev. cbn [allowed_in existsb]. now rewrite Hev.
    + eapply adds_weaken; [|apply IH].
      intros ev Hev. cbn [allowed_in existsb]. unfold allowed_in in Hev.
      rewrite Hev. apply orb_true_r.
Qed.

(** X15: the calls of a sequence of host callbacks.  Every call that a
    sequence of callbacks makes is one that some callback of the sequence
    may make: host UI updates, SUBMIT and SWITCH_INPUT_MODE from any callback
    that applies an output or activates a property; REVERT only from
    [Enable], [Disable], [Reset] and [FocusOut]; SELECT_CANDIDATE only from
    a click; [SendKey] and the key translator only from a key event;
    [SyncData] only from [FocusOut] and, on the in-process build, from a
    configuration change; [GetConfig] only from [Enable] and, on the
    in-process build, from a key event; the registration of the properties
    only from [FocusIn].  [SetCursorLocation] and [SetCapabilities] call
    nothing, and on the client/server build neither does a configuration
    change. *)
Theorem X15_callback_alphabet depth calls (e : MozcEngine Sess) :
  exists l,
    log (run_calls depth calls e) = log e ++ l
    /\ forall ev, In ev l -> exists c, In c calls /\ allowed c ev = true.
Proof.
  destruct (allowed_run_calls depth calls e) as (l & Hl & Hall).
  exists l. split; [exact Hl|].
  intros ev Hin. rewrite forallb_forall in Hall. specialize (Hall ev Hin).
  unfold allowed_in in Hall. apply existsb_exists in Hall.
  destruct Hall as (c & Hc & Hev). now exists c.
Qed.

(** ** The clock of the debounced synchronisation *)

Lemma SyncData_clock time_NULL (e : MozcEngine Sess) :
  0 <= last_sync_time_ e ->
  exists l,
    log (SyncData false time_NULL e) = log e ++ l
    /\ (forall ev, In ev l -> ev = Session_SyncData)
    /\ 0 <= last_sync_time_ (SyncData false time_NULL e)
    /\ kSyncDataInterval * Z.of_nat (count_SyncData l)
       <= last_sync_time_ (SyncData false time_NULL e) - last_sync_time_ e.
Proof.
  intros H0. unfold SyncData. cbn [orb].
  assert (Hrange : 0 <= GetTime time_NULL < 2 ^ 64)
    by (unfold GetTime, wrap_uint64; apply Z.mod_pos_bound; lia).
  destruct (Z.leb_spec (last_sync_time_ e) (GetTime time_NULL)) as [Hle|Hgt];
    cbn [andb].
  - rewrite (@wrap_uint64_small (GetTime time_NULL - last_sync_time_ e)) by lia.
    destruct (Z.leb_spec kSyncDataInterval (GetTime time_NULL - last_sync_time_ e))
      as [Hint|Hint].
    + exists [Session_SyncData]. cbn [count_SyncData filter is_SyncData_call
                                        List.length].
      split; [reflexivity|]. split; [intros ev [<-|[]]; reflexivity|].
      cbn [last_sync_time_ set_last_sync_time_ session_SyncData set_session_ emit].
      unfold kSyncDataInterval in *. lia.
    + exists []. rewrite app_nil_r. split; [reflexivity|].
      split; [intros ev []|]. cbn [count_SyncData filter List.length]. lia.
  - exists []. rewrite app_nil_r. split; [reflexivity|].
    split; [intros ev []|]. cbn [count_SyncData filter List.length]. lia.
Qed.

Lemma FocusOut_clock depth time_NULL (e : MozcEngine Sess) :
  0 <= last_sync_time_ e ->
  exists l,
    log (engine_of (FocusOut depth time_NULL e)) = log e ++ l
    /\ 0 <= last_sync_time_ (engine_of (FocusOut depth time_NULL e))
    /\ kSyncDataInterval * Z.of_nat (count_SyncData l)
       <= last_sync_time_ (engine_of (FocusOut depth time_NULL e))
          - last_sync_time_ e.
Proof.
  intros H0. unfold FocusOut, bind, lift.
  destruct (RevertSession_step depth e) as (Hlast & l1 & Hl1 & Hrev).
  unfold calls_between in Hl1. apply revert_event_no_sync in Hrev.
  destruct (RevertSession depth e) as [[] e1|e1]; cbn [engine_of] in *.
  - destruct (@SyncData_clock time_NULL e1) as (l2 & Hl2 & _ & Hpos & Hcount);
      [lia|].
    exists (l1 ++ l2). rewrite Hl2, Hl1, <- app_assoc. split; [reflexivity|].
    split; [exact Hpos|]. rewrite count_SyncData_app, Hrev, Nat.add_0_l, <- Hlast.
    exact Hcount.
  - exists l1. split; [exact Hl1|]. rewrite Hrev, Hlast.
    change (Z.of_nat 0) with 0. rewrite Z.mul_0_r. lia.
Qed.

(** X16: the debounce over a run of focus changes.  Along any sequence of
    [FocusOut] calls the stored time of the last synchronisation never goes
    back, and each [SyncData] call advances it by at least the interval: the
    number of synchronisations times 300 seconds is at most the advance of
    the stored time. *)
Theorem X16_debounce_bound depth times (e : MozcEngine Sess) :
  0 <= last_sync_time_ e ->
  exists l,
    log (focus_outs depth times e) = log e ++ l
    /\ kSyncDataInterval * Z.of_nat (count_SyncData l)
       <= last_sync_time_ (focus_outs depth times e) - last_sync_time_ e.
Proof.
  revert e. induction times as [|t rest IH]; intros e H0; cbn [focus_outs fold_left].
  - exists []. rewrite app_nil_r. split; [reflexivity|].
    change (Z.of_nat (count_SyncData [])) with 0. rewrite Z.mul_0_r. lia.
  - destruct (FocusOut_clock depth t e H0) as (l1 & Hl1 & Hpos & Hc1).
    destruct (IH (engine_of (FocusOut depth t e)) Hpos) as (l2 & Hl2 & Hc2).
    exists (l1 ++ l2). unfold focus_outs in *. rewrite Hl2, Hl1, <- app_assoc.
    split; [reflexivity|]. rewrite count_SyncData_app, Nat2Z.inj_add.
    unfold kSyncDataInterval in *. lia.
Qed.

(** X17: what a configuration update leaves alone.  On every build
    [UpdateConfig] ignores a notification without section, name or value
    and one for another section than "engine/Mozc".  Whatever it is given,
    it never changes the stored time of the last synchronisation (its
    [SyncData] does not count for the debounce), the preedit method, the
    mode, the id list or the menus. *)
Theorem X17_UpdateConfig_frame section_ name gvalue (e : MozcEngine Sess) :
  (section_ = None \/ name = None \/ gvalue = None
   \/ (exists s, section_ = Some s /\ s <> kMozcSectionName) ->
   UpdateConfig section_ name gvalue e = e)
  /\ last_sync_time_ (UpdateConfig section_ name gvalue e) = last_sync_time_ e
  /\ preedit_method_ (UpdateConfig section_ name gvalue e) = preedit_method_ e
  /\ current_composition_mode_ (UpdateConfig section_ name gvalue e)
     = current_composition_mode_ e
  /\ unique_candidate_ids_ (UpdateConfig section_ name gvalue e)
     = unique_candidate_ids_ e
  /\ prop_composition_mode_ (UpdateConfig section_ name gvalue e)
     = prop_composition_mode_ e
  /\ prop_mozc_tool_ (UpdateConfig section_ name gvalue e) = prop_mozc_tool_ e.
Proof.
  split.
  - intros Hnull. unfold UpdateConfig.
    destruct (negb OS_CHROMEOS); [reflexivity|].
    destruct Hnull as [-> | [-> | [-> | (s & -> & Hs)]]]; try reflexivity.
    + now destruct section_.
    + destruct section_, name; reflexivity.
    + destruct name as [n|]; [|reflexivity].
      destruct gvalue as [g|]; [|reflexivity].
      apply String.eqb_neq in Hs. now rewrite Hs.
  - destruct (UpdateConfig_cases section_ name gvalue e)
      as [-> | [[message ->] | [c ->]]]; try (repeat split; reflexivity).
    unfold session_SetConfig, session_SyncData.
    destruct (client.SetConfig (session_ e) c) as [r s]. repeat split.
Qed.

End EngineFacts5.

(** ** The quality harness: client calls and the loops of [main] *)

Section HarnessFacts2.
Context {util : quality.Util} {scorer : quality.Scorer}.
Context {doubles : quality.Doubles}.
Context {C : Type} {client : quality.Client C}.
Context {starting : quality.Startup C}.

Import quality.

Lemma send_keys_trace keys : forall output (w : World),
  trace (snd (send_keys keys output w)) = trace w ++ map Client_SendKey keys.
Proof.
  induction keys as [|key rest IH]; intros output w; cbn [send_keys map].
  - now rewrite app_nil_r.
  - unfold client_SendKey.
    destruct (SendKey (client_ w) key) as [[ok o] c].
    rewrite IH. cbn [trace]. now rewrite <- app_assoc.
Qed.

Lemma client_calls_keys keys :
  client_calls (map Client_SendKey keys) = map Client_SendKey keys.
Proof.
  unfold client_calls. induction keys as [|k rest IH]; simpl; [reflexivity|].
  now rewrite IH.
Qed.

(** X18: the calls to the client for one test case.  When no key sequence
    can be generated the client is not called.  Otherwise the harness sends
    ON, then the generated keys in order (SPACE last), whatever the client
    answers; it sends REVERT after them exactly when a score is returned, so
    a case that ends without preedit text leaves the session as the keys
    left it. *)
Theorem X18_client_calls hiragana_sentence expected_result (w : World) :
  let r := CalculateBLEU hiragana_sentence expected_result w in
  exists tr,
    trace (snd r) = trace w ++ tr
    /\ client_calls tr
       = match GenerateKeySequenceFrom hiragana_sentence with
         | None => []
         | Some keys =>
             Client_SendKey (key_of_special ON) :: map Client_SendKey keys
             ++ match fst r with
                | Some _ => [Client_SendCommand REVERT_command]
                | None => []
                end
         end.
Proof.
  intros r. unfold r. rewrite CalculateBLEU_unfold.
  destruct (GenerateKeySequenceFrom hiragana_sentence) as [keys|].
  2:{ eexists. split; reflexivity. }
  pose proof (send_keys_trace (key_of_special ON :: keys) no_output w) as Htr.
  destruct (send_keys (key_of_special ON :: keys) no_output w) as [output w1].
  cbn [snd] in Htr. cbv zeta.
  assert (Hkeys : client_calls (map Client_SendKey (key_of_special ON :: keys))
                  = Client_SendKey (key_of_special ON) :: map Client_SendKey keys)
    by apply client_calls_keys.
  destruct (GetPreedit output) as [preedit_|].
  - destruct (is_empty preedit_); cbn [fst snd].
    + eexists. split.
      * cbn [note trace]. rewrite Htr, <- !app_assoc. reflexivity.
      * unfold client_calls in *. rewrite !filter_app, Hkeys. reflexivity.
    + eexists. split.
      * rewrite client_SendCommand_trace. cbn [note trace].
        rewrite Htr, <- !app_assoc. reflexivity.
      * unfold client_calls in *. rewrite !filter_app, Hkeys. reflexivity.
  - cbn [fst snd]. eexists. split.
    + cbn [note trace]. rewrite Htr, <- !app_assoc. reflexivity.
    + unfold client_calls in *. rewrite !filter_app, Hkeys. simpl.
      now rewrite app_nil_r.
Qed.

Lemma scores_find_set_same source_ v (scores : Scores) :
  scores_find source_ (scores_set source_ v scores) = Some v.
Proof.
  induction scores as [|[k v'] rest IH]; simpl.
  - now rewrite String.eqb_refl.
  - destruct (String.eqb k source_) eqn:Hk; simpl; rewrite Hk;
      [reflexivity | exact IH].
Qed.

Lemma scores_find_set_other source_ other v (scores : Scores) :
  source_ <> other ->
  scores_find other (scores_set source_ v scores) = scores_find other scores.
Proof.
  intros Hne. induction scores as [|[k v'] rest IH]; simpl.
  - apply String.eqb_neq in Hne. now rewrite Hne.
  - destruct (String.eqb k source_) eqn:Hk; simpl.
    + apply String.eqb_eq in Hk. subst k.
      apply String.eqb_neq in Hne. now rewrite Hne.
    + now rewrite IH.
Qed.

Lemma scores_find_set_present source_ other v (scores : Scores) :
  scores_find other scores <> None ->
  scores_find other (scores_set source_ v scores) <> None.
Proof.
  intros Hsome. destruct (String.eqb_spec source_ other) as [<-|Hne].
  - rewrite scores_find_set_same. discriminate.
  - now rewrite scores_find_set_other.
Qed.

Lemma scores_find_set_bound (Q : list Score -> Prop) source_ v (scores : Scores) :
  Q v ->
  (forall s u, scores_find s scores = Some u -> Q u) ->
  forall s u, scores_find s (scores_set source_ v scores) = Some u -> Q u.
Proof.
  intros Hv Hall s u. destruct (String.eqb_spec source_ s) as [<-|Hne].
  - rewrite scores_find_set_same. now intros [= <-].
  - rewrite scores_find_set_other by assumption. apply Hall.
Qed.

(** One turn of the loop: the entry of the case's source exists afterwards,
    entries stay, and the bound on the lengths is kept. *)
Lemma run_test_case_inv max_case_for_source test_case (scores : Scores) (w : World) :
  (forall s u, scores_find s scores = Some u ->
               Z.of_nat (List.length u) <= wrap_uint64 max_case_for_source) ->
  let scores' := fst (run_test_case max_case_for_source test_case (scores, w)) in
  (forall s u, scores_find s scores' = Some u ->
               Z.of_nat (List.length u) <= wrap_uint64 max_case_for_source)
  /\ scores_find (source test_case) scores' <> None
  /\ (forall s, scores_find s scores <> None -> scores_find s scores' <> None).
Proof.
  intros Hall. cbv zeta.
  assert (HW : 0 <= wrap_uint64 max_case_for_source)
    by (unfold wrap_uint64; apply Z.mod_pos_bound; lia).
  unfold run_test_case.
  set (scores1 := match scores_find (source test_case) scores with
                  | None => scores_set (source test_case) [] scores
                  | Some _ => scores
                  end).
  assert (Hall1 : forall s u, scores_find s scores1 = Some u ->
                    Z.of_nat (List.length u) <= wrap_uint64 max_case_for_source).
  { unfold scores1. destruct (scores_find (source test_case) scores); [exact Hall|].
    apply scores_find_set_bound; [simpl; lia | exact Hall]. }
  assert (Hhas1 : scores_find (source test_case) scores1 <> None).
  { unfold scores1.
    destruct (scores_find (source test_case) scores) eqn:Hf;
      [rewrite Hf; discriminate | rewrite scores_find_set_same; discriminate]. }
  assert (Hkeep1 : forall s, scores_find s scores <> None ->
                             scores_find s scores1 <> None).
  { unfold scores1. intros s Hs.
    destruct (scores_find (source test_case) scores); [exact Hs|].
    now apply scores_find_set_present. }
  clearbody scores1.
  destruct (scores_find (source test_case) scores1) as [current|] eqn:Hcur;
    [|contradiction].
  destruct (Z.leb_spec (wrap_uint64 max_case_for_source)
                       (Z.of_nat (List.length current))) as [Hcap|Hroom].
  - cbn [fst]. rewrite Hcur. repeat split; [exact Hall1 | discriminate | exact Hkeep1].
  - destruct (negb (IsValidSourceSentence (hiragana_sentence_ test_case))).
    + cbn [fst]. rewrite Hcur.
      repeat split; [exact Hall1 | discriminate | exact Hkeep1].
    + destruct (CalculateBLEU _ _ w) as [[score|] w1]; cbn [fst].
      * split; [|split].
        -- apply scores_find_set_bound; [|exact Hall1].
           rewrite length_app. simpl. lia.
        -- rewrite scores_find_set_same. discriminate.
        -- intros s Hs. apply scores_find_set_present. now apply Hkeep1.
      * rewrite Hcur. repeat split; [exact Hall1 | discriminate | exact Hkeep1].
Qed.

Lemma run_test_cases_inv max_case_for_source test_cases :
  forall (scores : Scores) (w : World),
    (forall s u, scores_find s scores = Some u ->
                 Z.of_nat (List.length u) <= wrap_uint64 max_case_for_source) ->
    let scores' := fst (run_test_cases max_case_for_source test_cases (scores, w)) in
    (forall s u, scores_find s scores' = Some u ->
                 Z.of_nat (List.length u) <= wrap_uint64 max_case_for_source)
    /\ (forall test_case, In test_case test_cases ->
                          scores_find (source test_case) scores' <> None)
    /\ (forall s, scores_find s scores <> None -> scores_find s scores' <> None).
Proof.
  induction test_cases as [|tc rest IH]; intros scores w Hall; cbv zeta.
  - cbn [run_test_cases fold_left fst]. repeat split; [exact Hall | intros ? [] | auto].
  - unfold run_test_cases. cbn [fold_left].
    destruct (@run_test_case_inv max_case_for_source tc scores w Hall)
      as (H1 & H2 & H3).
    destruct (run_test_case max_case_for_source tc (scores, w)) as [scores1 w1].
    cbn [fst] in H1, H2, H3.
    destruct (IH scores1 w1 H1) as (I1 & I2 & I3). unfold run_test_cases in *.
    split; [exact I1|]. split.
    + intros test_case [<-|Hin]; [now apply I3 | now apply I2].
    + intros s Hs. now apply I3, H3.
Qed.

(** X19: the first loop of [main].  After the loop over the test cases the
    map has an entry for the source of every test case, also of those that
    were rejected or could not be scored, and no entry holds more scores
    than the flag [max_case_for_source] read as an unsigned 64-bit number. *)
Theorem X19_scores_per_source max_case_for_source test_cases (w : World) :
  let scores := fst (run_test_cases max_case_for_source test_cases ([], w)) in
  (forall test_case, In test_case test_cases ->
                     scores_find (source test_case) scores <> None)
  /\ (forall s u, scores_find s scores = Some u ->
                  Z.of_nat (List.length u) <= wrap_uint64 max_case_for_source).
Proof.
  cbv zeta.
  destruct (@run_test_cases_inv max_case_for_source test_cases [] w)
    as (H1 & H2 & _); [intros s u; discriminate|].
  split; assumption.
Qed.

Lemma forallb_insert_by_key (P : string * list Score -> bool) kv (l : Scores) :
  forallb P (insert_by_key kv l) = P kv && forallb P l.
Proof.
  induction l as [|kv' rest IH]; simpl; [reflexivity|].
  destruct (String.leb (fst kv) (fst kv')); simpl; [reflexivity|].
  rewrite IH. now rewrite !andb_assoc, (andb_comm (P kv')).
Qed.

Lemma forallb_map_order (P : string * list Score -> bool) (scores : Scores) :
  forallb P (map_order scores) = forallb P scores.
Proof.
  unfold map_order. induction scores as [|kv rest IH]; simpl; [reflexivity|].
  now rewrite forallb_insert_by_key, IH.
Qed.

Lemma write_means_spec (entries : Scores) : forall written,
  snd (write_means entries written) = forallb has_scores entries
  /\ fst (write_means entries written)
     = written ++ map mean_line (scored_prefix entries).
Proof.
  induction entries as [|[k v] rest IH]; intros written;
    cbn [write_means scored_prefix map].
  - split; [reflexivity|]. now rewrite app_nil_r.
  - destruct v as [|x v]; cbn [CalculateMean forallb has_scores snd andb map].
    + split; [reflexivity|]. now rewrite app_nil_r.
    + destruct (IH (written ++ [(k, divide (accumulate (x :: v))
                                          (Z.of_nat (List.length (x :: v))))]))
        as (I1 & I2).
      split; [exact I1|]. rewrite I2, <- app_assoc. reflexivity.
Qed.

Lemma scored_prefix_all (entries : Scores) :
  forallb has_scores entries = true -> scored_prefix entries = entries.
Proof.
  induction entries as [|kv rest IH]; simpl; [reflexivity|].
  intros Hall. apply andb_true_iff in Hall. destruct Hall as [Hkv Hrest].
  now rewrite Hkv, IH.
Qed.

Lemma String_compare_le_trans s1 : forall s2 s3,
  String.compare s1 s2 <> Gt -> String.compare s2 s3 <> Gt ->
  String.compare s1 s3 <> Gt.
Proof.
  induction s1 as [|a s1 IH]; intros [|b s2] [|c s3]; simpl;
    try congruence.
  unfold Ascii.compare.
  destruct (N.compare_spec (N_of_ascii a) (N_of_ascii b)) as [Hab|Hab|Hab],
           (N.compare_spec (N_of_ascii b) (N_of_ascii c)) as [Hbc|Hbc|Hbc],
           (N.compare_spec (N_of_ascii a) (N_of_ascii c)) as [Hac|Hac|Hac];
    try congruence; try lia.
  apply IH.
Qed.

Lemma String_leb_trans s1 s2 s3 :
  String.leb s1 s2 = true -> String.leb s2 s3 = true -> String.leb s1 s3 = true.
Proof.
  unfold String.leb. intros H12 H23.
  assert (H13 : String.compare s1 s3 <> Gt).
  { apply String_compare_le_trans with (s2 := s2).
    - destruct (String.compare s1 s2); [discriminate | discriminate | discriminate H12].
    - destruct (String.compare s2 s3); [discriminate | discriminate | discriminate H23]. }
  destruct (String.compare s1 s3); [reflexivity | reflexivity | contradiction].
Qed.

Lemma insert_by_key_perm kv (l : Scores) :
  Permutation (insert_by_key kv l) (kv :: l).
Proof.
  induction l as [|kv' rest IH]; simpl; [reflexivity|].
  destruct (String.leb (fst kv) (fst kv')); [reflexivity|].
  rewrite IH. apply perm_swap.
Qed.

Lemma map_order_perm (scores : Scores) : Permutation (map_order scores) scores.
Proof.
  unfold map_order. induction scores as [|kv rest IH]; simpl; [reflexivity|].
  rewrite insert_by_key_perm. now constructor.
Qed.

Lemma insert_by_key_sorted kv (l : Scores) :
  StronglySorted key_le l -> StronglySorted key_le (insert_by_key kv l).
Proof.
  induction l as [|kv' rest IH]; intros Hs; simpl.
  - constructor; constructor.
  - inversion Hs as [|? ? Hrest Hall]; subst.
    destruct (String.leb (fst kv) (fst kv')) eqn:Hle.
    + constructor; [exact Hs|]. constructor; [exact Hle|].
      eapply Forall_impl; [|exact Hall].
      intros kv'' Hle'. unfold key_le in *.
      now apply String_leb_trans with (s2 := fst kv').
    + constructor; [now apply IH|].
      assert (Hge : key_le kv' kv).
      { unfold key_le. destruct (String.leb_total (fst kv) (fst kv')) as [H|H];
          [congruence | exact H]. }
      eapply Permutation_Forall; [symmetry; apply insert_by_key_perm|].
      constructor; assumption.
Qed.

Lemma map_order_sorted (scores : Scores) : StronglySorted key_le (map_order scores).
Proof.
  unfold map_order. induction scores as [|kv rest IH]; simpl; [constructor|].
  now apply insert_by_key_sorted.
Qed.

(** X20: the report of the means.  The loop goes through the entries of the
    map in ascending order of the keys (every entry once; byte-wise
    lexicographic order), and writes for each the key with the sum of its
    scores divided by their number.  It comes to its end exactly when every
    entry holds at least one score; the first entry without score stops the
    program in [CalculateMean], after the lines of the entries before it. *)
Theorem X20_report (scores : Scores) :
  Permutation (map_order scores) scores
  /\ StronglySorted key_le (map_order scores)
  /\ snd (report scores) = forallb has_scores scores
  /\ fst (report scores) = map mean_line (scored_prefix (map_order scores))
  /\ (forallb has_scores scores = true ->
      fst (report scores) = map mean_line (map_order scores)).
Proof.
  unfold report. destruct (write_means_spec (map_order scores) []) as (H1 & H2).
  rewrite forallb_map_order in H1.
  split; [apply map_order_perm|]. split; [apply map_order_sorted|].
  split; [exact H1|]. split; [exact H2|].
  intros Hall. rewrite H2, scored_prefix_all; [reflexivity|].
  now rewrite forallb_map_order.
Qed.







End HarnessFacts2.

(** ** What every reachable engine satisfies *)

Section EngineFacts6.
Context {build : Build} {schema : ConfigSchema} {linked : Collaborators}.
Context {Sess : Type} {session : client.Session Sess}.

Lemma keeps_refl (e : MozcEngine Sess) : keeps e e.
Proof. split; reflexivity. Qed.

Lemma keeps_trans (e1 e2 e3 : MozcEngine Sess) :
  keeps e1 e2 -> keeps e2 e3 -> keeps e1 e3.
Proof. intros [A1 A2] [B1 B2]. split; congruence. Qed.

Lemma keeps_op_ret {A} (a : A) : keeps_op (ret (Sess := Sess) a).
Proof. intros e. apply keeps_refl. Qed.

Lemma keeps_op_bind {A B} (m : M Sess A) (k : A -> M Sess B) :
  keeps_op m -> (forall a, keeps_op (k a)) -> keeps_op (bind m k).
Proof.
  intros Hm Hk e. unfold bind. specialize (Hm e).
  destruct (m e) as [a e'|e']; simpl in *; [|exact Hm].
  eapply keeps_trans; [exact Hm | apply Hk].
Qed.

Lemma keeps_op_lift (f : MozcEngine Sess -> MozcEngine Sess) :
  (forall e, keeps e (f e)) -> keeps_op (lift f).
Proof. intros Hf e. apply Hf. Qed.

Lemma keeps_SendCommand command (e : MozcEngine Sess) :
  keeps e (snd (session_SendCommand command e)).
Proof.
  unfold session_SendCommand.
  destruct (client.SendCommand (session_ e) command) as [r s]. split; reflexivity.
Qed.

Lemma keeps_op_SendCommand command :
  keeps_op (call (session_SendCommand command)).
Proof.
  intros e. unfold call. pose proof (keeps_SendCommand command e) as Hs.
  destruct (session_SendCommand command e) as [r e']. exact Hs.
Qed.

Lemma keeps_UpdateResult output (e : MozcEngine Sess) :
  keeps e (UpdateResult output e).
Proof. unfold UpdateResult. destruct (result output); split; reflexivity. Qed.

Lemma keeps_UpdatePreedit output (e : MozcEngine Sess) :
  keeps e (UpdatePreedit output e).
Proof. unfold UpdatePreedit. destruct (preedit output); split; reflexivity. Qed.

Lemma keeps_UpdateCandidates output (e : MozcEngine Sess) :
  keeps e (UpdateCandidates output e).
Proof.
  unfold UpdateCandidates. destruct (candidates output) as [cands|]; cbv zeta.
  - destruct (focused_index cands); split; reflexivity.
  - split; reflexivity.
Qed.

Lemma set_nth_state_shape i st items :
  map (fun p => (radio_key p, radio_entry p)) (set_nth_state i st items)
  = map (fun p => (radio_key p, radio_entry p)) items.
Proof.
  revert i. induction items as [|p rest IH]; intros [|i]; simpl;
    try reflexivity. now rewrite IH.
Qed.

Lemma keeps_set_state i st (e : MozcEngine Sess) :
  keeps e (ibus_property_set_state i st e).
Proof.
  split; [|reflexivity]. unfold menu_shape. simpl.
  now rewrite set_nth_state_shape.
Qed.

Section KeepsCore.
Variable UpdateAll_rec : Output -> M Sess unit.
Hypothesis UpdateAll_rec_keeps : forall output, keeps_op (UpdateAll_rec output).

Lemma keeps_op_SetCompositionMode_ composition_mode :
  keeps_op (SetCompositionMode_ UpdateAll_rec composition_mode).
Proof.
  unfold SetCompositionMode_.
  destruct (CompositionMode_eqb composition_mode DIRECT).
  - apply keeps_op_bind; [apply keeps_op_SendCommand|]. intros r.
    apply keeps_op_bind; [apply UpdateAll_rec_keeps|]. intros _.
    apply keeps_op_lift. intros e. split; reflexivity.
  - apply keeps_op_bind; [apply keeps_op_SendCommand|]. intros r.
    apply keeps_op_lift. intros e. split; reflexivity.
Qed.

Lemma keeps_op_radio_loop n : forall i property_name,
  keeps_op (radio_loop UpdateAll_rec n i property_name).
Proof.
  induction n as [|n IH]; intros i property_name e; simpl.
  - apply keeps_refl.
  - destruct (nth_error (sub_props (prop_composition_mode_ e)) i) as [prop|];
      [|apply keeps_refl].
    apply keeps_op_bind; [|intros _; apply IH].
    destruct (String.eqb property_name (radio_key prop)).
    + apply keeps_op_bind.
      * destruct (radio_entry prop) as [entry|]; [|apply keeps_op_ret].
        apply keeps_op_bind; [apply keeps_op_SetCompositionMode_|]. intros _.
        apply keeps_op_lift. intros e0. split; reflexivity.
      * intros _. apply keeps_op_lift. intros e0. apply keeps_set_state.
    + apply keeps_op_lift. intros e0. apply keeps_set_state.
Qed.

Lemma keeps_op_PropertyActivate_ property_name property_state :
  keeps_op (PropertyActivate_ UpdateAll_rec property_name property_state).
Proof.
  intros e. unfold PropertyActivate_.
  destruct (if OS_CHROMEOS then None
            else match prop_mozc_tool_ e with
                 | Some tool => find_tool_item property_name (tool_sub_props tool)
                 | None => None
                 end) as [prop|].
  - unfold session_LaunchTool.
    destruct (client.LaunchTool _ _ _) as [ok s]. simpl.
    destruct ok; split; reflexivity.
  - destruct (negb (IBusPropState_eqb property_state PROP_STATE_CHECKED));
      [apply keeps_refl|].
    apply keeps_op_bind; [apply keeps_op_radio_loop|]. intros _ e0.
    split; reflexivity.
Qed.

Lemma keeps_op_activate_entries entries new_composition_mode :
  keeps_op (activate_entries_with_mode UpdateAll_rec entries new_composition_mode).
Proof.
  induction entries as [|entry rest IH]; simpl; [apply keeps_op_ret|].
  apply keeps_op_bind; [|intros _; exact IH].
  destruct (CompositionMode_eqb _ _);
    [apply keeps_op_PropertyActivate_ | apply keeps_op_ret].
Qed.

Lemma keeps_op_UpdateAll_ output : keeps_op (UpdateAll_ UpdateAll_rec output).
Proof.
  unfold UpdateAll_.
  apply keeps_op_bind;
    [apply keeps_op_lift; intros e; apply keeps_UpdateResult | intros _].
  apply keeps_op_bind;
    [apply keeps_op_lift; intros e; apply keeps_UpdatePreedit | intros _].
  apply keeps_op_bind;
    [apply keeps_op_lift; intros e; apply keeps_UpdateCandidates | intros _].
  intros e. unfold UpdateCompositionMode_.
  destruct (mode output) as [m|]; [|apply keeps_refl].
  destruct (CompositionMode_eqb _ _); [apply keeps_refl|].
  apply keeps_op_activate_entries.
Qed.
End KeepsCore.

Lemma keeps_op_UpdateAll depth :
  forall output, keeps_op (Sess := Sess) (UpdateAll depth output).
Proof.
  induction depth as [|d IH]; intros output.
  - intros e. apply keeps_refl.
  - simpl. now apply keeps_op_UpdateAll_.
Qed.

Lemma keeps_RevertSession depth (e : MozcEngine Sess) :
  keeps e (engine_of (RevertSession depth e)).
Proof.
  rewrite RevertSession_unfold. cbv zeta.
  pose proof (keeps_SendCommand REVERT_command e) as Hs.
  destruct (session_SendCommand REVERT_command e) as [[ok output] e1].
  cbn [fst snd] in *. destruct ok.
  - eapply keeps_trans; [exact Hs | apply keeps_op_UpdateAll].
  - eapply keeps_trans; [exact Hs | split; reflexivity].
Qed.

Lemma keeps_UpdatePreeditMethod (e : MozcEngine Sess) :
  keeps e (UpdatePreeditMethod e).
Proof.
  unfold UpdatePreeditMethod, session_GetConfig.
  destruct (client.GetConfig (session_ e)) as [[c|] s]; split; reflexivity.
Qed.

Lemma dispatch_keeps depth c (e : MozcEngine Sess) :
  menu_shape (dispatch depth c e) = menu_shape e
  /\ (last_sync_time_ (dispatch depth c e) = last_sync_time_ e
      \/ exists time_NULL, last_sync_time_ (dispatch depth c e) = GetTime time_NULL).
Proof.
  assert (Hk : forall e' : MozcEngine Sess, keeps e e' ->
            menu_shape e' = menu_shape e
            /\ (last_sync_time_ e' = last_sync_time_ e
                \/ exists time_NULL, last_sync_time_ e' = GetTime time_NULL))
    by (intros e' [H1 H2]; split; [exact H1 | now left]).
  destruct c; cbn [dispatch].
  - apply Hk. unfold Enable, bind, call, lift, session_EnsureConnection.
    destruct (client.EnsureConnection (session_ e)) as [ok s].
    match goal with
    | |- context [RevertSession depth ?x] =>
        assert (H0 : keeps e x);
          [|pose proof (keeps_RevertSession depth x) as Hr;
            destruct (RevertSession depth x); cbn [engine_of] in *;
            eapply keeps_trans; eassumption]
    end.
    eapply keeps_trans; [|apply keeps_UpdatePreeditMethod]. split; reflexivity.
  - apply Hk, keeps_RevertSession.
  - apply Hk. split; reflexivity.
  - unfold FocusOut, bind, lift.
    pose proof (keeps_RevertSession depth e) as [Hr1 Hr2].
    destruct (RevertSession depth e) as [[] e1|e1]; cbn [engine_of] in *;
      [|split; [exact Hr1 | now left]].
    destruct (SyncData_cases false time_NULL e1) as [-> | ->];
      [split; [exact Hr1 | now left]|].
    split; [exact Hr1 | right; now exists time_NULL].
  - apply Hk, keeps_RevertSession.
  - apply Hk.
    destruct (is_release modifiers) eqn:Hrel.
    + rewrite ProcessKeyEvent_release by assumption. apply keeps_refl.
    + rewrite ProcessKeyEvent_press by assumption. cbv zeta.
      assert (H0 : keeps e (before_translate e)).
      { unfold before_translate. destruct OS_CHROMEOS;
          [apply keeps_UpdatePreeditMethod | apply keeps_refl]. }
      set (e0 := before_translate e) in *.
      destruct (Translate _ _ _ _ _) as [key|].
      * destruct (_ && _);
          [eapply keeps_trans; [exact H0 | split; reflexivity]|].
        unfold session_SendKey.
        destruct (client.SendKey _ key) as [[ok output] s].
        destruct ok; simpl negb; cbv iota.
        -- unfold bind, ret.
           match goal with
           | |- context [UpdateAll depth output ?x] =>
               pose proof (keeps_op_UpdateAll depth output x) as H2;
                 assert (H1 : keeps e x)
                   by (eapply keeps_trans; [exact H0 | split; reflexivity]);
                 destruct (UpdateAll depth output x)
           end; cbn [engine_of] in *; eapply keeps_trans; eassumption.
        -- eapply keeps_trans; [exact H0 | split; reflexivity].
      * eapply keeps_trans; [exact H0 | split; reflexivity].
  - apply Hk. unfold CandidateClicked.
    destruct (_ <=? index_); [apply keeps_refl|].
    destruct (_ =? kBadCandidateId); [apply keeps_refl|].
    unfold bind, call.
    match goal with
    | |- context [session_SendCommand ?c e] =>
        pose proof (keeps_SendCommand c e) as Hs;
          destruct (session_SendCommand c e) as [r e1]
    end.
    cbn [snd] in *. eapply keeps_trans; [exact Hs | apply keeps_op_UpdateAll].
  - apply Hk. apply keeps_op_PropertyActivate_, keeps_op_UpdateAll.
  - apply Hk, keeps_refl.
  - apply Hk, keeps_refl.
  - apply Hk. unfold ConfigValueChanged. destruct OS_CHROMEOS; [|apply keeps_refl].
    destruct (UpdateConfig_cases section name gvalue e)
      as [-> | [[message ->] | [c ->]]].
    + apply keeps_refl.
    + split; reflexivity.
    + unfold session_SetConfig, session_SyncData.
      destruct (client.SetConfig (session_ e) c) as [r s]. split; reflexivity.
Qed.

Lemma run_calls_keeps depth calls : forall e : MozcEngine Sess,
  menu_shape (run_calls depth calls e) = menu_shape e
  /\ (last_sync_time_ (run_calls depth calls e) = last_sync_time_ e
      \/ exists time_NULL,
           last_sync_time_ (run_calls depth calls e) = GetTime time_NULL).
Proof.
  induction calls as [|c rest IH]; intros e; cbn [run_calls fold_left].
  - split; [reflexivity | now left].
  - destruct (dispatch_keeps depth c e) as [D1 D2].
    destruct (IH (dispatch depth c e)) as [I1 I2]. unfold run_calls in *.
    split; [congruence|].
    destruct I2 as [I2|I2]; [|now right].
    rewrite I2. exact D2.
Qed.

(** X22: what holds of every engine the host can reach.  Whatever callbacks
    the host makes on a constructed engine, the radio menu keeps one item per
    entry of the property table, in the order of the table, each with the
    key of its entry; the tool menu stays the one the constructor made (none
    on the in-process build or when the tool is not installed); and the
    stored time of the last synchronisation is a 64-bit unsigned value. *)
Theorem X22_reachable_engine depth calls time_NULL (s : Sess) :
  let e0 := MozcEngine_new time_NULL s in
  let e := run_calls depth calls e0 in
  menu_of_table e
  /\ prop_mozc_tool_ e = prop_mozc_tool_ e0
  /\ (OS_CHROMEOS = true \/ IsMozcToolAvailable = false -> prop_mozc_tool_ e = None)
  /\ 0 <= last_sync_time_ e < 2 ^ 64.
Proof.
  cbv zeta.
  destruct (run_calls_keeps depth calls (MozcEngine_new time_NULL s)) as [Hs Ht].
  unfold menu_shape in Hs. injection Hs as Hitems Htool.
  assert (Hrange : forall t, 0 <= GetTime t < 2 ^ 64)
    by (intros t; unfold GetTime, wrap_uint64; apply Z.mod_pos_bound; lia).
  split; [|split; [exact Htool|split]].
  - unfold menu_of_table. split.
    + apply (f_equal (map fst)) in Hitems. rewrite !map_map in Hitems.
      exact Hitems.
    + apply (f_equal (map snd)) in Hitems. rewrite !map_map in Hitems.
      exact Hitems.
  - intros Hno. rewrite Htool. simpl.
    destruct Hno as [-> | ->]; [reflexivity | now rewrite andb_false_r].
  - destruct Ht as [-> | [t ->]]; [simpl|]; apply Hrange.
Qed.

End EngineFacts6.

(** ** The Qt renderer *)

Section RendererFacts.
Context {W : Type} {manager : renderer.QtWindowManagerInterface W}.

Import renderer.

Lemma ExecCommand_spec (command : RendererCommand) (r : QtRenderer) :
  fst (ExecCommand command r) = accepted command
  /\ window_manager_ (snd (ExecCommand command r))
     = window_manager_after (window_manager_ r) command
  /\ exists l,
       calls (snd (ExecCommand command r)) = calls r ++ l
       /\ filter is_window_manager_call l = window_calls command.
Proof.
  unfold ExecCommand, accepted, window_manager_after, window_calls.
  destruct (type command).
  - repeat split. exists []. now rewrite app_nil_r.
  - destruct (visible command); repeat split; eexists; split; reflexivity.
  - repeat split. eexists. split; reflexivity.
  - repeat split. eexists. split; reflexivity.
Qed.

(** X23: what the renderer does with a sequence of commands.  Each command
    is answered with true unless it is a SHUTDOWN, which is answered with
    false and changes nothing.  The window manager is asked exactly once
    per UPDATE command and never otherwise: to hide all windows when the
    command is not visible, to update the layout with the command itself
    when it is; it goes through these requests in the order of the
    commands. *)
Theorem X23_exec_commands commands_ (r : QtRenderer) :
  fst (exec_commands commands_ r) = map accepted commands_
  /\ window_manager_ (snd (exec_commands commands_ r))
     = fold_left window_manager_after commands_ (window_manager_ r)
  /\ exists l,
       calls (snd (exec_commands commands_ r)) = calls r ++ l
       /\ filter is_window_manager_call l = flat_map window_calls commands_.
Proof.
  revert r. induction commands_ as [|command rest IH]; intros r;
    cbn [exec_commands map fold_left flat_map].
  - repeat split. exists []. now rewrite app_nil_r.
  - destruct (ExecCommand_spec command r) as (H1 & H2 & l1 & H3 & H4).
    destruct (ExecCommand command r) as [ok r1]. cbn [fst snd] in *.
    destruct (IH r1) as (I1 & I2 & l2 & I3 & I4).
    destruct (exec_commands rest r1) as [oks r2]. cbn [fst snd] in *.
    split; [now rewrite H1, I1|]. split; [now rewrite I2, H2|].
    exists (l1 ++ l2). split.
    + now rewrite I3, H3, app_assoc.
    + now rewrite filter_app, H4, I4.
Qed.

End RendererFacts.

(** ** Further concrete runs *)

Section Runs2.
Import sample.

Local Existing Instance sample.schema.
Local Existing Instance sample.collaborators.
Local Existing Instance sample.session.
Local Existing Instance sample.util.
Local Existing Instance sample.scorer.
Local Existing Instance sample.doubles.
Local Existing Instance sample.scripted_client.
Local Existing Instance sample.ready_client.

(** A click on the third row of the sample candidate list selects id 12;
    the session answers with the committed text "abc", which is shown. *)
Lemma X7_witness :
  log (engine_of (CandidateClicked (build := linux) 1 (Z.of_nat 2) 0 0
                    (UpdateCandidates (build := linux) output_converting
                       (engine linux [(true, output_committed)]))))
  = log (UpdateCandidates (build := linux) output_converting
           (engine linux [(true, output_committed)]))
    ++ [Session_SendCommand (SELECT_CANDIDATE_command 12);
        ibus_engine_commit_text (ibus_text_new_from_string "abc");
        ibus_engine_hide_preedit_text;
        ibus_engine_hide_auxiliary_text;
        ibus_engine_hide_lookup_table].
Proof.
  destruct (@X7_click_selects_row_id linux _ _ _ _ 0%nat output_converting
              candidates_3 2%nat (cand 2 "c" (Some 12)) 12 0 0
              (engine linux [(true, output_committed)])
              eq_refl eq_refl eq_refl ltac:(discriminate))
    as (l & Hl & _ & Hnil).
  destruct (Hnil (or_introl eq_refl)) as [-> _]. exact Hl.
Defined.

(** The activation of the Hiragana item on the constructed engine. *)
Lemma X9_witness :
  exists e',
    PropertyActivate (build := linux) 1 "CompositionMode.Hiragana"
                     PROP_STATE_CHECKED e_linux = Done tt e'
    /\ current_composition_mode_ e' = HIRAGANA
    /\ menu_icon (prop_composition_mode_ e') = "/usr/share/ibus-mozc/hiragana.png"
    /\ radio_states e'
       = [PROP_STATE_UNCHECKED; PROP_STATE_CHECKED; PROP_STATE_UNCHECKED].
Proof.
  assert (Hnd : NoDup (map radio_key (sub_props (prop_composition_mode_ e_linux)))).
  { repeat constructor; simpl; intuition discriminate. }
  destruct (@X9_radio_activation linux _ _ _ _ 1%nat "CompositionMode.Hiragana"
              1%nat _ _ e_linux eq_refl Hnd eq_refl eq_refl eq_refl
              ltac:(discriminate))
    as (e' & H1 & H2 & H3 & H4 & _).
  exists e'. split; [exact H1|]. split; [exact H2|]. split; [exact H3|].
  unfold radio_states. rewrite H4. reflexivity.
Defined.

(** The activation of the tool item, with a state other than "checked". *)
Lemma X10_witness :
  exists e',
    PropertyActivate (build := linux) 1 "config_dialog" PROP_STATE_UNCHECKED e_linux
    = Done tt e'
    /\ log e' = [Session_LaunchTool "config_dialog" ""].
Proof.
  destruct (@X10_tool_launch linux _ _ _ _ 1%nat "config_dialog"
              PROP_STATE_UNCHECKED _ _ e_linux eq_refl eq_refl eq_refl)
    as (e' & H1 & _ & H3 & _).
  exists e'. split; [exact H1 | exact H3].
Defined.

(** An output that announces HIRAGANA to the engine in DIRECT mode. *)
Lemma X11_witness :
  exists e',
    UpdateCompositionMode (build := linux) 1 output_converting e_linux = Done tt e'
    /\ current_composition_mode_ e' = HIRAGANA.
Proof.
  destruct (proj2 (proj2 (@X11_mode_reconciliation linux _ _ _ _ 1%nat
                            output_converting e_linux))
              HIRAGANA
              [ {| MozcEngineProperty.composition_mode := DIRECT;
                   MozcEngineProperty.key := "CompositionMode.Direct";
                   MozcEngineProperty.label := "Direct input";
                   MozcEngineProperty.icon := "direct.png" |} ]
              {| MozcEngineProperty.composition_mode := HIRAGANA;
                 MozcEngineProperty.key := "CompositionMode.Hiragana";
                 MozcEngineProperty.label := "Hiragana";
                 MozcEngineProperty.icon := "hiragana.png" |}
              [ {| MozcEngineProperty.composition_mode := FULL_KATAKANA;
                   MozcEngineProperty.key := "CompositionMode.Katakana";
                   MozcEngineProperty.label := "Katakana";
                   MozcEngineProperty.icon := "katakana_full.png" |} ]
              eq_refl ltac:(discriminate) ltac:(discriminate) eq_refl eq_refl
              ltac:(intros en [<-|[<-|[]]]; discriminate)
              (conj eq_refl eq_refl)
              ltac:(repeat constructor; simpl; intuition discriminate)
              eq_refl)
    as (e' & H1 & H2 & _).
  exists e'. split; [exact H1 | exact H2].
Defined.

(** Henkan in DIRECT mode, answered with a conversion: the key is consumed. *)
Lemma X14_witness :
  ProcessKeyEvent (build := linux) 2 "mozc-jp" IBUS_Henkan 100 0
                  (engine linux [(true, output_converting); (true, no_output)])
  = Done true
         (engine_of
            (ProcessKeyEvent (build := linux) 2 "mozc-jp" IBUS_Henkan 100 0
               (engine linux [(true, output_converting); (true, no_output)]))).
Proof.
  refine (proj1 (proj2 (@X14_accepted_key linux _ _ _ _ 1%nat "mozc-jp"
                          IBUS_Henkan 100 0
                          {| key_code := None; special_key := Some HENKAN |}
                          output_converting [(true, no_output)]
                          (engine linux [(true, output_converting); (true, no_output)])
                          eq_refl eq_refl (fun _ => eq_refl) eq_refl)) _).
  reflexivity.
Defined.

(** Three focus changes at 1400, 1500 and 2000 seconds after a construction
    at 1000. *)
Lemma X16_witness :
  exists l,
    log (focus_outs (build := linux) 1 [1400; 1500; 2000] e_linux)
    = log e_linux ++ l
    /\ kSyncDataInterval * Z.of_nat (count_SyncData l)
       <= last_sync_time_ (focus_outs (build := linux) 1 [1400; 1500; 2000] e_linux)
          - last_sync_time_ e_linux.
Proof.
  refine (@X16_debounce_bound linux _ _ _ _ 1%nat [1400; 1500; 2000] e_linux _).
  vm_compute. discriminate.
Defined.


End Runs2.

(** ** [SetCompositionMode] to DIRECT and the mode of the reply *)

Section EngineFacts7.
Context {build : Build} {schema : ConfigSchema} {linked : Collaborators}.
Context {Sess : Type} {session : client.Session Sess}.

Lemma keeps_uncheck_range n : forall i (e : MozcEngine Sess),
  keeps e (uncheck_range n i e).
Proof.
  induction n as [|n IH]; intros i e; cbn [uncheck_range]; [apply keeps_refl|].
  destruct (nth_error _ i); [|apply keeps_refl].
  eapply keeps_trans; [apply keeps_set_state | apply IH].
Qed.

Lemma map_pair_eq {A B K V} (f : A -> K) (g : A -> V) (f' : B -> K) (g' : B -> V)
      (l : list A) : forall l' : list B,
  map f l = map f' l' -> map g l = map g' l' ->
  map (fun x => (f x, g x)) l = map (fun y => (f' y, g' y)) l'.
Proof.
  induction l as [|x l IH]; intros [|y l'] Hf Hg; simpl in *;
    try discriminate; [reflexivity|].
  injection Hf as Hf1 Hf2. injection Hg as Hg1 Hg2.
  now rewrite Hf1, Hg1, (IH l' Hf2 Hg2).
Qed.

Lemma menu_of_table_items (e : MozcEngine Sess) :
  menu_of_table e <->
  fst (menu_shape e)
  = map (fun en => (MozcEngineProperty.key en, Some en)) kMozcEngineProperties.
Proof.
  unfold menu_of_table, menu_shape. cbn [fst]. split.
  - intros [Hk He]. now apply map_pair_eq.
  - intros Hs. split.
    + apply (f_equal (map fst)) in Hs. rewrite !map_map in Hs. exact Hs.
    + apply (f_equal (map snd)) in Hs. rewrite !map_map in Hs. exact Hs.
Qed.

Lemma menu_of_table_keeps (e e' : MozcEngine Sess) :
  keeps e e' -> menu_of_table e -> menu_of_table e'.
Proof.
  intros [Hs _] Hm. apply menu_of_table_items. rewrite Hs.
  now apply menu_of_table_items.
Qed.

Lemma in_tool_namespace_keeps property_name (e e' : MozcEngine Sess) :
  keeps e e' ->
  in_tool_namespace property_name e' = in_tool_namespace property_name e.
Proof.
  intros [Hs _]. unfold in_tool_namespace.
  apply (f_equal snd) in Hs. unfold menu_shape in Hs. cbn [snd] in Hs.
  now rewrite Hs.
Qed.

Lemma SetCompositionMode_DIRECT_unfold depth (e : MozcEngine Sess) :
  SetCompositionMode depth DIRECT e
  = match UpdateAll depth (snd (fst (session_SendCommand SUBMIT_command e)))
                    (snd (session_SendCommand SUBMIT_command e)) with
    | Done _ e2 => Done tt (set_current_composition_mode_ DIRECT e2)
    | Cut e2 => Cut e2
    end.
Proof.
  unfold SetCompositionMode, SetCompositionMode_.
  rewrite CompositionMode_eqb_refl. unfold bind, call, lift.
  fold SUBMIT_command. cbv beta.
  destruct (session_SendCommand SUBMIT_command e) as [rp e']. reflexivity.
Qed.

Lemma output_events_no_command ty output :
  filter (is_command_of_type ty) (output_events output) = [].
Proof.
  unfold output_events, result_events, preedit_events, candidate_events.
  destruct (result output), (preedit output), (candidates output) as [cands|];
    try destruct (focused_index cands); reflexivity.
Qed.

(** The radio loop when the item with the activated key carries DIRECT and
    the switch to DIRECT does not return: neither does the loop. *)
Lemma radio_loop_cut UpdateAll_rec property_name j prop entry e_cut n :
  forall i (e : MozcEngine Sess),
    NoDup (map radio_key (sub_props (prop_composition_mode_ e))) ->
    (i <= j)%nat -> (j < i + n)%nat ->
    nth_error (sub_props (prop_composition_mode_ e)) j = Some prop ->
    radio_key prop = property_name ->
    radio_entry prop = Some entry ->
    MozcEngineProperty.composition_mode entry = DIRECT ->
    SetCompositionMode_ UpdateAll_rec DIRECT (uncheck_range (j - i) i e)
    = Cut e_cut ->
    radio_loop UpdateAll_rec n i property_name e = Cut e_cut.
Proof.
  induction n as [|n IH]; intros i e Hnd Hij Hjn Hj Hkey Hentry Hmode Hcut; [lia|].
  destruct (Nat.eq_dec i j) as [->|Hne].
  - replace (j - j)%nat with 0%nat in Hcut by lia. cbn [uncheck_range] in Hcut.
    cbn [radio_loop]. rewrite Hj, Hkey, String.eqb_refl, Hentry, Hmode.
    unfold bind. now rewrite Hcut.
  - assert (Hlt : (i < j)%nat) by lia.
    destruct (nth_error (sub_props (prop_composition_mode_ e)) i) as [pi|] eqn:Hi.
    2:{ apply nth_error_None in Hi.
        assert (Hsome : nth_error (sub_props (prop_composition_mode_ e)) j <> None)
          by (rewrite Hj; discriminate).
        apply nth_error_Some in Hsome. lia. }
    assert (Hki : String.eqb property_name (radio_key pi) = false).
    { destruct (String.eqb property_name (radio_key pi)) eqn:Heq; [|reflexivity].
      apply String.eqb_eq in Heq.
      assert (i = j) by (eapply NoDup_keys_same_index; eauto; congruence). lia. }
    cbn [radio_loop]. rewrite Hi, Hki. unfold bind at 1. unfold lift at 1.
    cbv beta iota.
    apply IH; try assumption; try lia.
    + simpl. now rewrite set_nth_state_keys.
    + simpl. rewrite nth_error_set_nth_state.
      destruct (Nat.eqb_spec i j); [lia | exact Hj].
    + replace (j - i)%nat with (S (j - S i)) in Hcut by lia.
      cbn [uncheck_range] in Hcut. rewrite Hi in Hcut. exact Hcut.
Qed.

Lemma activate_entries_cut UpdateAll_rec l1 entry l2 m (e e_cut : MozcEngine Sess) :
  (forall en, In en l1 -> MozcEngineProperty.composition_mode en <> m) ->
  MozcEngineProperty.composition_mode entry = m ->
  PropertyActivate_ UpdateAll_rec (MozcEngineProperty.key entry)
                    PROP_STATE_CHECKED e = Cut e_cut ->
  activate_entries_with_mode UpdateAll_rec (l1 ++ entry :: l2) m e = Cut e_cut.
Proof.
  intros Hall Hm Hact. induction l1 as [|en rest IH]; simpl.
  - rewrite Hm, CompositionMode_eqb_refl. unfold bind. now rewrite Hact.
  - assert (Hne : CompositionMode_eqb (MozcEngineProperty.composition_mode en) m
                  = false)
      by (apply CompositionMode_eqb_neq, Hall; now left).
    rewrite Hne. unfold bind, ret. apply IH.
    intros en' Hin. apply Hall. now right.
Qed.

Lemma menu_item_of_entry l1 entry l2 (e : MozcEngine Sess) :
  kMozcEngineProperties = l1 ++ entry :: l2 ->
  menu_of_table e ->
  exists prop,
    nth_error (sub_props (prop_composition_mode_ e)) (List.length l1) = Some prop
    /\ radio_key prop = MozcEngineProperty.key entry
    /\ radio_entry prop = Some entry.
Proof.
  intros Htable [Hkeys Hentries].
  assert (H1 : nth_error (map radio_key (sub_props (prop_composition_mode_ e)))
                         (List.length l1)
               = Some (MozcEngineProperty.key entry)).
  { rewrite Hkeys, Htable, map_app, nth_error_app2 by (rewrite length_map; lia).
    rewrite length_map, Nat.sub_diag. reflexivity. }
  assert (H2 : nth_error (map radio_entry (sub_props (prop_composition_mode_ e)))
                         (List.length l1)
               = Some (Some entry)).
  { rewrite Hentries, Htable, map_app, nth_error_app2 by (rewrite length_map; lia).
    rewrite length_map, Nat.sub_diag. reflexivity. }
  rewrite nth_error_map in H1, H2.
  destruct (nth_error (sub_props (prop_composition_mode_ e)) (List.length l1))
    as [prop|]; [|discriminate].
  simpl in H1, H2. exists prop. repeat split; congruence.
Qed.

(** A switch to DIRECT whose replies announce DIRECT.  [l1], [entry], [l2]
    split the property table at its first entry for DIRECT. *)
Section Reentry.
Variables (l1 l2 : list MozcEngineProperty.t) (entry : MozcEngineProperty.t).
Hypothesis table_split : kMozcEngineProperties = l1 ++ entry :: l2.
Hypothesis entry_first :
  forall en, In en l1 -> MozcEngineProperty.composition_mode en <> DIRECT.
Hypothesis entry_DIRECT : MozcEngineProperty.composition_mode entry = DIRECT.
Hypothesis keys_distinct : NoDup (map MozcEngineProperty.key kMozcEngineProperties).
Hypothesis replies_DIRECT :
  forall s : Sess, mode (snd (fst (client.SendCommand s SUBMIT_command))) = Some DIRECT.

Lemma SetCompositionMode_DIRECT_reenters depth : forall e : MozcEngine Sess,
  menu_of_table e ->
  in_tool_namespace (MozcEngineProperty.key entry) e = false ->
  current_composition_mode_ e <> DIRECT ->
  completed (SetCompositionMode depth DIRECT e) = false
  /\ current_composition_mode_ (engine_of (SetCompositionMode depth DIRECT e))
     = current_composition_mode_ e
  /\ exists l,
       log (engine_of (SetCompositionMode depth DIRECT e)) = log e ++ l
       /\ List.length (filter (is_command_of_type SUBMIT) l) = S depth.
Proof.
  induction depth as [|d IH]; intros e Hmenu Htool Hmode;
    rewrite SetCompositionMode_DIRECT_unfold, session_SendCommand_unfold;
    cbn [fst snd].
  - cbn [UpdateAll engine_of completed]. repeat split.
    exists [Session_SendCommand SUBMIT_command]. split; reflexivity.
  - set (output := snd (fst (client.SendCommand (session_ e) SUBMIT_command))).
    set (e1 := set_session_ (snd (client.SendCommand (session_ e) SUBMIT_command))
                            (emit (Session_SendCommand SUBMIT_command) e)).
    assert (Hout : mode output = Some DIRECT) by apply replies_DIRECT.
    assert (K1 : keeps e e1) by (split; reflexivity).
    destruct (output_shown output e1) as (Hlog3 & Hmode3 & _).
    set (e3 := UpdateCandidates output (UpdatePreedit output (UpdateResult output e1)))
      in *.
    assert (K3 : keeps e e3).
    { eapply keeps_trans; [exact K1|].
      eapply keeps_trans; [apply keeps_UpdateResult|].
      eapply keeps_trans; [apply keeps_UpdatePreedit | apply keeps_UpdateCandidates]. }
    assert (Hmenu3 : menu_of_table e3) by (eapply menu_of_table_keeps; eassumption).
    assert (Htool3 : in_tool_namespace (MozcEngineProperty.key entry) e3 = false)
      by (rewrite (in_tool_namespace_keeps _ K3); exact Htool).
    destruct (@menu_item_of_entry l1 entry l2 e3 table_split Hmenu3)
      as (prop & Hj & Hk & He).
    set (j := List.length l1) in *.
    set (e4 := uncheck_range (j - 0) 0 e3).
    assert (K4 : keeps e3 e4) by apply keeps_uncheck_range.
    destruct (uncheck_range_frame (j - 0) 0 e3) as (Hlog4 & _ & Hmode4 & _).
    fold e4 in Hlog4, Hmode4.
    assert (Hmode4' : current_composition_mode_ e4 = current_composition_mode_ e)
      by (rewrite Hmode4, Hmode3; reflexivity).
    destruct (IH e4) as (Hc & Hm & l & Hl & Hcount).
    { eapply menu_of_table_keeps; eassumption. }
    { rewrite (in_tool_namespace_keeps _ K4). exact Htool3. }
    { rewrite Hmode4'. exact Hmode. }
    assert (Einner : exists e_cut, SetCompositionMode d DIRECT e4 = Cut e_cut).
    { destruct (SetCompositionMode d DIRECT e4) as [[] e5|e5];
        [discriminate Hc | now exists e5]. }
    destruct Einner as (e_cut & Einner). rewrite Einner in Hm, Hl.
    cbn [engine_of] in Hm, Hl.
    assert (Eall : UpdateAll (S d) output e1 = Cut e_cut).
    { change (UpdateAll (S d) output e1)
        with (UpdateCompositionMode_ (UpdateAll d) output e3).
      unfold UpdateCompositionMode_. rewrite Hout.
      assert (Hne : CompositionMode_eqb (current_composition_mode_ e3) DIRECT = false).
      { apply CompositionMode_eqb_neq. rewrite Hmode3. exact Hmode. }
      rewrite Hne, table_split.
      apply activate_entries_cut; [exact entry_first | exact entry_DIRECT|].
      unfold PropertyActivate_. rewrite (tool_hit_none _ _ Htool3).
      cbn [negb IBusPropState_eqb]. unfold bind at 1.
      rewrite (@radio_loop_cut (UpdateAll d) (MozcEngineProperty.key entry)
                               j prop entry e_cut); try assumption; try reflexivity.
      - destruct Hmenu3 as [Hkeys _]. rewrite Hkeys. exact keys_distinct.
      - lia.
      - apply nth_error_Some. rewrite Hj. discriminate. }
    rewrite Eall. cbn [engine_of completed].
    split; [reflexivity|]. split; [rewrite Hm; exact Hmode4'|].
    exists (Session_SendCommand SUBMIT_command :: output_events output ++ l).
    split.
    + rewrite Hl, Hlog4, Hlog3. subst e1. simpl. rewrite <- !app_assoc.
      reflexivity.
    + cbn [filter is_command_of_type type SUBMIT_command List.length].
      rewrite filter_app, output_events_no_command. simpl. now rewrite Hcount.
Qed.
End Reentry.

(** *** When the switch to DIRECT returns *)

Lemma NoDup_map_inj {A B} (f : A -> B) (l : list A) a b :
  NoDup (map f l) -> In a l -> In b l -> f a = f b -> a = b.
Proof.
  induction l as [|x l IH]; intros Hnd Ha Hb Hf; [contradiction|].
  simpl in Hnd. inversion Hnd as [|? ? Hx Hl]; subst.
  destruct Ha as [<-|Ha], Hb as [<-|Hb].
  - reflexivity.
  - exfalso. apply Hx. rewrite Hf. now apply in_map.
  - exfalso. apply Hx. rewrite <- Hf. now apply in_map.
  - now apply IH.
Qed.

(** An item of the radio menu of the table whose key is the key of a table
    entry carries that entry. *)
Lemma menu_item_entry (e : MozcEngine Sess) i prop en :
  menu_of_table e ->
  NoDup (map MozcEngineProperty.key kMozcEngineProperties) ->
  nth_error (sub_props (prop_composition_mode_ e)) i = Some prop ->
  In en kMozcEngineProperties ->
  MozcEngineProperty.key en = radio_key prop ->
  radio_entry prop = Some en.
Proof.
  intros Hmenu Hnd Hi Hin Hkey.
  apply menu_of_table_items in Hmenu. unfold menu_shape in Hmenu. cbn [fst] in Hmenu.
  assert (Hn : nth_error (map (fun p => (radio_key p, radio_entry p))
                              (sub_props (prop_composition_mode_ e))) i
               = Some (radio_key prop, radio_entry prop))
    by (rewrite nth_error_map, Hi; reflexivity).
  rewrite Hmenu, nth_error_map in Hn.
  destruct (nth_error kMozcEngineProperties i) as [en'|] eqn:Hen; [|discriminate].
  simpl in Hn. injection Hn as Hk He. rewrite <- He. f_equal.
  apply (NoDup_map_inj MozcEngineProperty.key kMozcEngineProperties);
    try assumption; [eapply nth_error_In; eassumption | congruence].
Qed.

Lemma radio_loop_completes d property_name m n : forall i (e : MozcEngine Sess),
  m <> DIRECT ->
  menu_of_table e ->
  NoDup (map MozcEngineProperty.key kMozcEngineProperties) ->
  (exists en, In en kMozcEngineProperties
              /\ MozcEngineProperty.key en = property_name
              /\ MozcEngineProperty.composition_mode en = m) ->
  completed (radio_loop (UpdateAll d) n i property_name e) = true.
Proof.
  induction n as [|n IH]; intros i e Hm Hmenu Hnd Hen; cbn [radio_loop];
    [reflexivity|].
  destruct (nth_error (sub_props (prop_composition_mode_ e)) i) as [prop|] eqn:Hi;
    [|reflexivity].
  destruct (String.eqb property_name (radio_key prop)) eqn:Hk.
  - apply String.eqb_eq in Hk. destruct Hen as (en & Hin & Hkey & Hmode).
    assert (He : radio_entry prop = Some en)
      by (apply (@menu_item_entry e i prop en); try assumption; congruence).
    rewrite He. unfold bind, lift.
    rewrite SetCompositionMode__switch by congruence.
    apply IH; try assumption; [|now exists en].
    eapply menu_of_table_keeps; [|exact Hmenu].
    eapply keeps_trans; [apply keeps_SendCommand|].
    eapply keeps_trans; [|apply keeps_set_state]. split; reflexivity.
  - unfold bind, lift. apply IH; try assumption.
    eapply menu_of_table_keeps; [apply keeps_set_state | exact Hmenu].
Qed.

Lemma PropertyActivate_completes d property_name property_state m
      (e : MozcEngine Sess) :
  m <> DIRECT ->
  menu_of_table e ->
  NoDup (map MozcEngineProperty.key kMozcEngineProperties) ->
  (exists en, In en kMozcEngineProperties
              /\ MozcEngineProperty.key en = property_name
              /\ MozcEngineProperty.composition_mode en = m) ->
  completed (PropertyActivate_ (UpdateAll d) property_name property_state e) = true.
Proof.
  intros Hm Hmenu Hnd Hen. unfold PropertyActivate_.
  destruct (if OS_CHROMEOS then None
            else match prop_mozc_tool_ e with
                 | Some tool => find_tool_item property_name (tool_sub_props tool)
                 | None => None
                 end) as [prop|].
  - destruct (session_LaunchTool _ _ e) as [[|] e1]; reflexivity.
  - destruct (negb (IBusPropState_eqb property_state PROP_STATE_CHECKED));
      [reflexivity|].
    unfold bind.
    pose proof (@radio_loop_completes d property_name m
                  (List.length (sub_props (prop_composition_mode_ e))) 0%nat e
                  Hm Hmenu Hnd Hen) as Hc.
    destruct (radio_loop _ _ _ _ e); [reflexivity | discriminate Hc].
Qed.

Lemma activate_entries_completes d m entries : forall e : MozcEngine Sess,
  m <> DIRECT ->
  menu_of_table e ->
  NoDup (map MozcEngineProperty.key kMozcEngineProperties) ->
  (forall en, In en entries -> In en kMozcEngineProperties) ->
  completed (activate_entries_with_mode (UpdateAll d) entries m e) = true.
Proof.
  induction entries as [|en rest IH]; intros e Hm Hmenu Hnd Hsub; simpl;
    [reflexivity|].
  unfold bind.
  destruct (CompositionMode_eqb (MozcEngineProperty.composition_mode en) m) eqn:Heq.
  - apply CompositionMode_eqb_eq in Heq.
    pose proof (@PropertyActivate_completes d (MozcEngineProperty.key en)
                  PROP_STATE_CHECKED m e Hm Hmenu Hnd) as Hc.
    assert (Hk : keeps e (engine_of (PropertyActivate_ (UpdateAll d)
                                       (MozcEngineProperty.key en)
                                       PROP_STATE_CHECKED e)))
      by (apply keeps_op_PropertyActivate_, keeps_op_UpdateAll).
    destruct (PropertyActivate_ (UpdateAll d) (MozcEngineProperty.key en)
                                PROP_STATE_CHECKED e) as [[] e1|e1].
    + cbn [engine_of] in Hk. apply IH; try assumption.
      * eapply menu_of_table_keeps; eassumption.
      * intros en' Hin. apply Hsub. now right.
    + exfalso. assert (Hf : false = true); [|discriminate Hf].
      apply Hc. exists en. split; [apply Hsub; now left | split; [reflexivity | exact Heq]].
  - unfold ret. apply IH; try assumption.
    intros en' Hin. apply Hsub. now right.
Qed.

Lemma UpdateAll_completes_other_mode d output (e : MozcEngine Sess) :
  mode output <> Some DIRECT ->
  menu_of_table e ->
  NoDup (map MozcEngineProperty.key kMozcEngineProperties) ->
  completed (UpdateAll (S d) output e) = true.
Proof.
  intros Hout Hmenu Hnd.
  destruct (mode output) as [m|] eqn:Hm;
    [|apply UpdateAll_completes_without_mode_change; now left].
  assert (Hne : m <> DIRECT) by congruence.
  set (e3 := UpdateCandidates output (UpdatePreedit output (UpdateResult output e))).
  assert (K3 : keeps e e3).
  { eapply keeps_trans; [apply keeps_UpdateResult|].
    eapply keeps_trans; [apply keeps_UpdatePreedit | apply keeps_UpdateCandidates]. }
  change (UpdateAll (S d) output e)
    with (UpdateCompositionMode_ (UpdateAll d) output e3).
  unfold UpdateCompositionMode_. rewrite Hm.
  destruct (CompositionMode_eqb (current_composition_mode_ e3) m); [reflexivity|].
  apply activate_entries_completes; try assumption; [|auto].
  eapply menu_of_table_keeps; eassumption.
Qed.

(** X24: what [SetCompositionMode] sends and when it returns.  To DIRECT it
    sends SUBMIT first and no REVERT, and applies the output of the reply
    (result, preedit, candidate window, then the mode) whether or not the
    command succeeded; to any other mode it sends exactly one
    SWITCH_INPUT_MODE with that mode, returns and has set the mode.  A call
    to DIRECT that returns has set the mode to DIRECT.  It returns when the
    reply announces no mode or the mode the engine is in, and, on an engine
    whose radio menu holds the entries of the property table with distinct
    keys, whenever the reply announces any mode other than DIRECT. *)
Theorem X24_SetCompositionMode_commands
    depth composition_mode (e : MozcEngine Sess) :
  let r := SetCompositionMode depth composition_mode e in
  (composition_mode = DIRECT ->
     let reply := fst (client.SendCommand (session_ e) SUBMIT_command) in
     (exists l, log (engine_of r)
                = log e ++ Session_SendCommand SUBMIT_command :: l
                /\ forallb is_not_revert l = true)
     /\ (forall d, depth = S d ->
           exists l, log (engine_of r)
                     = log e ++ Session_SendCommand SUBMIT_command
                             :: output_events (snd reply) ++ l
                     /\ forallb is_not_revert l = true)
     /\ (completed r = true ->
         current_composition_mode_ (engine_of r) = DIRECT)
     /\ (forall d, depth = S d ->
           mode (snd reply) = None
           \/ mode (snd reply) = Some (current_composition_mode_ e) ->
           completed r = true)
     /\ (forall d, depth = S d ->
           mode (snd reply) <> Some DIRECT ->
           menu_of_table e ->
           NoDup (map MozcEngineProperty.key kMozcEngineProperties) ->
           completed r = true))
  /\ (composition_mode <> DIRECT ->
      let switch := SWITCH_INPUT_MODE_command composition_mode in
      r = Done tt (set_current_composition_mode_ composition_mode
                     (snd (session_SendCommand switch e)))
      /\ log (engine_of r) = log e ++ [Session_SendCommand switch]
      /\ current_composition_mode_ (engine_of r) = composition_mode).
Proof.
  intros r.
  destruct (SetCompositionMode_commands depth composition_mode e) as [HD HO].
  split; [|exact HO].
  intros ->. intros reply.
  destruct (HD eq_refl) as (Er & Hlog & Hset & Hsame).
  fold r in Er, Hlog, Hset, Hsame.
  rewrite session_SendCommand_unfold in Er, Hsame. cbn [fst snd] in Er, Hsame.
  fold reply in Er, Hsame.
  set (e1 := set_session_ (snd (client.SendCommand (session_ e) SUBMIT_command))
                          (emit (Session_SendCommand SUBMIT_command) e)) in *.
  split; [exact Hlog|]. split; [|split; [exact Hset|split; [exact Hsame|]]].
  - intros d ->.
    destruct (UpdateAll_shows d (snd reply) e1) as (l & Hl & Hcore & _).
    exists l. split.
    + rewrite Er. replace (log e ++ Session_SendCommand SUBMIT_command
                                 :: output_events (snd reply) ++ l)
        with (log e1 ++ output_events (snd reply) ++ l)
        by (subst e1; simpl; now rewrite <- app_assoc).
      rewrite <- Hl. now destruct (UpdateAll (S d) (snd reply) e1).
    + eapply forallb_weaken; [apply core_event_not_revert | exact Hcore].
  - intros d -> Hout Hmenu Hnd. rewrite Er.
    assert (Hc : completed (UpdateAll (S d) (snd reply) e1) = true).
    { apply UpdateAll_completes_other_mode; [exact Hout | exact Hmenu | exact Hnd]. }
    destruct (UpdateAll (S d) (snd reply) e1); [reflexivity | discriminate Hc].
Qed.

End EngineFacts7.

(** ** Runs of the switch to DIRECT *)

Section Runs3.
Import sample.

Local Existing Instance sample.schema.
Local Existing Instance sample.collaborators.

(** C4: the mode is not set on every call.  On the engine in HIRAGANA mode
    whose session answers SUBMIT with an output that announces DIRECT, the
    call [SetCompositionMode] to DIRECT sends SUBMIT and applies the reply;
    the reconciliation of the announced mode activates the DIRECT item,
    which calls [SetCompositionMode] to DIRECT again before the first call
    has set the mode.  Whatever nesting is allowed, the call is not through:
    it has sent one SUBMIT per level, and the engine's mode is still
    HIRAGANA. *)
Theorem C4_DIRECT_reply_never_returns (depth : nat) :
  let r := SetCompositionMode (build := linux) (session := direct_session)
                              depth DIRECT e_hiragana in
  current_composition_mode_ e_hiragana = HIRAGANA
  /\ completed r = false
  /\ current_composition_mode_ (engine_of r) = HIRAGANA
  /\ exists l,
       log (engine_of r) = log e_hiragana ++ l
       /\ List.length (filter (is_command_of_type SUBMIT) l) = S depth.
Proof.
  cbv zeta. split; [reflexivity|].
  apply (@SetCompositionMode_DIRECT_reenters linux schema collaborators unit
           direct_session []
           [ {| MozcEngineProperty.composition_mode := HIRAGANA;
                MozcEngineProperty.key := "CompositionMode.Hiragana";
                MozcEngineProperty.label := "Hiragana";
                MozcEngineProperty.icon := "hiragana.png" |};
             {| MozcEngineProperty.composition_mode := FULL_KATAKANA;
                MozcEngineProperty.key := "CompositionMode.Katakana";
                MozcEngineProperty.label := "Katakana";
                MozcEngineProperty.icon := "katakana_full.png" |} ]
           {| MozcEngineProperty.composition_mode := DIRECT;
              MozcEngineProperty.key := "CompositionMode.Direct";
              MozcEngineProperty.label := "Direct input";
              MozcEngineProperty.icon := "direct.png" |}).
  - reflexivity.
  - intros en [].
  - reflexivity.
  - repeat constructor; simpl; intuition discriminate.
  - intros s. reflexivity.
  - split; reflexivity.
  - reflexivity.
  - vm_compute. discriminate.
Qed.

Local Existing Instance sample.session.

(** A switch to DIRECT from HIRAGANA whose reply announces FULL_KATAKANA:
    the reply is applied, the call returns and the mode is DIRECT. *)
Lemma X24_witness :
  let e :=
    engine_of
      (PropertyActivate (build := linux) 1 "CompositionMode.Hiragana"
         PROP_STATE_CHECKED
         (engine linux
            [ (true, no_output);
              (true, {| result := Some "abc"; preedit := None; candidates := None;
                        mode := Some FULL_KATAKANA; consumed := true |});
              (true, no_output) ])) in
  let r := SetCompositionMode (build := linux) 1 DIRECT e in
  current_composition_mode_ e = HIRAGANA
  /\ completed r = true
  /\ current_composition_mode_ (engine_of r) = DIRECT.
Proof.
  intros e r.
  destruct (proj1 (@X24_SetCompositionMode_commands linux _ _ _ _ 1%nat DIRECT e)
                  eq_refl) as (_ & _ & Hset & _ & Hother).
  assert (Hc : completed r = true).
  { apply (Hother 0%nat eq_refl).
    - vm_compute. discriminate.
    - split; reflexivity.
    - repeat constructor; simpl; intuition discriminate. }
  split; [reflexivity|]. split; [exact Hc | exact (Hset Hc)].
Defined.

End Runs3.
